(** * Timeline editing engine: cut, ghost drag and zoom

    A shallow embedding of [src/mobx/store-modules/cutTimeline.js] (the cut
    engine and the file ghost-drag utilities), of the scale computation of the
    timeline scrollbar, and of the zoom manager the hook [useTimelineZoom]
    drives.

    Numbers.  JavaScript numbers are modelled as exact rationals ([Q]):
    [+ - * /] are the field operations and [<=], [>=] the usual order.
    Rounding, [NaN] and the infinities are outside that model; equalities
    between computed numbers are therefore stated with [==] ([Qeq]).  Where
    a comparison between doubles decides the outcome (whether a cut is
    refused, which clip a word lands in) the cut engine is embedded a second
    time, on binary64 floats, in the module [Double].

    Objects.  An object is a record, a possibly missing key an [option];
    [JSON.parse(JSON.stringify(x))] is the identity on such values, and an
    object spread followed by keys is a record rebuilt with those keys
    replaced. *)

From Stdlib Require Import QArith Qminmax Qabs Qround Lqa ZArith Lia.
From Stdlib Require Import List String Ascii Bool Permutation DecimalString.
From Stdlib Require Floats.
Import ListNotations.

Local Open Scope Q_scope.

(** ** JavaScript helpers *)

(** [x || d] on a possibly missing number: [undefined] and [0] are falsy. *)
Definition or_default (x : option Q) (d : Q) : Q :=
  match x with
  | Some v => if Qeq_bool v 0 then d else v
  | None => d
  end.

(** [arr.findIndex(p)], as a position from the left ([None] is JS's [-1]). *)
Fixpoint findIndex {A : Type} (p : A -> bool) (l : list A) : option nat :=
  match l with
  | [] => None
  | x :: t => if p x then Some O else option_map S (findIndex p t)
  end.

(** [arr.splice(i, 0, a, b)] for [0 <= i]: insert at [i], or at the end when
    [i] exceeds the length. *)
Definition splice_insert {A : Type} (i : nat) (new : list A) (l : list A)
  : list A :=
  firstn i l ++ new ++ skipn i l.

(** ** Data model *)

Module TimeFrame.
Record t : Type := mk { start : Q; end_ : Q }.
End TimeFrame.

Module Word.
Record t : Type := mk { text : string; start : Q; end_ : Q }.
End Word.

Module Properties.
(** The keys the cut engine reads or writes; [rest] stands for every other
    key of the object, which the spreads carry along untouched. *)
Record t : Type := mk {
  sourceStartTime : option Q;
  sourceDuration : option Q;
  words : option (list Word.t);
  rest : list (string * string)
}.

(** [{ ...undefined }] is the empty object. *)
Definition empty : t := mk None None None [].

(** [{ ...p }] for a possibly missing [p]. *)
Definition spread (p : option t) : t :=
  match p with Some q => q | None => empty end.
End Properties.

Module Element.
Record t : Type := mk {
  id : string;
  type : string;
  timeFrame : TimeFrame.t;
  row : Z;
  properties : option Properties.t
}.
End Element.

Module GhostElement.
Record t : Type := mk {
  type : string;
  duration : Q;
  timeFrame : TimeFrame.t;
  row : option Z
}.
End GhostElement.

(** The file being dragged is opaque to the engine; a name stands for it. *)
Definition File : Type := string.

Module GhostState.
Record t : Type := mk {
  isFileDragging : bool;
  fileData : option File;
  fileGhostElement : option GhostElement.t;
  ghostMarkerPosition : option Q;
  dragOverRowIndex : option Z;
  isIncompatibleRow : bool
}.
End GhostState.

Module Store.
Record t : Type := mk {
  editorElements : list Element.t;
  selectedElement : option string;
  maxTime : Q;
  ghostState : GhostState.t
}.

Definition set_editorElements (l : list Element.t) (s : t) : t :=
  mk l (selectedElement s) (maxTime s) (ghostState s).

Definition set_ghostState (g : GhostState.t) (s : t) : t :=
  mk (editorElements s) (selectedElement s) (maxTime s) g.

(** Modelled from the spec: the store method [setSelectedElement] is not in
    the sources at hand; the cut "clears any active selection". *)
Definition setSelectedElement (sel : option string) (s : t) : t :=
  mk (editorElements s) sel (maxTime s) (ghostState s).

(** Modelled from the spec: the store method [refreshElements] is not in the
    sources at hand; it "recalculates any store-wide derived value (e.g.,
    maximum end time across all elements)" and leaves the elements alone. *)
Definition refreshElements (s : t) : t :=
  mk (editorElements s) (selectedElement s)
     (fold_right (fun e m => Qmax (TimeFrame.end_ (Element.timeFrame e)) m)
                 0 (editorElements s))
     (ghostState s).
End Store.

(** ** Cut engine *)

(** The three ways [cutTimelineElement] returns: after one of its two
    warnings, or at the end of its body. *)
Inductive CutOutcome : Type :=
| ElementNotFound
| CutTimeOutOfRange
| CutApplied.

Definition with_properties (p : Properties.t) (e : Element.t) : Element.t :=
  Element.mk (Element.id e) (Element.type e) (Element.timeFrame e)
             (Element.row e) (Some p).

Definition isImage (ty : string) : bool :=
  String.eqb ty "image" || String.eqb ty "imageUrl".

(** Lines 136-174.  The two clips are mutated in place; here the adjusted pair
    is returned. *)
Definition adjustMediaElementForCut
  (firstClip secondClip originalElement : Element.t)
  (cutPosition elementDuration : Q) : Element.t * Element.t :=
  if isImage (Element.type originalElement) then (firstClip, secondClip)
  else
    match Element.properties originalElement with
    | Some op =>
        let originalSourceTime :=
          or_default (Properties.sourceStartTime op) 0 in
        let sourceDuration :=
          or_default (Properties.sourceDuration op) elementDuration in
        let sourceTimeAtCut :=
          originalSourceTime + (cutPosition / elementDuration) * sourceDuration in
        let fp := Properties.spread (Element.properties firstClip) in
        let sp := Properties.spread (Element.properties secondClip) in
        (with_properties
           (Properties.mk (Some originalSourceTime)
                          (Some (sourceTimeAtCut - originalSourceTime))
                          (Properties.words fp) (Properties.rest fp))
           firstClip,
         with_properties
           (Properties.mk (Some sourceTimeAtCut)
                          (Some (sourceDuration
                                 - (sourceTimeAtCut - originalSourceTime)))
                          (Properties.words sp) (Properties.rest sp))
           secondClip)
    | None => (firstClip, secondClip)
    end.

(** Lines 180-201. *)
Definition adjustAudioElementForCut
  (firstClip secondClip originalElement : Element.t)
  (cutPosition elementDuration : Q) : Element.t * Element.t :=
  match Element.properties originalElement with
  | Some op =>
      let originalSourceTime := or_default (Properties.sourceStartTime op) 0 in
      let fp := Properties.spread (Element.properties firstClip) in
      let sp := Properties.spread (Element.properties secondClip) in
      (with_properties
         (Properties.mk (Some originalSourceTime)
                        (Properties.sourceDuration fp)
                        (Properties.words fp) (Properties.rest fp))
         firstClip,
       with_properties
         (Properties.mk (Some (originalSourceTime + cutPosition))
                        (Properties.sourceDuration sp)
                        (Properties.words sp) (Properties.rest sp))
         secondClip)
  | None => (firstClip, secondClip)
  end.

(** The [map] callback of lines 230-234: [{ ...word, start, end }]. *)
Definition shiftWord (cutPosition : Q) (word : Word.t) : Word.t :=
  Word.mk (Word.text word)
          (Word.start word - cutPosition)
          (Word.end_ word - cutPosition).

(** Lines 207-247.  A missing or non-array [words] is [None]. *)
Definition adjustTextElementForCut
  (firstClip secondClip originalElement : Element.t)
  (cutPosition elementDuration : Q) : Element.t * Element.t :=
  match Element.properties originalElement with
  | Some op =>
      match Properties.words op with
      | Some words =>
          let elementStart :=
            TimeFrame.start (Element.timeFrame originalElement) in
          let cutTimeAbsolute := elementStart + cutPosition in
          let firstWords :=
            filter (fun word => Qle_bool (Word.end_ word) cutTimeAbsolute)
                   words in
          let secondWords :=
            map (shiftWord cutPosition)
                (filter (fun word => Qle_bool cutTimeAbsolute (Word.start word))
                        words) in
          let fp := Properties.spread (Element.properties firstClip) in
          let sp := Properties.spread (Element.properties secondClip) in
          (with_properties
             (Properties.mk (Properties.sourceStartTime fp)
                            (Properties.sourceDuration fp)
                            (Some (if Nat.ltb 0 (List.length firstWords)
                                   then firstWords else []))
                            (Properties.rest fp))
             firstClip,
           with_properties
             (Properties.mk (Properties.sourceStartTime sp)
                            (Properties.sourceDuration sp)
                            (Some (if Nat.ltb 0 (List.length secondWords)
                                   then secondWords else []))
                            (Properties.rest sp))
             secondClip)
      | None => (firstClip, secondClip)
      end
  | None => (firstClip, secondClip)
  end.

(** Lines 81-130: the [switch] on the element type. *)
Definition adjustElementPropertiesForCut
  (firstClip secondClip originalElement : Element.t)
  (cutTime : Q) (elementType : string) : Element.t * Element.t :=
  let elementDuration :=
    TimeFrame.end_ (Element.timeFrame originalElement)
    - TimeFrame.start (Element.timeFrame originalElement) in
  let cutPosition :=
    cutTime - TimeFrame.start (Element.timeFrame originalElement) in
  if String.eqb elementType "video" || String.eqb elementType "imageUrl"
     || String.eqb elementType "image"
  then adjustMediaElementForCut firstClip secondClip originalElement
                                cutPosition elementDuration
  else if String.eqb elementType "audio"
  then adjustAudioElementForCut firstClip secondClip originalElement
                                cutPosition elementDuration
  else if String.eqb elementType "text"
  then adjustTextElementForCut firstClip secondClip originalElement
                               cutPosition elementDuration
  else (firstClip, secondClip).

Definition hasId (elementId : string) (el : Element.t) : bool :=
  String.eqb (Element.id el) elementId.

(** Lines 10-75.  [uuid] is the value [uuidv4()] returns in this call; the
    result pairs the way the function returned with the store it leaves. *)
Definition cutTimelineElement
  (store : Store.t) (elementId : string) (cutTime : Q) (uuid : string)
  : CutOutcome * Store.t :=
  match find (hasId elementId) (Store.editorElements store) with
  | None => (ElementNotFound, store)
  | Some element =>
      let timeFrame := Element.timeFrame element in
      let type := Element.type element in
      if Qle_bool cutTime (TimeFrame.start timeFrame)
         || Qle_bool (TimeFrame.end_ timeFrame) cutTime
      then (CutTimeOutOfRange, store)
      else
        let firstClip :=
          Element.mk (Element.id element) (Element.type element)
                     (TimeFrame.mk (TimeFrame.start timeFrame) cutTime)
                     (Element.row element) (Element.properties element) in
        let secondClip :=
          Element.mk uuid (Element.type element)
                     (TimeFrame.mk cutTime (TimeFrame.end_ timeFrame))
                     (Element.row element) (Element.properties element) in
        let '(firstClip, secondClip) :=
          adjustElementPropertiesForCut firstClip secondClip element
                                        cutTime type in
        let updatedElements :=
          filter (fun el => negb (hasId elementId el))
                 (Store.editorElements store) in
        let elementIndex :=
          findIndex (hasId elementId) (Store.editorElements store) in
        let updatedElements :=
          match elementIndex with
          | Some i => splice_insert i [firstClip; secondClip] updatedElements
          | None => updatedElements (* not reached: [find] succeeded *)
          end in
        (CutApplied,
         Store.refreshElements
           (Store.setSelectedElement None
              (Store.set_editorElements updatedElements store)))
  end.

(** ** Ghost drag utilities *)

(** How a call ends: it returns, or an exception leaves it; either way with
    the store as the call left it. *)
Inductive Completion : Type :=
| Returns (s : Store.t)
| Throws (s : Store.t).

Definition storeOf (c : Completion) : Store.t :=
  match c with Returns s | Throws s => s end.

(** A commit callback, called as [callback(finalPosition, rowIndex)]; it may
    read and change the whole store.  [None] stands for a missing callback
    and for any value that is not a function. *)
Definition Callback : Type := option (Q -> Z -> Store.t -> Completion).

(** Lines 250-264. *)
Definition startFileGhostDragUtil
  (store : Store.t) (file : File) (elementType : string) (defaultDuration : Q)
  : Store.t :=
  let g := Store.ghostState store in
  Store.set_ghostState
    (GhostState.mk true (Some file)
       (Some (GhostElement.mk elementType defaultDuration
                              (TimeFrame.mk 0 defaultDuration) None))
       (GhostState.ghostMarkerPosition g)
       (GhostState.dragOverRowIndex g)
       (GhostState.isIncompatibleRow g))
    store.

(** Lines 266-284. *)
Definition updateFileGhostUtil
  (store : Store.t) (newPosition : Q) (rowIndex : Z) (isIncompatible : bool)
  : Store.t :=
  let g := Store.ghostState store in
  match GhostState.isFileDragging g, GhostState.fileGhostElement g with
  | true, Some ghost =>
      Store.set_ghostState
        (GhostState.mk (GhostState.isFileDragging g) (GhostState.fileData g)
           (Some (GhostElement.mk
                    (GhostElement.type ghost) (GhostElement.duration ghost)
                    (TimeFrame.mk newPosition
                                  (newPosition + GhostElement.duration ghost))
                    (Some rowIndex)))
           (Some newPosition) (Some rowIndex) isIncompatible)
        store
  | _, _ => store
  end.

(** The six assignments of lines 296-301. *)
Definition resetGhostState (store : Store.t) : Store.t :=
  Store.set_ghostState (GhostState.mk false None None None None false) store.

(** Lines 286-303.  The callback runs before the reset and nothing catches
    what it throws. *)
Definition finishFileGhostDragUtil
  (store : Store.t) (finalPosition : Q) (rowIndex : Z) (callback : Callback)
  : Completion :=
  if negb (GhostState.isFileDragging (Store.ghostState store))
  then Returns store
  else
    match callback with
    | Some f =>
        match f finalPosition rowIndex store with
        | Returns s => Returns (resetGhostState s)
        | Throws s => Throws s
        end
    | None => Returns (resetGhostState store)
    end.

(** A gesture on the ghost state machine, and a run of them; a call that
    throws leaves the store to the next gesture as it stood at the throw. *)
Inductive GhostOp : Type :=
| StartDrag (file : File) (elementType : string) (defaultDuration : Q)
| UpdatePosition (newPosition : Q) (rowIndex : Z) (isIncompatible : bool)
| FinishDrag (finalPosition : Q) (rowIndex : Z) (callback : Callback).

Definition runGhostOp (store : Store.t) (op : GhostOp) : Store.t :=
  match op with
  | StartDrag file ty d => startFileGhostDragUtil store file ty d
  | UpdatePosition p r i => updateFileGhostUtil store p r i
  | FinishDrag p r cb => storeOf (finishFileGhostDragUtil store p r cb)
  end.

Definition runGhostOps (ops : list GhostOp) (store : Store.t) : Store.t :=
  fold_left runGhostOp ops store.

(** The element list a gesture leaves, read off the gesture alone: the list
    its commit callback leaves when the gesture is a [finishDrag] with a
    callback during a drag, the list [store] already has otherwise. *)
Definition elementsAfterGesture (store : Store.t) (op : GhostOp)
  : list Element.t :=
  match op with
  | FinishDrag finalPosition rowIndex (Some f) =>
      if GhostState.isFileDragging (Store.ghostState store)
      then Store.editorElements (storeOf (f finalPosition rowIndex store))
      else Store.editorElements store
  | _ => Store.editorElements store
  end.

(** ** Zoom *)

(** Lines 126-141 of the scrollbar's [handleMouseMove]: the scale a resize of
    the handle asks for. *)
Definition resizeScale (initialHandleWidth delta scrollbarWidth : Q) : Q :=
  let newWidth := Qmax 20 (initialHandleWidth + delta) in
  let widthRatio := newWidth / scrollbarWidth in
  Qmax 1 (Qmin (59 # 2) (1 + (57 # 2) * (1 - widthRatio))).

Module TimelineManager.

Definition MIN_ZOOM : Q := 1.
Definition MAX_ZOOM : Q := 59 # 2.

(** A [ZoomChangeUpdate]: the value before and the value after. *)
Record ZoomChangeUpdate : Type := mkUpdate { oldValue : Q; newValue : Q }.

Record t : Type := mk {
  zoomVal : Q;
  emitted : list ZoomChangeUpdate
}.

(** Modelled from the spec: the class [TimelineManager] is imported by
    [useTimelineZoom] but is not in the sources at hand.  "clamped to
    [1, 29.5]". *)
Definition clampZoom (value : Q) : Q := Qmax MIN_ZOOM (Qmin MAX_ZOOM value).

(** Modelled from the spec: [setZoomValue(value, notify=true)] of the missing
    class: "clamp and assign directly"; "every zoom mutation that changes the
    clamped value emits one ZoomChangeUpdate event". *)
Definition setZoomValue (value : Q) (notify : bool) (m : t) : t :=
  let v := clampZoom value in
  mk v (if notify && negb (Qeq_bool v (zoomVal m))
        then emitted m ++ [mkUpdate (zoomVal m) v]
        else emitted m).

(** Modelled from the spec: [zoomIn(step)] and [zoomOut(step)] of the missing
    class: "adjust zoomValue by +step / -step, clamped to [1, 29.5]". *)
Definition zoomIn (step : Q) (m : t) : t :=
  setZoomValue (zoomVal m + step) true m.

Definition zoomOut (step : Q) (m : t) : t :=
  setZoomValue (zoomVal m - step) true m.

(** Modelled from the spec: [resetZoom()] of the missing class: "restores a
    fixed default level"; the level itself is not given, so it is a
    parameter, and like every mutation it goes through the bounded
    assignment. *)
Definition resetZoom (defaultZoom : Q) (m : t) : t :=
  setZoomValue defaultZoom true m.

End TimelineManager.

(** [useTimelineZoom.js].  The listener of lines 29-38 runs inside the
    manager's call whenever that call emits an update, and clears the anchor;
    the four operations of lines 48-74 record the anchor (all but [resetZoom])
    and hand over to the manager.  The defaults [step = 1] and
    [anchor = null] are the caller's to pass here. *)
Module ZoomHook.

Record t : Type := mk {
  zoomAncor : option Q;
  timelineManager : TimelineManager.t
}.

Definition afterCall (anchor : option Q) (before after : TimelineManager.t)
  : t :=
  mk (if Nat.ltb (List.length (TimelineManager.emitted before))
                 (List.length (TimelineManager.emitted after))
      then None else anchor)
     after.

Definition zoomIn (step : Q) (anchor : option Q) (h : t) : t :=
  afterCall anchor (timelineManager h)
            (TimelineManager.zoomIn step (timelineManager h)).

Definition zoomOut (step : Q) (anchor : option Q) (h : t) : t :=
  afterCall anchor (timelineManager h)
            (TimelineManager.zoomOut step (timelineManager h)).

Definition setZoom (value : Q) (anchor : option Q) (h : t) : t :=
  afterCall anchor (timelineManager h)
            (TimelineManager.setZoomValue value true (timelineManager h)).

Definition resetZoom (defaultZoom : Q) (h : t) : t :=
  afterCall (zoomAncor h) (timelineManager h)
            (TimelineManager.resetZoom defaultZoom (timelineManager h)).

End ZoomHook.

(** ** Vocabulary of the statements *)

(** [t] lies in the half-open range [[start, end)] of a time frame. *)
Definition inTimeFrame (tf : TimeFrame.t) (t : Q) : Prop :=
  TimeFrame.start tf <= t /\ t < TimeFrame.end_ tf.

(** [cutTime] lies strictly inside the time frame of [element]. *)
Definition strictlyInside (element : Element.t) (cutTime : Q) : Prop :=
  TimeFrame.start (Element.timeFrame element) < cutTime
  /\ cutTime < TimeFrame.end_ (Element.timeFrame element).

(** The two clips a cut leaves in the store: the elements at the index the
    original had and at the next one. *)
Definition producedClips (before after : Store.t) (elementId : string)
  : option (Element.t * Element.t) :=
  match findIndex (hasId elementId) (Store.editorElements before) with
  | Some i =>
      match nth_error (Store.editorElements after) i,
            nth_error (Store.editorElements after) (S i) with
      | Some firstClip, Some secondClip => Some (firstClip, secondClip)
      | _, _ => None
      end
  | None => None
  end.

(** [element.properties.sourceStartTime] and its siblings, [None] when the
    key or [properties] itself is missing. *)
Definition getSourceStartTime (e : Element.t) : option Q :=
  match Element.properties e with
  | Some p => Properties.sourceStartTime p
  | None => None
  end.

Definition getSourceDuration (e : Element.t) : option Q :=
  match Element.properties e with
  | Some p => Properties.sourceDuration p
  | None => None
  end.

Definition getWords (e : Element.t) : option (list Word.t) :=
  match Element.properties e with
  | Some p => Properties.words p
  | None => None
  end.

(** The two object literals of lines 29-46, before the adjustment. *)
Definition firstClipLiteral (element : Element.t) (cutTime : Q) : Element.t :=
  Element.mk (Element.id element) (Element.type element)
             (TimeFrame.mk (TimeFrame.start (Element.timeFrame element))
                           cutTime)
             (Element.row element) (Element.properties element).

Definition secondClipLiteral (element : Element.t) (cutTime : Q)
  (uuid : string) : Element.t :=
  Element.mk uuid (Element.type element)
             (TimeFrame.mk cutTime
                           (TimeFrame.end_ (Element.timeFrame element)))
             (Element.row element) (Element.properties element).

(** The pair of clips the body of [cutTimelineElement] builds from [element]. *)
Definition cutClips (element : Element.t) (cutTime : Q) (uuid : string)
  : Element.t * Element.t :=
  adjustElementPropertiesForCut
    (firstClipLiteral element cutTime) (secondClipLiteral element cutTime uuid)
    element cutTime (Element.type element).

(** A word whose span contains the cut time in its interior. *)
Definition straddles (cutTime : Q) (word : Word.t) : bool :=
  negb (Qle_bool (Word.end_ word) cutTime)
  && negb (Qle_bool cutTime (Word.start word)).

(** The state every reset leaves the ghost machine in. *)
Definition idleGhostState : GhostState.t :=
  GhostState.mk false None None None None false.

(** The closed zoom interval. *)
Definition zoomInRange (z : Q) : Prop := 1 <= z /\ z <= 59 # 2.

(** ** Sample inputs *)

Module Sample.

(** The video of the spec's worked example. *)
Definition videoProperties : Properties.t :=
  Properties.mk (Some 0) (Some 10000) None
                [("src"%string, "clip.mp4"%string)].

Definition videoElement : Element.t :=
  Element.mk "v1" "video" (TimeFrame.mk 0 10000) 0 (Some videoProperties).

(** An audio clip with the same offsets. *)
Definition audioProperties : Properties.t :=
  Properties.mk (Some 0) (Some 10000) None
                [("src"%string, "song.mp3"%string)].

Definition audioElement : Element.t :=
  Element.mk "a1" "audio" (TimeFrame.mk 0 10000) 1 (Some audioProperties).

(** The subtitle of the spec's worked example. *)
Definition subtitleWords : list Word.t :=
  [Word.mk "one" 0 1000; Word.mk "two" 1000 2000; Word.mk "three" 2500 3500].

Definition textProperties : Properties.t :=
  Properties.mk None None (Some subtitleWords) [].

Definition textElement : Element.t :=
  Element.mk "t1" "text" (TimeFrame.mk 0 4000) 2 (Some textProperties).

(** A subtitle with one word of zero length, at 2000. *)
Definition instantWord : Word.t := Word.mk "beat" 2000 2000.

Definition instantElement : Element.t :=
  Element.mk "t2" "text" (TimeFrame.mk 0 4000) 3
    (Some (Properties.mk None None (Some [instantWord]) [])).

Definition store : Store.t :=
  Store.mk [videoElement; audioElement; textElement; instantElement]
           None 10000 (GhostState.mk false None None None None false).

(** The same store in the middle of a file drag. *)
Definition draggingStore : Store.t :=
  updateFileGhostUtil
    (startFileGhostDragUtil store "clip.mp4"%string "video" 5000) 1200 1 false.

(** A commit callback that inserts the dropped clip and returns. *)
Definition commitCallback : Callback :=
  Some (fun finalPosition rowIndex s =>
          Returns
            (Store.set_editorElements
               (Store.editorElements s
                ++ [Element.mk "dropped" "video"
                      (TimeFrame.mk finalPosition (finalPosition + 5000))
                      rowIndex None])
               s)).

(** A commit callback that only changes the selection. *)
Definition selectCallback : Callback :=
  Some (fun _ _ s => Returns (Store.setSelectedElement (Some "v1"%string) s)).

(** A commit callback that throws at once. *)
Definition throwingCallback : Callback :=
  Some (fun _ _ s => Throws s).

Definition gestures : list GhostOp :=
  [StartDrag "clip.mp4"%string "video" 5000;
   UpdatePosition 1200 1 false;
   UpdatePosition 1500 0 true;
   FinishDrag 1500 0 selectCallback;
   FinishDrag 1500 0 throwingCallback;
   StartDrag "song.mp3"%string "audio" 3000;
   FinishDrag 0 1 throwingCallback;
   FinishDrag 0 1 None].

(** A drop that is committed, followed by a second [finishDrag] that finds
    no drag in progress. *)
Definition committedDrop : list GhostOp :=
  [StartDrag "clip.mp4"%string "video" 5000;
   UpdatePosition 1200 1 false;
   FinishDrag 1500 0 commitCallback;
   FinishDrag 1500 0 commitCallback].

End Sample.

(** ** Timeline scrollbar *)

Module Scrollbar.

(** Line 23. *)
Definition lerp (a b t : Q) : Q := a + (b - a) * t.

(** The three refs of lines 19-21; [animationFrame] tells whether a frame
    is requested ([animationFrameRef.current] is not null). *)
Record Anim : Type := mkAnim {
  targetLeft : Q;
  currentLeft : Q;
  animationFrame : bool
}.

(** Lines 25-44, one run of [animateHandle]; [handle] tells whether
    [handleRef.current] is set. *)
Definition animateHandle (handle : bool) (a : Anim) : Anim :=
  if negb handle then a
  else
    let current := lerp (currentLeft a) (targetLeft a) (3 # 20) in
    mkAnim (targetLeft a) current
           (negb (Qle_bool (Qabs (current - targetLeft a)) (1 # 10))).

(** Lines 46-52. *)
Definition setHandleLeftSmooth (left : Q) (a : Anim) : Anim :=
  mkAnim left (currentLeft a) true.

(** What the browser does at the next frame: run the callback if one was
    requested. *)
Definition nextFrame (handle : bool) (a : Anim) : Anim :=
  if animationFrame a then animateHandle handle a else a.

(** Lines 64-66 of [updateHandleSize]: the width given to the handle. *)
Definition handleWidth (scale scrollbarWidth : Q) : Q :=
  let scaleRatio := Qmax 0 (Qmin ((scale - 1) / (57 # 2)) (49 # 50)) in
  scrollbarWidth * (1 - scaleRatio).

Inductive Edge : Type := left | right.

(** The component state [handleMouseMove] reads. *)
Record State : Type := mkState {
  isDragging : bool;
  isResizing : option Edge;
  dragStartX : Q;
  dragStartLeft : Q;
  initialHandleLeft : Q;
  initialHandleWidth : Q
}.

(** The geometry [handleMouseMove] reads from the DOM. *)
Record Geometry : Type := mkGeometry {
  scrollbarWidth : Q;
  handleOffsetWidth : Q;
  scrollWidth : Q;
  clientWidth : Q
}.

(** What one [handleMouseMove] writes: the target handed to
    [setHandleLeftSmooth], the value assigned to [scrollLeft] ([Some None]
    when the division is by zero, where JavaScript yields [NaN] or an
    infinity), the width written to the handle's style and the scale handed
    to [setCurrentScale]. *)
Record Effects : Type := mkEffects {
  newTargetLeft : option Q;
  newScrollLeft : option (option Q);
  newStyleWidth : option Q;
  newScale : option Q
}.

Definition noEffects : Effects := mkEffects None None None None.

(** Lines 110-113. *)
Definition dragLeft (st : State) (g : Geometry) (clientX : Q) : Q :=
  let delta := clientX - dragStartX st in
  let maxLeft := scrollbarWidth g - handleOffsetWidth g in
  Qmax 0 (Qmin (dragStartLeft st + delta) maxLeft).

(** Lines 117-123. *)
Definition dragScroll (st : State) (g : Geometry) (clientX : Q) : option Q :=
  let maxLeft := scrollbarWidth g - handleOffsetWidth g in
  let maxScroll := scrollWidth g - clientWidth g in
  if Qeq_bool maxLeft 0 then None
  else Some (maxScroll * (dragLeft st g clientX / maxLeft)).

(** Lines 100-142. *)
Definition handleMouseMove (st : State) (g : Geometry) (clientX : Q)
  : Effects :=
  match isDragging st, isResizing st with
  | false, None => noEffects
  | dragging, resizing =>
      let afterDrag :=
        if dragging
        then mkEffects (Some (dragLeft st g clientX))
                       (Some (dragScroll st g clientX)) None None
        else noEffects in
      match resizing with
      | Some _ =>
          let delta := clientX - dragStartX st in
          let newWidth := Qmax 20 (initialHandleWidth st + delta) in
          mkEffects (newTargetLeft afterDrag) (newScrollLeft afterDrag)
                    (Some newWidth)
                    (Some (resizeScale (initialHandleWidth st) delta
                                       (scrollbarWidth g)))
      | None => afterDrag
      end
  end.

End Scrollbar.

(** ** Canvas editor *)

Module Canvas.

Record Item : Type := mkItem {
  id : string;
  x : Q;
  y : Q;
  width : Q;
  height : Q;
  type : string;
  src : string
}.

Record State : Type := mkState {
  items : list Item;
  selectedId : option string;
  isDragging : bool;
  dragOffset : Q * Q
}.

Definition hasId (i : string) (item : Item) : bool := String.eqb (id item) i.

(** [item.id === selectedId], false when nothing is selected. *)
Definition isSelected (sel : option string) (item : Item) : bool :=
  match sel with Some i => hasId i item | None => false end.

(** [!selectedId]: [null] and the empty string are falsy. *)
Definition noSelection (sel : option string) : bool :=
  match sel with Some i => String.eqb i "" | None => true end.

(** Lines 29-41. *)
Definition handleItemSelect (clientX clientY : Q) (i : string) (st : State)
  : State :=
  match find (hasId i) (items st) with
  | Some item =>
      mkState (items st) (Some i) true (clientX - x item, clientY - y item)
  | None => mkState (items st) (Some i) (isDragging st) (dragOffset st)
  end.

Definition moveTo (newX newY : Q) (item : Item) : Item :=
  mkItem (id item) newX newY (width item) (height item) (type item)
         (src item).

(** Lines 44-53. *)
Definition handleMouseMove (clientX clientY : Q) (st : State) : State :=
  if negb (isDragging st) || noSelection (selectedId st) then st
  else
    let newX := clientX - fst (dragOffset st) in
    let newY := clientY - snd (dragOffset st) in
    mkState (map (fun item => if isSelected (selectedId st) item
                              then moveTo newX newY item else item)
                 (items st))
            (selectedId st) (isDragging st) (dragOffset st).

(** Lines 66-68. *)
Definition clampItem (canvasWidth canvasHeight : Q) (item : Item) : Item :=
  moveTo (Qmax 0 (Qmin (x item) (canvasWidth - width item)))
         (Qmax 0 (Qmin (y item) (canvasHeight - height item)))
         item.

(** Lines 56-72; [canvas] is the size of [canvasRef.current], if set. *)
Definition handleMouseUp (canvas : option (Q * Q)) (st : State) : State :=
  if negb (isDragging st) then st
  else
    match canvas with
    | None => mkState (items st) (selectedId st) false (dragOffset st)
    | Some (canvasWidth, canvasHeight) =>
        mkState (map (fun item => if isSelected (selectedId st) item
                                  then clampItem canvasWidth canvasHeight item
                                  else item)
                     (items st))
                (selectedId st) false (dragOffset st)
    end.

(** The snap-back of the player panel's [mouse:up] handler: the new [left]
    (or [top]) of an object from its old one, the near edge and extent of
    its bounding rectangle and the extent of the canvas. *)
Definition snapBack (objLeft boundLeft boundWidth canvasWidth : Q) : Q :=
  if negb (Qle_bool 0 boundLeft) then objLeft - boundLeft
  else if negb (Qle_bool (boundLeft + boundWidth) canvasWidth)
       then objLeft - (boundLeft + boundWidth - canvasWidth)
       else objLeft.

End Canvas.

(** ** Video metadata *)

Module Metadata.

(** What the detection reads off an [HTMLAudioTrack]. *)
Record AudioTrack : Type := mkAudioTrack {
  trackId : string;
  trackLanguage : string;
  trackEnabled : bool
}.

(** What the detection reads off the [video] element at the moment it runs.
    [duration] is [None] for [NaN]; [mozHasAudio], [audioTracks] and
    [canPlayType] are [None] where the browser lacks them;
    [webkitAudioDecodedByteCount] is [None] unless it is a number. *)
Record Video : Type := mkVideo {
  duration : option Q;
  mozHasAudio : option bool;
  webkitAudioDecodedByteCount : option Q;
  audioTracks : option (list AudioTrack);
  readyState : Z;
  videoWidth : Q;
  videoHeight : Q;
  canPlayType : option (string -> string)
}.

Record VideoTrackInfo : Type := mkVideoTrackInfo {
  vId : string;
  vType : string;
  vCodec : string;
  vWidth : Q;
  vHeight : Q;
  vBitrate : option Q;
  vFrameRate : option Q;
  vDuration : Q;
  vLanguage : option string
}.

Record AudioTrackInfo : Type := mkAudioTrackInfo {
  aId : string;
  aType : string;
  aCodec : string;
  aBitrate : option Q;
  aSampleRate : option Q;
  aChannels : option Q;
  aLanguage : string;
  aEnabled : bool;
  aDuration : Q
}.

Record Tracks : Type := mkTracks {
  video : list VideoTrackInfo;
  audio : list AudioTrackInfo
}.

Record t : Type := mk {
  durationMs : Q;
  hasAudio : bool;
  tracks : option Tracks
}.

(** The double-quote character of the MIME strings. *)
Definition quote : string :=
  String (Ascii false true false false false true false false) EmptyString.

Definition codecsParam (mime codecs : string) : string :=
  (mime ++ "; codecs=" ++ quote ++ codecs ++ quote)%string.

(** Lines 288-302. *)
Definition videoCodecs : list (string * string) :=
  [(codecsParam "video/mp4" "avc1.42E01E", "H.264"%string);
   (codecsParam "video/mp4" "avc1.640028", "H.264 (High Profile)"%string);
   (codecsParam "video/webm" "vp8", "VP8"%string);
   (codecsParam "video/webm" "vp9", "VP9"%string);
   (codecsParam "video/webm" "av01", "AV1"%string)].

Definition audioCodecs : list (string * string) :=
  [(codecsParam "audio/mp4" "mp4a.40.2", "AAC"%string);
   (codecsParam "audio/mp4" "mp4a.40.5", "AAC (HE)"%string);
   (codecsParam "audio/webm" "opus", "Opus"%string);
   (codecsParam "audio/webm" "vorbis", "Vorbis"%string);
   (codecsParam "audio/ogg" "opus", "Opus"%string)].

(** The loop of lines 306-310. *)
Fixpoint firstPlayable (play : string -> string)
  (codecs : list (string * string)) : option string :=
  match codecs with
  | [] => None
  | (mime, codec) :: rest =>
      if negb (String.eqb (play mime) "") then Some codec
      else firstPlayable play rest
  end.

(** Lines 284-317. *)
Definition extractCodec (v : Video) (type : string) : string :=
  match canPlayType v with
  | Some play =>
      let codecs :=
        if String.eqb type "video" then videoCodecs else audioCodecs in
      match firstPlayable play codecs with
      | Some codec => codec
      | None => "unknown"%string
      end
  | None => "unknown"%string
  end.

(** Lines 324-372: the five estimators all return [null]. *)
Definition estimateBitrate (v : Video) : option Q := None.
Definition estimateFrameRate (v : Video) : option Q := None.
Definition estimateAudioBitrate (v : Video) : option Q := None.
Definition estimateSampleRate (v : Video) : option Q := None.
Definition estimateChannels (v : Video) : option Q := None.

(** [x || fallback] on strings: the empty string is falsy. *)
Definition orString (s fallback : string) : string :=
  if String.eqb s "" then fallback else s.

Definition indexName (i : nat) : string :=
  ("audio-" ++ NilZero.string_of_uint (Nat.to_uint i))%string.

(** The body of the loop of lines 243-256, for the track at index [i]. *)
Definition audioInfoOf (v : Video) (i : nat) (track : AudioTrack)
  : AudioTrackInfo :=
  mkAudioTrackInfo (orString (trackId track) (indexName i)) "audio"
                   (extractCodec v "audio") (estimateAudioBitrate v)
                   (estimateSampleRate v) (estimateChannels v)
                   (orString (trackLanguage track) "unknown")
                   (trackEnabled track) (or_default (duration v) 0).

Fixpoint audioInfosFrom (v : Video) (i : nat) (l : list AudioTrack)
  : list AudioTrackInfo :=
  match l with
  | [] => []
  | track :: rest => audioInfoOf v i track :: audioInfosFrom v (S i) rest
  end.

(** Lines 218-276. *)
Definition extractTrackInfo (v : Video) (hasAudio : bool) : Tracks :=
  mkTracks
    (if negb (Qeq_bool (videoWidth v) 0) && negb (Qeq_bool (videoHeight v) 0)
     then [mkVideoTrackInfo "video-0" "video" (extractCodec v "video")
                            (videoWidth v) (videoHeight v)
                            (estimateBitrate v) (estimateFrameRate v)
                            (or_default (duration v) 0) None]
     else [])
    (match audioTracks v with
     | Some (track :: rest) => audioInfosFrom v 0 (track :: rest)
     | _ =>
         if hasAudio
         then [mkAudioTrackInfo "audio-0" "audio" "unknown"
                                (estimateAudioBitrate v)
                                (estimateSampleRate v) (Some 2) "unknown"
                                true (or_default (duration v) 0)]
         else []
     end).

Definition positive (x : Q) : bool := negb (Qle_bool x 0).

(** Lines 51-114, [detectAudioAndResolve] on a promise not yet resolved:
    the value it resolves the promise with. *)
Definition detectAudioAndResolve (v : Video) : t :=
  let durationSec := or_default (duration v) 0 in
  let mozHasAudio :=
    match mozHasAudio v with Some b => b | None => false end in
  let webkitHasAudio :=
    match webkitAudioDecodedByteCount v with
    | Some n => positive n
    | None => false
    end in
  let hasAudioTracks :=
    match audioTracks v with Some (_ :: _) => true | _ => false end in
  let audioContextCheck :=
    if Z.leb 2 (readyState v)
    then hasAudioTracks || (mozHasAudio || webkitHasAudio)
    else false in
  let detectedAudio :=
    mozHasAudio || webkitHasAudio || hasAudioTracks || audioContextCheck in
  let detectedAudio :=
    if negb detectedAudio && positive durationSec then true
    else detectedAudio in
  let trackInfo := extractTrackInfo v detectedAudio in
  mk (if positive durationSec then durationSec * 1000 else 10000)
     detectedAudio (Some trackInfo).

(** The five ways the promise of [getVideoMetadataFromUrl] is resolved: an
    empty url (lines 16-19), the timeout (44-49), the [error] event
    (159-169), a failure while setting the source (196-208), or the
    detection on the element as it then is. *)
Inductive Resolution : Type :=
| NoUrl
| TimedOut
| LoadError
| SourceError
| Detected (v : Video).

Definition resolvedValue (r : Resolution) : t :=
  match r with
  | NoUrl | TimedOut | LoadError => mk 10000 false None
  | SourceError => mk 10000 false (Some (mkTracks [] []))
  | Detected v => detectAudioAndResolve v
  end.

(** [Math.round]. *)
Definition round (x : Q) : Q := inject_Z (Qfloor (x + (1 # 2))).

Definition setVideoBitrate (b : Q) (i : VideoTrackInfo) : VideoTrackInfo :=
  mkVideoTrackInfo (vId i) (vType i) (vCodec i) (vWidth i) (vHeight i)
                   (Some b) (vFrameRate i) (vDuration i) (vLanguage i).

Definition setAudioBitrate (b : Q) (i : AudioTrackInfo) : AudioTrackInfo :=
  mkAudioTrackInfo (aId i) (aType i) (aCodec i) (Some b) (aSampleRate i)
                   (aChannels i) (aLanguage i) (aEnabled i) (aDuration i).

(** Lines 384-405 of [getVideoMetadataWithFileSize]: what becomes of the
    metadata the awaited promise gave; a missing [fileSizeBytes] is
    [None]. *)
Definition withFileSize (fileSizeBytes : option Q) (baseMetadata : t) : t :=
  match fileSizeBytes with
  | Some bytes =>
      if negb (Qeq_bool bytes 0) && positive (durationMs baseMetadata)
      then
        let durationSeconds := durationMs baseMetadata / 1000 in
        let totalBitrateKbps := (bytes * 8) / (durationSeconds * 1000) in
        let estimatedAudioBitrate :=
          if hasAudio baseMetadata then 128 else 0 in
        let estimatedVideoBitrate :=
          Qmax 0 (totalBitrateKbps - estimatedAudioBitrate) in
        mk (durationMs baseMetadata) (hasAudio baseMetadata)
           (match tracks baseMetadata with
            | Some tr =>
                Some (mkTracks
                        (match video tr with
                         | first :: rest =>
                             setVideoBitrate (round estimatedVideoBitrate)
                                             first :: rest
                         | [] => []
                         end)
                        (map (setAudioBitrate (round estimatedAudioBitrate))
                             (audio tr)))
            | None => None
            end)
      else baseMetadata
  | None => baseMetadata
  end.

End Metadata.

(** ** Dropping a file on the timeline *)

Module Drop.

(** The two keys read off the dropped [File]; a missing [type] is the empty
    string, as in the browser. *)
Record DroppedFile : Type := mkFile { name : string; type : string }.

Inductive Toast : Type :=
| ToastSuccess (message : string)
| ToastError (message : string).

Record AudioArgs : Type := mkAudioArgs {
  base64Audio : string;
  audioDurationMs : Q;
  audioRow : Z;
  audioStartTime : Q;
  audioType : string;
  audioId : string;
  audioName : string
}.

Record ImageArgs : Type := mkImageArgs {
  imageUrl : string;
  minUrl : string;
  imageRow : Z;
  imageStartTime : Q
}.

Record VideoArgs : Type := mkVideoArgs {
  videoUrl : string;
  title : string;
  key : option string;
  videoDuration : Q;
  videoRow : Z;
  videoStartTime : Q;
  isNeedLoader : bool
}.

(** What a call leaves behind: whether it returned [true], the store, the
    toasts shown and the lines logged, in order. *)
Record Outcome : Type := mkOutcome {
  accepted : bool;
  store : Store.t;
  toasts : list Toast;
  logged : list string
}.

(** [DropZoneOverlay.jsx], lines 12-17; [None] is a missing [fileType]. *)
Definition getFileTypeLabel (fileType : option string) : string :=
  match fileType with
  | Some ty =>
      if String.prefix "video/" ty then "Video"%string
      else if String.prefix "audio/" ty then "Audio"%string
      else if String.prefix "image/" ty then "Image"%string
      else "Media"%string
  | None => "Media"%string
  end.

Section WithStore.

(** The store methods and browser calls the module relies on but does not
    define: the three loaders may change the store and may throw. *)
Variable createObjectURL : DroppedFile -> string.
Variable addExistingAudio : AudioArgs -> Store.t -> Completion.
Variable addImageLocal : ImageArgs -> Store.t -> Completion.
Variable handleVideoUploadFromUrl : VideoArgs -> Store.t -> Completion.

(** What this call meets outside: the duration in seconds the media element
    reports ([None] when it fires [error]) and the text [Date.now()] and
    [Math.random()] contribute to the generated id. *)
Variable probedSeconds : option Q.
Variable stamp : string.

(** [generateId]. *)
Definition generateId (prefix : string) : string :=
  (prefix ++ "-" ++ stamp)%string.

(** [getAudioDuration] and [getVideoDuration]: both promises always
    resolve, with a default on error. *)
Definition getAudioDuration : Q :=
  match probedSeconds with Some d => d * 1000 | None => 5000 end.

Definition getVideoDuration : Q :=
  match probedSeconds with Some d => d * 1000 | None => 10000 end.

(** [syncFileToServer]: one line on the console. *)
Definition syncLine (file : DroppedFile) (fileType : string) : string :=
  ("[Server Sync] Would upload " ++ fileType ++ ": " ++ name file)%string.

Definition addedToast (file : DroppedFile) : Toast :=
  ToastSuccess ("Added " ++ name file ++ " to timeline")%string.

(** The three [add...ToTimeline] functions: the completion of the awaited
    store call and, when it returned, the toast and the log line. *)
Definition addAudioToTimeline (s : Store.t) (file : DroppedFile) (row : Z)
  (startTime : Q) : Completion * list Toast * list string :=
  let audioUrl := createObjectURL file in
  let duration := getAudioDuration in
  match addExistingAudio
          (mkAudioArgs audioUrl duration row startTime "music"
                       (generateId "audio") (name file)) s with
  | Returns s' => (Returns s', [addedToast file], [syncLine file "audio"])
  | Throws s' => (Throws s', [], [])
  end.

Definition addImageToTimeline (s : Store.t) (file : DroppedFile) (row : Z)
  (startTime : Q) : Completion * list Toast * list string :=
  let imageUrl := createObjectURL file in
  match addImageLocal (mkImageArgs imageUrl imageUrl row startTime) s with
  | Returns s' => (Returns s', [addedToast file], [syncLine file "image"])
  | Throws s' => (Throws s', [], [])
  end.

Definition addVideoToTimeline (s : Store.t) (file : DroppedFile) (row : Z)
  (startTime : Q) : Completion * list Toast * list string :=
  let videoUrl := createObjectURL file in
  let duration := getVideoDuration in
  match handleVideoUploadFromUrl
          (mkVideoArgs videoUrl (name file) None duration row startTime
                       false) s with
  | Returns s' => (Returns s', [addedToast file], [syncLine file "video"])
  | Throws s' => (Throws s', [], [])
  end.

(** The [try] block's three branches share this ending: [true] after a
    normal return, the [catch] otherwise. *)
Definition settle (file : DroppedFile)
  (r : Completion * list Toast * list string) : Outcome :=
  match r with
  | (Returns s', shown, lines) => mkOutcome true s' shown lines
  | (Throws s', shown, lines) =>
      mkOutcome false s'
        (shown ++ [ToastError ("Failed to add " ++ name file
                               ++ " to timeline")%string])
        (lines ++ [("Error adding " ++ name file ++ " to timeline:")%string])
  end.

(** [handleFileDropToTimeline]. *)
Definition handleFileDropToTimeline (s : Store.t) (file : DroppedFile)
  (row : Z) (startTime : Q) : Outcome :=
  let fileType := type file in
  if String.prefix "audio/" fileType
  then settle file (addAudioToTimeline s file row startTime)
  else if String.prefix "image/" fileType
  then settle file (addImageToTimeline s file row startTime)
  else if String.prefix "video/" fileType
  then settle file (addVideoToTimeline s file row startTime)
  else
    mkOutcome false s
      [ToastError ("Unsupported file type: "
                   ++ Metadata.orString fileType (name file))%string]
      [].

End WithStore.

End Drop.

(** ** Ghost element placement *)

Module GhostPlacement.

(** The measurements of lines 45-57 of [TimelineGhostElement.jsx], when
    they have been taken. *)
Record RowPosition : Type := mkRow { top : Q; height : Q }.
Record OverlayMetrics : Type := mkOverlay { leftBase : Q; widthPx : Q }.

(** The numbers of the style object of lines 96-140: pixels in the first
    case, else percentages for [left] and [width], and for [top] and
    [height] pixels or percentages as the row position is known or not.
    With [totalRows = 0] JavaScript's fallback height is an infinity, which
    is outside the model. *)
Inductive Style : Type :=
| Pixels (pixelLeft pixelTop pixelWidth pixelHeight : Q)
| PercentInRow (leftPct widthPct topPx heightPx : Q)
| PercentFallback (leftPct widthPct topPct heightPct : Q).

Definition style (left width row totalRows : Q)
  (rowPosition : option RowPosition)
  (overlayMetrics : option OverlayMetrics) : Style :=
  let fallbackRowHeight := 100 / totalRows in
  let fallbackTop := row * fallbackRowHeight in
  match rowPosition, overlayMetrics with
  | Some rp, Some om =>
      let compensation := 60 in
      Pixels (leftBase om + (left / 100) * widthPx om + compensation)
             (top rp)
             (Qmax 1 ((width / 100) * widthPx om))
             (height rp)
  | Some rp, None => PercentInRow left (Qmax width 1) (top rp) (height rp)
  | None, _ => PercentFallback left (Qmax width 1) fallbackTop
                               fallbackRowHeight
  end.

Definition widthOf (s : Style) : Q :=
  match s with
  | Pixels _ _ w _ | PercentInRow _ w _ _ | PercentFallback _ w _ _ => w
  end.

End GhostPlacement.

(** ** Vocabulary of the ghost-drag statements *)

(** A ghost state is either fully cleared, or dragging with a file and a
    candidate whose time frame is as long as its duration. *)
Definition ghostConsistent (g : GhostState.t) : Prop :=
  g = idleGhostState
  \/ (GhostState.isFileDragging g = true
      /\ exists file ghost,
           GhostState.fileData g = Some file
           /\ GhostState.fileGhostElement g = Some ghost
           /\ TimeFrame.end_ (GhostElement.timeFrame ghost)
              - TimeFrame.start (GhostElement.timeFrame ghost)
              == GhostElement.duration ghost).

(** The callback of a gesture, if it has one, never changes the ghost
    state. *)
Definition callbackKeepsGhost (op : GhostOp) : Prop :=
  match op with
  | FinishDrag _ _ (Some f) =>
      forall p r s, Store.ghostState (storeOf (f p r s)) = Store.ghostState s
  | _ => True
  end.

Definition isUpdatePosition (op : GhostOp) : Prop :=
  match op with UpdatePosition _ _ _ => True | _ => False end.

(** [n] animation frames in a row, the handle being mounted. *)
Fixpoint runFrames (n : nat) (a : Scrollbar.Anim) : Scrollbar.Anim :=
  match n with
  | O => a
  | S k => runFrames k (Scrollbar.nextFrame true a)
  end.

(** ** Further sample inputs *)

Module SampleMore.

(** A still image and a video that carries no [sourceDuration]. *)
Definition imageElement : Element.t :=
  Element.mk "i1" "image" (TimeFrame.mk 1000 6000) 4
    (Some (Properties.mk (Some 0) (Some 5000) None
                         [("src"%string, "photo.png"%string)])).

Definition bareVideoProperties : Properties.t :=
  Properties.mk (Some 2000) None None [("src"%string, "raw.mp4"%string)].

Definition bareVideo : Element.t :=
  Element.mk "v2" "video" (TimeFrame.mk 0 8000) 5 (Some bareVideoProperties).

Definition store : Store.t :=
  Store.mk [imageElement; bareVideo] None 8000 idleGhostState.

Definition moves : list GhostOp :=
  [UpdatePosition 1200 1 false; UpdatePosition 1500 0 true].

(** A scrollbar 600 px wide whose handle, 150 px wide, was grabbed at 40. *)
Definition scrollbarState : Scrollbar.State :=
  Scrollbar.mkState true None 200 40 40 150.

Definition scrollbarGeometry : Scrollbar.Geometry :=
  Scrollbar.mkGeometry 600 150 2400 600.

Definition animation : Scrollbar.Anim := Scrollbar.mkAnim 100 0 true.

(** The editor's initial item, grabbed. *)
Definition mediaItem : Canvas.Item :=
  Canvas.mkItem "media-1" 100 100 200 300 "image" "card5.png".

Definition canvasState : Canvas.State :=
  Canvas.mkState [mediaItem] None false (0, 0).

Definition draggedOutState : Canvas.State :=
  Canvas.handleMouseMove 900 (-50)
    (Canvas.handleItemSelect 150 150 "media-1" canvasState).

(** A video element of 12 s on a browser that reports nothing about
    audio. *)
Definition silentProbe : Metadata.Video :=
  Metadata.mkVideo (Some 12) None None None 4 1920 1080
                   (Some (fun mime =>
                            if String.prefix "video/webm" mime
                            then "probably"%string else ""%string)).

(** An element that never learnt its duration. *)
Definition unknownDuration : Metadata.Video :=
  Metadata.mkVideo None None None None 1 0 0 None.

Definition song : Drop.DroppedFile := Drop.mkFile "song.mp3" "audio/mpeg".
Definition notes : Drop.DroppedFile := Drop.mkFile "notes.pdf" "application/pdf".

(** Loaders for the drop: the audio loader adds nothing and returns, the
    image loader throws, the video loader returns. *)
Definition objectUrl (f : Drop.DroppedFile) : string :=
  ("blob:" ++ Drop.name f)%string.
Definition audioLoader (a : Drop.AudioArgs) (s : Store.t) : Completion :=
  Returns s.
Definition imageLoader (a : Drop.ImageArgs) (s : Store.t) : Completion :=
  Throws s.
Definition videoLoader (a : Drop.VideoArgs) (s : Store.t) : Completion :=
  Returns s.

Definition drop :=
  Drop.handleFileDropToTimeline objectUrl audioLoader imageLoader videoLoader
                                (Some 3) "1700000000000-abc123xyz".

End SampleMore.

(** ** The cut engine on IEEE doubles

    The definitions above are exact: they agree with the code wherever no
    rounding and no [NaN] enters a comparison.  Whether a word lands in a
    clip, and whether a cut is refused, are decided by comparisons between
    doubles; this module embeds the same lines of [cutTimeline.js] with
    JavaScript's own numbers (binary64, with its rounding, [NaN] and the
    infinities) so that those outcomes can be evaluated as the code
    computes them. *)

Module Double.
Import PrimFloat.
Local Open Scope float_scope.

(** What a numeric key or argument holds: a number, [null], or nothing
    ([undefined], also a missing key or an omitted argument). *)
Inductive JsNum : Type :=
| Num (f : float)
| Null
| Undefined.

(** [ToNumber], as the arithmetic and relational operators apply it. *)
Definition toNumber (v : JsNum) : float :=
  match v with
  | Num f => f
  | Null => 0
  | Undefined => nan
  end.

(** Truthiness: [0], [-0], [NaN], [null] and [undefined] are falsy. *)
Definition truthy (v : JsNum) : bool :=
  match v with
  | Num f => negb (is_zero f || is_nan f)
  | Null | Undefined => false
  end.

(** [v || d]. *)
Definition orElse (v d : JsNum) : JsNum := if truthy v then v else d.

(** [JSON.parse(JSON.stringify(v))] on a numeric key: [NaN] and the
    infinities come back as [null], [-0] as [0], a missing key stays
    missing. *)
Definition jsonNumber (v : JsNum) : JsNum :=
  match v with
  | Num f =>
      if is_nan f || is_infinity f then Null
      else if is_zero f then Num 0
      else Num f
  | Null => Null
  | Undefined => Undefined
  end.

Module TimeFrame.
Record t : Type := mk { start : JsNum; end_ : JsNum }.
End TimeFrame.

Module Word.
Record t : Type := mk { text : string; start : JsNum; end_ : JsNum }.
End Word.

Module Properties.
Record t : Type := mk {
  sourceStartTime : JsNum;
  sourceDuration : JsNum;
  words : option (list Word.t);
  rest : list (string * string)
}.

Definition empty : t := mk Undefined Undefined None [].

Definition spread (p : option t) : t :=
  match p with Some q => q | None => empty end.
End Properties.

Module Element.
Record t : Type := mk {
  id : string;
  type : string;
  timeFrame : TimeFrame.t;
  row : Z;
  properties : option Properties.t
}.
End Element.

Module Store.
Record t : Type := mk {
  editorElements : list Element.t;
  selectedElement : option string
}.

(** Modelled from the spec: the store method [setSelectedElement] is not in
    the sources at hand; the cut "clears any active selection". *)
Definition setSelectedElement (sel : option string) (s : t) : t :=
  mk (editorElements s) sel.

(** Modelled from the spec: the store method [refreshElements] is not in the
    sources at hand; it recalculates store-wide derived values, which this
    record does not carry, and leaves the elements alone. *)
Definition refreshElements (s : t) : t := s.
End Store.

(** [JSON.parse(JSON.stringify(element))]. *)
Definition cloneWord (w : Word.t) : Word.t :=
  Word.mk (Word.text w) (jsonNumber (Word.start w)) (jsonNumber (Word.end_ w)).

Definition cloneProperties (p : Properties.t) : Properties.t :=
  Properties.mk (jsonNumber (Properties.sourceStartTime p))
                (jsonNumber (Properties.sourceDuration p))
                (option_map (map cloneWord) (Properties.words p))
                (Properties.rest p).

Definition jsonClone (e : Element.t) : Element.t :=
  Element.mk (Element.id e) (Element.type e)
             (TimeFrame.mk (jsonNumber (TimeFrame.start (Element.timeFrame e)))
                           (jsonNumber (TimeFrame.end_ (Element.timeFrame e))))
             (Element.row e)
             (option_map cloneProperties (Element.properties e)).

Definition with_properties (p : Properties.t) (e : Element.t) : Element.t :=
  Element.mk (Element.id e) (Element.type e) (Element.timeFrame e)
             (Element.row e) (Some p).

(** Lines 136-174. *)
Definition adjustMediaElementForCut
  (firstClip secondClip originalElement : Element.t)
  (cutPosition elementDuration : float) : Element.t * Element.t :=
  if isImage (Element.type originalElement) then (firstClip, secondClip)
  else
    match Element.properties originalElement with
    | Some op =>
        let originalSourceTime :=
          orElse (Properties.sourceStartTime op) (Num 0) in
        let sourceDuration :=
          orElse (Properties.sourceDuration op) (Num elementDuration) in
        let sourceTimeAtCut :=
          toNumber originalSourceTime
          + (cutPosition / elementDuration) * toNumber sourceDuration in
        let fp := Properties.spread (Element.properties firstClip) in
        let sp := Properties.spread (Element.properties secondClip) in
        (with_properties
           (Properties.mk originalSourceTime
                          (Num (sourceTimeAtCut - toNumber originalSourceTime))
                          (Properties.words fp) (Properties.rest fp))
           firstClip,
         with_properties
           (Properties.mk (Num sourceTimeAtCut)
                          (Num (toNumber sourceDuration
                                - (sourceTimeAtCut
                                   - toNumber originalSourceTime)))
                          (Properties.words sp) (Properties.rest sp))
           secondClip)
    | None => (firstClip, secondClip)
    end.

(** Lines 180-201. *)
Definition adjustAudioElementForCut
  (firstClip secondClip originalElement : Element.t)
  (cutPosition elementDuration : float) : Element.t * Element.t :=
  match Element.properties originalElement with
  | Some op =>
      let originalSourceTime :=
        orElse (Properties.sourceStartTime op) (Num 0) in
      let fp := Properties.spread (Element.properties firstClip) in
      let sp := Properties.spread (Element.properties secondClip) in
      (with_properties
         (Properties.mk originalSourceTime (Properties.sourceDuration fp)
                        (Properties.words fp) (Properties.rest fp))
         firstClip,
       with_properties
         (Properties.mk (Num (toNumber originalSourceTime + cutPosition))
                        (Properties.sourceDuration sp)
                        (Properties.words sp) (Properties.rest sp))
         secondClip)
  | None => (firstClip, secondClip)
  end.

(** The [map] callback of lines 230-234. *)
Definition shiftWord (cutPosition : float) (word : Word.t) : Word.t :=
  Word.mk (Word.text word)
          (Num (toNumber (Word.start word) - cutPosition))
          (Num (toNumber (Word.end_ word) - cutPosition)).

(** Lines 207-247.  The filters run over the original's words, not over the
    clone's. *)
Definition adjustTextElementForCut
  (firstClip secondClip originalElement : Element.t)
  (cutPosition elementDuration : float) : Element.t * Element.t :=
  match Element.properties originalElement with
  | Some op =>
      match Properties.words op with
      | Some words =>
          let elementStart :=
            TimeFrame.start (Element.timeFrame originalElement) in
          let cutTimeAbsolute := toNumber elementStart + cutPosition in
          let firstWords :=
            filter (fun word => toNumber (Word.end_ word) <=? cutTimeAbsolute)
                   words in
          let secondWords :=
            map (shiftWord cutPosition)
                (filter (fun word =>
                           cutTimeAbsolute <=? toNumber (Word.start word))
                        words) in
          let fp := Properties.spread (Element.properties firstClip) in
          let sp := Properties.spread (Element.properties secondClip) in
          (with_properties
             (Properties.mk (Properties.sourceStartTime fp)
                            (Properties.sourceDuration fp)
                            (Some (if Nat.ltb 0 (List.length firstWords)
                                   then firstWords else []))
                            (Properties.rest fp))
             firstClip,
           with_properties
             (Properties.mk (Properties.sourceStartTime sp)
                            (Properties.sourceDuration sp)
                            (Some (if Nat.ltb 0 (List.length secondWords)
                                   then secondWords else []))
                            (Properties.rest sp))
             secondClip)
      | None => (firstClip, secondClip)
      end
  | None => (firstClip, secondClip)
  end.

(** Lines 81-130. *)
Definition adjustElementPropertiesForCut
  (firstClip secondClip originalElement : Element.t)
  (cutTime : JsNum) (elementType : string) : Element.t * Element.t :=
  let elementDuration :=
    toNumber (TimeFrame.end_ (Element.timeFrame originalElement))
    - toNumber (TimeFrame.start (Element.timeFrame originalElement)) in
  let cutPosition :=
    toNumber cutTime
    - toNumber (TimeFrame.start (Element.timeFrame originalElement)) in
  if String.eqb elementType "video" || String.eqb elementType "imageUrl"
     || String.eqb elementType "image"
  then adjustMediaElementForCut firstClip secondClip originalElement
                                cutPosition elementDuration
  else if String.eqb elementType "audio"
  then adjustAudioElementForCut firstClip secondClip originalElement
                                cutPosition elementDuration
  else if String.eqb elementType "text"
  then adjustTextElementForCut firstClip secondClip originalElement
                               cutPosition elementDuration
  else (firstClip, secondClip).

Definition hasId (elementId : string) (el : Element.t) : bool :=
  String.eqb (Element.id el) elementId.

(** The guard of line 21: [cutTime <= start || cutTime >= end]. *)
Definition outsideTimeFrame (timeFrame : TimeFrame.t) (cutTime : JsNum)
  : bool :=
  (toNumber cutTime <=? toNumber (TimeFrame.start timeFrame))
  || (toNumber (TimeFrame.end_ timeFrame) <=? toNumber cutTime).

(** The two object literals of lines 29-46, before the adjustment. *)
Definition firstClipLiteral (element : Element.t) (cutTime : JsNum)
  : Element.t :=
  let clone := jsonClone element in
  Element.mk (Element.id element) (Element.type clone)
             (TimeFrame.mk (TimeFrame.start (Element.timeFrame element))
                           cutTime)
             (Element.row clone) (Element.properties clone).

Definition secondClipLiteral (element : Element.t) (cutTime : JsNum)
  (uuid : string) : Element.t :=
  let clone := jsonClone element in
  Element.mk uuid (Element.type clone)
             (TimeFrame.mk cutTime
                           (TimeFrame.end_ (Element.timeFrame element)))
             (Element.row clone) (Element.properties clone).

(** Lines 10-75, as above: [uuid] is what [uuidv4()] returns in this call,
    and the result pairs the way the function returned with the store it
    leaves.  [cutTime] is [Undefined] when the argument is omitted. *)
Definition cutTimelineElement
  (store : Store.t) (elementId : string) (cutTime : JsNum) (uuid : string)
  : CutOutcome * Store.t :=
  match find (hasId elementId) (Store.editorElements store) with
  | None => (ElementNotFound, store)
  | Some element =>
      let timeFrame := Element.timeFrame element in
      let type := Element.type element in
      if outsideTimeFrame timeFrame cutTime
      then (CutTimeOutOfRange, store)
      else
        let '(firstClip, secondClip) :=
          adjustElementPropertiesForCut
            (firstClipLiteral element cutTime)
            (secondClipLiteral element cutTime uuid)
            element cutTime type in
        let updatedElements :=
          filter (fun el => negb (hasId elementId el))
                 (Store.editorElements store) in
        let elementIndex :=
          findIndex (hasId elementId) (Store.editorElements store) in
        let updatedElements :=
          match elementIndex with
          | Some i => splice_insert i [firstClip; secondClip] updatedElements
          | None => updatedElements (* not reached: [find] succeeded *)
          end in
        (CutApplied,
         Store.refreshElements
           (Store.setSelectedElement None
              (Store.mk updatedElements (Store.selectedElement store))))
  end.

(** *** Vocabulary of the statements on doubles *)

(** [start < cutTime && cutTime < end], as JavaScript evaluates it. *)
Definition strictlyInside (element : Element.t) (cutTime : JsNum) : bool :=
  (toNumber (TimeFrame.start (Element.timeFrame element)) <? toNumber cutTime)
  && (toNumber cutTime <? toNumber (TimeFrame.end_ (Element.timeFrame element))).

(** The cut time as the text strategy recomputes it (line 221) from the cut
    position of line 90. *)
Definition recomputedCutTime (element : Element.t) (cutTime : JsNum)
  : float :=
  let elementStart := toNumber (TimeFrame.start (Element.timeFrame element)) in
  elementStart + (toNumber cutTime - elementStart).

Definition cutPositionOf (element : Element.t) (cutTime : JsNum) : float :=
  toNumber cutTime - toNumber (TimeFrame.start (Element.timeFrame element)).

Definition getWords (e : Element.t) : option (list Word.t) :=
  match Element.properties e with
  | Some p => Properties.words p
  | None => None
  end.

(** The two clips a cut leaves in the store: the elements at the index the
    original had and at the next one. *)
Definition producedClips (before after : Store.t) (elementId : string)
  : option (Element.t * Element.t) :=
  match findIndex (hasId elementId) (Store.editorElements before) with
  | Some i =>
      match nth_error (Store.editorElements after) i,
            nth_error (Store.editorElements after) (S i) with
      | Some firstClip, Some secondClip => Some (firstClip, secondClip)
      | _, _ => None
      end
  | None => None
  end.

(** The pair of clips the body of [cutTimelineElement] builds from
    [element]. *)
Definition cutClips (element : Element.t) (cutTime : JsNum) (uuid : string)
  : Element.t * Element.t :=
  adjustElementPropertiesForCut
    (firstClipLiteral element cutTime) (secondClipLiteral element cutTime uuid)
    element cutTime (Element.type element).

(** The tests of the two filters against a time [c]. *)
Definition endsBy (c : float) (w : Word.t) : bool :=
  toNumber (Word.end_ w) <=? c.

Definition startsFrom (c : float) (w : Word.t) : bool :=
  c <=? toNumber (Word.start w).

(** *** Sample inputs *)

Set Warnings "-inexact-float".

(** A subtitle from 1000.3 to 5000 with one word that starts at 3345.9. *)
Definition lateWord : Word.t := Word.mk "late" (Num 3345.9) (Num 4000).

Definition fractionalElement : Element.t :=
  Element.mk "t3" "text" (TimeFrame.mk (Num 1000.3) (Num 5000)) 0
             (Some (Properties.mk Undefined Undefined (Some [lateWord]) [])).

(** The subtitle of the spec's worked example. *)
Definition subtitleWords : list Word.t :=
  [Word.mk "one" (Num 0) (Num 1000);
   Word.mk "two" (Num 1000) (Num 2000);
   Word.mk "three" (Num 2500) (Num 3500)].

Definition textElement : Element.t :=
  Element.mk "t1" "text" (TimeFrame.mk (Num 0) (Num 4000)) 2
             (Some (Properties.mk Undefined Undefined (Some subtitleWords)
                                  [])).

(** A subtitle with a word of zero length at 2000 and one around it. *)
Definition mixedWords : list Word.t :=
  [Word.mk "beat" (Num 2000) (Num 2000);
   Word.mk "long" (Num 1500) (Num 2500);
   Word.mk "early" (Num 0.5) (Num 1200.25)].

Definition mixedElement : Element.t :=
  Element.mk "t2" "text" (TimeFrame.mk (Num 0.5) (Num 4000)) 3
             (Some (Properties.mk Undefined Undefined (Some mixedWords) [])).

Definition videoElement : Element.t :=
  Element.mk "v1" "video" (TimeFrame.mk (Num 0) (Num 10000)) 0
             (Some (Properties.mk (Num 0) (Num 10000) None
                                  [("src"%string, "clip.mp4"%string)])).

Definition sampleStore : Store.t :=
  Store.mk [videoElement; textElement; mixedElement; fractionalElement] None.

End Double.

(** * Properties *)

(** ** Lists: [find], [findIndex], removal and [splice] *)

Section ListFacts.
Context {A : Type} (p : A -> bool).

Lemma findIndex_of_find (l : list A) (x : A) :
  find p l = Some x ->
  exists i, findIndex p l = Some i /\ nth_error l i = Some x /\ p x = true
            /\ List.length (firstn i l) = i
            /\ forallb (fun y => negb (p y)) (firstn i l) = true.
Proof.
  induction l as [|y l IH]; simpl; [discriminate|].
  destruct (p y) eqn:Hy.
  - intros [= ->]. exists O. simpl. auto.
  - intros H. destruct (IH H) as (i & Hi & Hn & Hp & Hl & Hf).
    exists (S i). rewrite Hi. simpl. rewrite Hy, Hl. simpl. auto.
Qed.

Lemma filter_all (q : A -> bool) (l : list A) :
  forallb q l = true -> filter q l = l.
Proof.
  induction l as [|y l IH]; simpl; [reflexivity|].
  destruct (q y); simpl; [|discriminate].
  intros H. now rewrite IH.
Qed.

Lemma removal_then_splice (l : list A) (x : A) (i : nat) (new : list A) :
  find p l = Some x -> findIndex p l = Some i ->
  splice_insert i new (filter (fun y => negb (p y)) l)
  = firstn i l ++ new ++ filter (fun y => negb (p y)) (skipn (S i) l).
Proof.
  intros Hfind Hidx.
  destruct (findIndex_of_find l x Hfind) as (j & Hj & Hn & Hp & Hl & Hf).
  rewrite Hidx in Hj. injection Hj as <-.
  assert (Hsplit : l = firstn i l ++ x :: skipn (S i) l).
  { rewrite <- (firstn_skipn i l) at 1. f_equal.
    clear - Hn. revert l Hn.
    induction i as [|i IH]; intros [|y l]; simpl; try discriminate.
    - now intros [= ->].
    - apply IH. }
  assert (Hfilter : filter (fun y => negb (p y)) l
                    = firstn i l ++ filter (fun y => negb (p y))
                                           (skipn (S i) l)).
  { rewrite Hsplit at 1. rewrite filter_app, (filter_all _ _ Hf).
    simpl. now rewrite Hp. }
  unfold splice_insert. rewrite Hfilter.
  rewrite firstn_app, skipn_app, Hl, Nat.sub_diag. simpl.
  rewrite firstn_all2 by (rewrite Hl; apply Nat.le_refl).
  rewrite skipn_all2 by (rewrite Hl; apply Nat.le_refl).
  now rewrite app_nil_r.
Qed.

Lemma nth_error_after_prefix (pre suf : list A) (a b : A) :
  nth_error (pre ++ [a; b] ++ suf) (List.length pre) = Some a
  /\ nth_error (pre ++ [a; b] ++ suf) (S (List.length pre)) = Some b.
Proof.
  split.
  - rewrite nth_error_app2 by apply Nat.le_refl.
    now rewrite Nat.sub_diag.
  - rewrite nth_error_app2 by (apply Nat.le_succ_diag_r).
    now rewrite Nat.sub_succ_l, Nat.sub_diag by apply Nat.le_refl.
Qed.

End ListFacts.

(** ** The guard of the cut *)

Lemma guard_false_iff (element : Element.t) (cutTime : Q) :
  Qle_bool cutTime (TimeFrame.start (Element.timeFrame element))
  || Qle_bool (TimeFrame.end_ (Element.timeFrame element)) cutTime = false
  <-> strictlyInside element cutTime.
Proof.
  unfold strictlyInside. rewrite orb_false_iff. split.
  - intros [H1 H2]. split; apply Qnot_le_lt; intros H;
      apply Qle_bool_iff in H; congruence.
  - intros [H1 H2]. split; apply not_true_is_false; intros H;
      apply Qle_bool_iff in H; lra.
Qed.

(** The store a successful cut leaves, and the clips in it. *)
Lemma cut_applied (store : Store.t) (elementId : string) (cutTime : Q)
  (uuid : string) (element : Element.t) :
  find (hasId elementId) (Store.editorElements store) = Some element ->
  strictlyInside element cutTime ->
  exists store',
    cutTimelineElement store elementId cutTime uuid = (CutApplied, store')
    /\ producedClips store store' elementId
       = Some (cutClips element cutTime uuid)
    /\ Store.ghostState store' = Store.ghostState store.
Proof.
  intros Hfind Hin.
  destruct (findIndex_of_find _ _ _ Hfind) as (i & Hi & Hn & Hp & Hl & Hf).
  unfold cutTimelineElement. rewrite Hfind.
  apply guard_false_iff in Hin. rewrite Hin.
  fold (firstClipLiteral element cutTime).
  fold (secondClipLiteral element cutTime uuid).
  fold (cutClips element cutTime uuid).
  destruct (cutClips element cutTime uuid) as [f g] eqn:Hclips.
  rewrite Hi. eexists. split; [reflexivity|]. split; [|reflexivity].
  unfold producedClips. rewrite Hi.
  unfold Store.refreshElements, Store.setSelectedElement,
    Store.set_editorElements.
  cbn [Store.editorElements].
  rewrite (removal_then_splice _ _ _ _ _ Hfind Hi).
  pose proof (nth_error_after_prefix
                (firstn i (Store.editorElements store))
                (filter (fun y => negb (hasId elementId y))
                        (skipn (S i) (Store.editorElements store)))
                f g) as [Ha Hb].
  rewrite Hl in Ha, Hb. now rewrite Ha, Hb.
Qed.

(** ** Time frames of the two clips *)

Ltac by_cases_of_adjust :=
  unfold cutClips, adjustElementPropertiesForCut, adjustMediaElementForCut,
    adjustAudioElementForCut, adjustTextElementForCut;
  repeat match goal with
         | |- context [if ?b then _ else _] => destruct b
         | |- context [match Element.properties ?e with _ => _ end] =>
             destruct (Element.properties e)
         | |- context [match Properties.words ?p with _ => _ end] =>
             destruct (Properties.words p)
         end.

(** No adjustment strategy touches [id], [type], [timeFrame] or [row]. *)
Lemma cutClips_frame (element : Element.t) (cutTime : Q) (uuid : string) :
  let '(firstClip, secondClip) := cutClips element cutTime uuid in
  Element.id firstClip = Element.id element
  /\ Element.id secondClip = uuid
  /\ Element.timeFrame firstClip
     = TimeFrame.mk (TimeFrame.start (Element.timeFrame element)) cutTime
  /\ Element.timeFrame secondClip
     = TimeFrame.mk cutTime (TimeFrame.end_ (Element.timeFrame element)).
Proof.
  by_cases_of_adjust; cbn; auto.
Qed.

(** C1.  For every store, every element found in it under its id and every
    cut time strictly inside that element's time frame, the cut succeeds and
    leaves two clips (at the original's index and the next) whose time frames
    are [{start: original.start, end: cutTime}] and
    [{start: cutTime, end: original.end}]; the first ends and the second
    starts at [cutTime], and the two half-open ranges cover the original range
    exactly, with no gap and no overlap. *)
Theorem cut_timeFrames_partition
  (store : Store.t) (elementId : string) (cutTime : Q) (uuid : string)
  (element : Element.t) :
  find (hasId elementId) (Store.editorElements store) = Some element ->
  strictlyInside element cutTime ->
  exists store' firstClip secondClip,
    cutTimelineElement store elementId cutTime uuid = (CutApplied, store')
    /\ producedClips store store' elementId = Some (firstClip, secondClip)
    /\ Element.timeFrame firstClip
       = TimeFrame.mk (TimeFrame.start (Element.timeFrame element)) cutTime
    /\ Element.timeFrame secondClip
       = TimeFrame.mk cutTime (TimeFrame.end_ (Element.timeFrame element))
    /\ TimeFrame.end_ (Element.timeFrame firstClip) = cutTime
    /\ TimeFrame.start (Element.timeFrame secondClip) = cutTime
    /\ (forall t, inTimeFrame (Element.timeFrame element) t
                  <-> inTimeFrame (Element.timeFrame firstClip) t
                      \/ inTimeFrame (Element.timeFrame secondClip) t)
    /\ (forall t, ~ (inTimeFrame (Element.timeFrame firstClip) t
                     /\ inTimeFrame (Element.timeFrame secondClip) t)).
Proof.
  intros Hfind Hin.
  destruct (cut_applied store elementId cutTime uuid element Hfind Hin)
    as (store' & Hcut & Hclips & _).
  pose proof (cutClips_frame element cutTime uuid) as Hframe.
  destruct (cutClips element cutTime uuid) as [f g].
  destruct Hframe as (_ & _ & Hf & Hg).
  exists store', f, g. rewrite Hf, Hg.
  unfold inTimeFrame, strictlyInside in *. cbn.
  do 6 (split; [auto|]). split.
  - intros t. split.
    + intros [H1 H2].
      destruct (Qlt_le_dec t cutTime); [left|right]; split; lra.
    + intros [[H1 H2]|[H1 H2]]; split; lra.
  - intros t [[H1 H2] [H3 H4]]. lra.
Qed.

(** ** Source offsets of video and audio clips *)

Lemma or_default_nonzero (v d : Q) : ~ v == 0 -> or_default (Some v) d = v.
Proof.
  intros H. unfold or_default.
  destruct (Qeq_bool v 0) eqn:E; [|reflexivity].
  apply Qeq_bool_iff in E. contradiction.
Qed.

Lemma or_default_zero (v : Q) : or_default (Some v) 0 == v.
Proof.
  unfold or_default. destruct (Qeq_bool v 0) eqn:E; [|reflexivity].
  apply Qeq_bool_iff in E. now rewrite E.
Qed.

Lemma cutClips_video (element : Element.t) (cutTime : Q) (uuid : string)
  (p : Properties.t) :
  Element.type element = "video"%string ->
  Element.properties element = Some p ->
  let elementDuration :=
    TimeFrame.end_ (Element.timeFrame element)
    - TimeFrame.start (Element.timeFrame element) in
  let cutPosition := cutTime - TimeFrame.start (Element.timeFrame element) in
  let originalSourceTime := or_default (Properties.sourceStartTime p) 0 in
  let sourceDuration :=
    or_default (Properties.sourceDuration p) elementDuration in
  let sourceTimeAtCut :=
    originalSourceTime + (cutPosition / elementDuration) * sourceDuration in
  cutClips element cutTime uuid
  = (with_properties
       (Properties.mk (Some originalSourceTime)
                      (Some (sourceTimeAtCut - originalSourceTime))
                      (Properties.words p) (Properties.rest p))
       (firstClipLiteral element cutTime),
     with_properties
       (Properties.mk (Some sourceTimeAtCut)
                      (Some (sourceDuration
                             - (sourceTimeAtCut - originalSourceTime)))
                      (Properties.words p) (Properties.rest p))
       (secondClipLiteral element cutTime uuid)).
Proof.
  intros Hty Hp. unfold cutClips, adjustElementPropertiesForCut.
  rewrite Hty. cbn [String.eqb Ascii.eqb Bool.eqb orb].
  unfold adjustMediaElementForCut, isImage.
  rewrite Hty, Hp. cbn [String.eqb Ascii.eqb Bool.eqb orb].
  unfold firstClipLiteral, secondClipLiteral. cbn [Element.properties].
  rewrite Hp. reflexivity.
Qed.

Lemma cutClips_audio (element : Element.t) (cutTime : Q) (uuid : string)
  (p : Properties.t) :
  Element.type element = "audio"%string ->
  Element.properties element = Some p ->
  let cutPosition := cutTime - TimeFrame.start (Element.timeFrame element) in
  let originalSourceTime := or_default (Properties.sourceStartTime p) 0 in
  cutClips element cutTime uuid
  = (with_properties
       (Properties.mk (Some originalSourceTime)
                      (Properties.sourceDuration p)
                      (Properties.words p) (Properties.rest p))
       (firstClipLiteral element cutTime),
     with_properties
       (Properties.mk (Some (originalSourceTime + cutPosition))
                      (Properties.sourceDuration p)
                      (Properties.words p) (Properties.rest p))
       (secondClipLiteral element cutTime uuid)).
Proof.
  intros Hty Hp. unfold cutClips, adjustElementPropertiesForCut.
  rewrite Hty. cbn [String.eqb Ascii.eqb Bool.eqb orb].
  unfold adjustAudioElementForCut.
  rewrite Hp.
  unfold firstClipLiteral, secondClipLiteral. cbn [Element.properties].
  rewrite Hp. reflexivity.
Qed.

(** C3, amended.  For every video or audio element that has [properties] and
    every cut strictly inside its time frame, the first clip's source start
    is the original's [sourceStartTime] (0 when that is missing or zero).
    Video: with [sourceDuration] the original's when that is present and
    non-zero and the element's duration on the timeline otherwise, the first
    clip's source duration is the fraction
    [(cutTime - start) / (end - start)] of it, the two source durations add
    up to it, and the second clip's source start is the first's source start
    plus the first's source duration.  Audio: only the source start is
    adjusted; both clips keep the copied [sourceDuration], and the second
    clip's source start is the first's plus the cut position
    [cutTime - original.start].  The arithmetic here is exact; the code's
    doubles give these values up to the rounding of each operation. *)
Theorem cut_source_spans
  (store : Store.t) (elementId : string) (cutTime : Q) (uuid : string)
  (element : Element.t) (p : Properties.t) :
  find (hasId elementId) (Store.editorElements store) = Some element ->
  strictlyInside element cutTime ->
  Element.properties element = Some p ->
  Element.type element = "video"%string
  \/ Element.type element = "audio"%string ->
  let elementDuration :=
    TimeFrame.end_ (Element.timeFrame element)
    - TimeFrame.start (Element.timeFrame element) in
  let cutPosition := cutTime - TimeFrame.start (Element.timeFrame element) in
  exists store' firstClip secondClip s1 s2,
    cutTimelineElement store elementId cutTime uuid = (CutApplied, store')
    /\ producedClips store store' elementId = Some (firstClip, secondClip)
    /\ getSourceStartTime firstClip = Some s1
    /\ getSourceStartTime secondClip = Some s2
    /\ s1 = or_default (Properties.sourceStartTime p) 0
    /\ (Element.type element = "video"%string ->
        exists d1 d2,
          getSourceDuration firstClip = Some d1
          /\ getSourceDuration secondClip = Some d2
          /\ d1 == (cutPosition / elementDuration)
                   * or_default (Properties.sourceDuration p) elementDuration
          /\ d1 + d2
             == or_default (Properties.sourceDuration p) elementDuration
          /\ (forall sd, Properties.sourceDuration p = Some sd ->
                         ~ sd == 0 -> d1 + d2 == sd)
          /\ s2 == s1 + d1)
    /\ (Element.type element = "audio"%string ->
        getSourceDuration firstClip = Properties.sourceDuration p
        /\ getSourceDuration secondClip = Properties.sourceDuration p
        /\ s2 == s1 + cutPosition).
Proof.
  intros Hfind Hin Hp Hty elementDuration cutPosition.
  destruct (cut_applied store elementId cutTime uuid element Hfind Hin)
    as (store' & Hcut & Hclips & _).
  destruct Hty as [Hty | Hty].
  - rewrite (cutClips_video element cutTime uuid p Hty Hp) in Hclips.
    cbv zeta in Hclips.
    do 5 eexists. split; [exact Hcut|]. split; [exact Hclips|].
    split; [reflexivity|]. split; [reflexivity|]. split; [reflexivity|].
    split.
    + intros _. do 2 eexists.
      split; [reflexivity|]. split; [reflexivity|].
      split; [unfold cutPosition, elementDuration; ring|].
      split; [unfold elementDuration; ring|]. split.
      * intros sd Hsd Hnz. rewrite Hsd, (or_default_nonzero sd _ Hnz). ring.
      * ring.
    + rewrite Hty. discriminate.
  - rewrite (cutClips_audio element cutTime uuid p Hty Hp) in Hclips.
    cbv zeta in Hclips.
    do 5 eexists. split; [exact Hcut|]. split; [exact Hclips|].
    split; [reflexivity|]. split; [reflexivity|]. split; [reflexivity|].
    split.
    + rewrite Hty. discriminate.
    + intros _. split; [reflexivity|]. split; [reflexivity|]. reflexivity.
Qed.

(** C7.  For every video element carrying [sourceStartTime] and a non-zero
    [sourceDuration], and every cut strictly inside its time frame: with
    [cutPosition = cutTime - original.start] and [sourceTimeAtCut =
    original.sourceStartTime + (cutPosition / elementDuration) *
    original.sourceDuration], the first clip gets the original source start
    and the source duration [sourceTimeAtCut - original.sourceStartTime], the
    second clip starts at [sourceTimeAtCut] and gets the rest of the source
    duration. *)
Theorem cut_video_remap_linear
  (store : Store.t) (elementId : string) (cutTime : Q) (uuid : string)
  (element : Element.t) (p : Properties.t) (sourceStart sourceDur : Q) :
  find (hasId elementId) (Store.editorElements store) = Some element ->
  strictlyInside element cutTime ->
  Element.type element = "video"%string ->
  Element.properties element = Some p ->
  Properties.sourceStartTime p = Some sourceStart ->
  Properties.sourceDuration p = Some sourceDur ->
  ~ sourceDur == 0 ->
  let elementDuration :=
    TimeFrame.end_ (Element.timeFrame element)
    - TimeFrame.start (Element.timeFrame element) in
  let cutPosition := cutTime - TimeFrame.start (Element.timeFrame element) in
  let sourceTimeAtCut :=
    sourceStart + (cutPosition / elementDuration) * sourceDur in
  exists store' firstClip secondClip s1 d1 s2 d2,
    cutTimelineElement store elementId cutTime uuid = (CutApplied, store')
    /\ producedClips store store' elementId = Some (firstClip, secondClip)
    /\ getSourceStartTime firstClip = Some s1
    /\ getSourceDuration firstClip = Some d1
    /\ getSourceStartTime secondClip = Some s2
    /\ getSourceDuration secondClip = Some d2
    /\ s1 == sourceStart
    /\ d1 == sourceTimeAtCut - sourceStart
    /\ s2 == sourceTimeAtCut
    /\ d2 == sourceDur - (sourceTimeAtCut - sourceStart).
Proof.
  intros Hfind Hin Hty Hp Hs Hd Hnz.
  destruct (cut_applied store elementId cutTime uuid element Hfind Hin)
    as (store' & Hcut & Hclips & _).
  rewrite (cutClips_video element cutTime uuid p Hty Hp) in Hclips.
  rewrite Hs, Hd, (or_default_nonzero sourceDur _ Hnz) in Hclips.
  cbv zeta in *.
  do 7 eexists. split; [exact Hcut|]. split; [exact Hclips|].
  do 4 (split; [reflexivity|]).
  pose proof (or_default_zero sourceStart) as Hz.
  repeat split; rewrite Hz; ring.
Qed.

(** ** Words of text clips *)

Lemma nonempty_or_nil {A : Type} (l : list A) :
  (if Nat.ltb 0 (List.length l) then l else []) = l.
Proof. destruct l; reflexivity. Qed.

(** ** Ghost drag *)

Lemma start_keeps_elements store file ty d :
  Store.editorElements (startFileGhostDragUtil store file ty d)
  = Store.editorElements store.
Proof. reflexivity. Qed.

Lemma update_keeps_elements store pos r inc :
  Store.editorElements (updateFileGhostUtil store pos r inc)
  = Store.editorElements store.
Proof.
  unfold updateFileGhostUtil.
  destruct (GhostState.isFileDragging (Store.ghostState store));
    [destruct (GhostState.fileGhostElement (Store.ghostState store))|];
    reflexivity.
Qed.

(** The element list after [finishFileGhostDragUtil] is the one the callback
    left, or the one before when no callback ran. *)
Lemma finish_elements_from_callback store pos r cb :
  Store.editorElements (storeOf (finishFileGhostDragUtil store pos r cb))
  = match cb with
    | Some f =>
        if GhostState.isFileDragging (Store.ghostState store)
        then Store.editorElements (storeOf (f pos r store))
        else Store.editorElements store
    | None => Store.editorElements store
    end.
Proof.
  unfold finishFileGhostDragUtil.
  destruct (GhostState.isFileDragging (Store.ghostState store)), cb as [f|];
    cbn; try reflexivity.
  destruct (f pos r store); reflexivity.
Qed.

(** C5, amended.  For every ghost-drag state and every commit callback that
    returns normally when called (or no callback at all), [finishDrag]
    returns; from Dragging it leaves the idle state with every candidate
    field cleared (flag false, candidate element, file data, marker position
    and target row null, incompatibility false), applied to the store as the
    callback left it; from Idle it changes nothing.  When the callback
    throws, the exception leaves [finishDrag] before the reset and the store
    stays as the callback left it. *)
Theorem finishDrag_resets_unless_callback_throws
  (store : Store.t) (finalPosition : Q) (rowIndex : Z) (callback : Callback) :
  (GhostState.isFileDragging (Store.ghostState store) = true ->
   (forall f, callback = Some f ->
              exists s, f finalPosition rowIndex store = Returns s) ->
   exists s',
     finishFileGhostDragUtil store finalPosition rowIndex callback
     = Returns s'
     /\ Store.ghostState s' = idleGhostState
     /\ s' = resetGhostState
               (match callback with
                | Some f => storeOf (f finalPosition rowIndex store)
                | None => store
                end))
  /\ (GhostState.isFileDragging (Store.ghostState store) = false ->
      finishFileGhostDragUtil store finalPosition rowIndex callback
      = Returns store)
  /\ (forall f s,
        GhostState.isFileDragging (Store.ghostState store) = true ->
        callback = Some f ->
        (finishFileGhostDragUtil store finalPosition rowIndex callback
         = Throws s
         <-> f finalPosition rowIndex store = Throws s)).
Proof.
  unfold finishFileGhostDragUtil. split; [|split].
  - intros Hdrag Hret. rewrite Hdrag. cbn [negb].
    destruct callback as [f|].
    + destruct (Hret f eq_refl) as [s Hs]. rewrite Hs.
      eexists. repeat split.
    + eexists. repeat split.
  - intros Hidle. now rewrite Hidle.
  - intros f s Hdrag ->. rewrite Hdrag. cbn [negb]. split.
    + destruct (f finalPosition rowIndex store); [discriminate | auto].
    + intros ->. reflexivity.
Qed.

(** C6, amended.  For every ghost-drag state already in Dragging, a further
    [startDrag] is not guarded: the dragging flag stays true and the marker
    position, target row, incompatibility flag and the rest of the store are
    untouched, but the dragged file is replaced by the new file and the
    candidate element by a fresh one of the new type and duration, placed at
    [{start: 0, end: defaultDuration}]. *)
Theorem startDrag_while_dragging_restarts
  (store : Store.t) (file : File) (elementType : string)
  (defaultDuration : Q) :
  GhostState.isFileDragging (Store.ghostState store) = true ->
  let g := Store.ghostState store in
  let g' :=
    Store.ghostState
      (startFileGhostDragUtil store file elementType defaultDuration) in
  GhostState.isFileDragging g' = GhostState.isFileDragging g
  /\ GhostState.fileData g' = Some file
  /\ GhostState.fileGhostElement g'
     = Some (GhostElement.mk elementType defaultDuration
                             (TimeFrame.mk 0 defaultDuration) None)
  /\ GhostState.ghostMarkerPosition g' = GhostState.ghostMarkerPosition g
  /\ GhostState.dragOverRowIndex g' = GhostState.dragOverRowIndex g
  /\ GhostState.isIncompatibleRow g' = GhostState.isIncompatibleRow g
  /\ startFileGhostDragUtil store file elementType defaultDuration
     = Store.set_ghostState g' store.
Proof.
  intros Hdrag. cbn. rewrite Hdrag. repeat split.
Qed.

(** C9.  For every run of ghost-drag gestures from every store, and every
    gesture that follows the run: a [startDrag], an [updatePosition], a
    [finishDrag] without a callback and a [finishDrag] outside a drag leave
    exactly the element list they found; a [finishDrag] with a callback
    during a drag hands the callback the store as it found it and leaves
    exactly the element list the callback left, whether the callback
    returned or threw.  Hence a run in which no callback that is called
    changes the list does not change it. *)
Theorem ghost_ops_elements_only_from_callbacks
  (ops : list GhostOp) (op : GhostOp) (store : Store.t) :
  Store.editorElements (runGhostOps (ops ++ [op]) store)
  = match op with
    | FinishDrag finalPosition rowIndex (Some f) =>
        if GhostState.isFileDragging
             (Store.ghostState (runGhostOps ops store))
        then Store.editorElements
               (storeOf (f finalPosition rowIndex (runGhostOps ops store)))
        else Store.editorElements (runGhostOps ops store)
    | _ => Store.editorElements (runGhostOps ops store)
    end
  /\ ((forall pre finalPosition rowIndex f post,
         ops = pre ++ FinishDrag finalPosition rowIndex (Some f) :: post ->
         GhostState.isFileDragging (Store.ghostState (runGhostOps pre store))
         = true ->
         Store.editorElements
           (storeOf (f finalPosition rowIndex (runGhostOps pre store)))
         = Store.editorElements (runGhostOps pre store)) ->
      Store.editorElements (runGhostOps ops store)
      = Store.editorElements store).
Proof.
  assert (Hstep : forall s op,
             Store.editorElements (runGhostOp s op)
             = elementsAfterGesture s op).
  { intros s [file ty d | pos r inc | pos r cb];
      cbn [runGhostOp elementsAfterGesture].
    - apply start_keeps_elements.
    - apply update_keeps_elements.
    - apply finish_elements_from_callback. }
  split.
  - unfold runGhostOps. rewrite fold_left_app.
    cbn [fold_left]. rewrite Hstep. reflexivity.
  - clear op. revert store. unfold runGhostOps.
    induction ops as [|op ops IH]; intros store Hcalls; [reflexivity|].
    cbn [fold_left]. rewrite IH.
    + rewrite Hstep.
      destruct op as [file ty d | pos r inc | pos r [f|]];
        cbn [elementsAfterGesture]; try reflexivity.
      destruct (GhostState.isFileDragging (Store.ghostState store)) eqn:Hdrag;
        [|reflexivity].
      apply (Hcalls [] pos r f ops eq_refl Hdrag).
    + intros pre pos r f post Hops Hdrag.
      apply (Hcalls (op :: pre) pos r f post).
      * cbn [app]. now rewrite Hops.
      * exact Hdrag.
Qed.

(** ** Zoom *)

Lemma clampZoom_in_range (value : Q) :
  zoomInRange (TimelineManager.clampZoom value).
Proof.
  unfold zoomInRange, TimelineManager.clampZoom, TimelineManager.MIN_ZOOM,
    TimelineManager.MAX_ZOOM.
  split.
  - apply Q.le_max_l.
  - apply Q.max_lub; [lra | apply Q.le_min_l].
Qed.

Lemma resizeScale_in_range (initialHandleWidth delta scrollbarWidth : Q) :
  zoomInRange (resizeScale initialHandleWidth delta scrollbarWidth).
Proof.
  unfold zoomInRange, resizeScale. split.
  - apply Q.le_max_l.
  - apply Q.max_lub; [lra | apply Q.le_min_l].
Qed.

(** C10.  After [zoomIn], [zoomOut], [setZoomValue] and [resetZoom], from
    every prior state and for every step, value, notify flag and default
    level, the zoom value lies in [[1, 29.5]]; [setZoomValue(100)] leaves
    29.5 and [setZoomValue(-5)] leaves 1.  The same holds through the hook's
    operations, and the scale the scrollbar's resize hands over lies in the
    same interval. *)
Theorem zoom_value_bounded
  (m : TimelineManager.t) (step value defaultZoom : Q) (notify : bool)
  (h : ZoomHook.t) (anchor : option Q)
  (initialHandleWidth delta scrollbarWidth : Q) :
  zoomInRange (TimelineManager.zoomVal (TimelineManager.zoomIn step m))
  /\ zoomInRange (TimelineManager.zoomVal (TimelineManager.zoomOut step m))
  /\ zoomInRange
       (TimelineManager.zoomVal (TimelineManager.setZoomValue value notify m))
  /\ zoomInRange
       (TimelineManager.zoomVal (TimelineManager.resetZoom defaultZoom m))
  /\ TimelineManager.zoomVal (TimelineManager.setZoomValue 100 notify m)
     = 59 # 2
  /\ TimelineManager.zoomVal (TimelineManager.setZoomValue (-5) notify m) = 1
  /\ zoomInRange
       (TimelineManager.zoomVal
          (ZoomHook.timelineManager (ZoomHook.zoomIn step anchor h)))
  /\ zoomInRange
       (TimelineManager.zoomVal
          (ZoomHook.timelineManager (ZoomHook.zoomOut step anchor h)))
  /\ zoomInRange
       (TimelineManager.zoomVal
          (ZoomHook.timelineManager (ZoomHook.setZoom value anchor h)))
  /\ zoomInRange
       (TimelineManager.zoomVal
          (ZoomHook.timelineManager (ZoomHook.resetZoom defaultZoom h)))
  /\ zoomInRange (resizeScale initialHandleWidth delta scrollbarWidth).
Proof.
  assert (Hset : forall v n m',
             zoomInRange
               (TimelineManager.zoomVal (TimelineManager.setZoomValue v n m')))
    by (intros; apply clampZoom_in_range).
  do 4 (split; [apply Hset|]).
  do 2 (split; [reflexivity|]).
  do 4 (split; [apply Hset|]).
  apply resizeScale_in_range.
Qed.

(** ** The statements at the sample inputs *)

Lemma cut_timeFrames_partition_witness :
  exists store' firstClip secondClip,
    cutTimelineElement Sample.store "v1" 4000 "fresh" = (CutApplied, store')
    /\ producedClips Sample.store store' "v1" = Some (firstClip, secondClip)
    /\ Element.timeFrame firstClip = TimeFrame.mk 0 4000
    /\ Element.timeFrame secondClip = TimeFrame.mk 4000 10000.
Proof.
  destruct (cut_timeFrames_partition Sample.store "v1" 4000 "fresh"
              Sample.videoElement)
    as (store' & f & g & Hcut & Hclips & Hf & Hg & _).
  - reflexivity.
  - split; reflexivity.
  - exists store', f, g. auto.
Defined.

(** C3 as stated fails on audio: cutting the sample audio clip (source start
    0, source duration 10000, on the timeline from 0 to 10000) at 4000
    leaves both clips with source duration 10000, so the durations add up to
    20000, and the second clip's source start 4000 is not the first's source
    start plus its source duration. *)
Lemma cut_audio_keeps_sourceDuration :
  exists store' firstClip secondClip,
    cutTimelineElement Sample.store "a1" 4000 "fresh" = (CutApplied, store')
    /\ producedClips Sample.store store' "a1" = Some (firstClip, secondClip)
    /\ getSourceDuration Sample.audioElement = Some 10000
    /\ getSourceStartTime firstClip = Some 0
    /\ getSourceDuration firstClip = Some 10000
    /\ getSourceStartTime secondClip = Some (0 + (4000 - 0))
    /\ getSourceDuration secondClip = Some 10000
    /\ ~ 10000 + 10000 == 10000
    /\ ~ 0 + (4000 - 0) == 0 + 10000.
Proof.
  do 3 eexists. split; [reflexivity|]. split; [reflexivity|].
  do 5 (split; [reflexivity|]).
  split; intros H; vm_compute in H; discriminate.
Qed.

Lemma cut_source_spans_witness :
  exists store' firstClip secondClip s1 s2 d1 d2,
    cutTimelineElement Sample.store "v1" 4000 "fresh" = (CutApplied, store')
    /\ producedClips Sample.store store' "v1" = Some (firstClip, secondClip)
    /\ getSourceStartTime firstClip = Some s1
    /\ getSourceStartTime secondClip = Some s2
    /\ getSourceDuration firstClip = Some d1
    /\ getSourceDuration secondClip = Some d2
    /\ s1 = 0
    /\ d1 + d2 == 10000
    /\ s2 == s1 + d1.
Proof.
  destruct (cut_source_spans Sample.store "v1" 4000 "fresh"
              Sample.videoElement Sample.videoProperties)
    as (store' & f & g & s1 & s2 & Hcut & Hclips & Hs1 & Hs2 & Es1 & Hvideo
        & _).
  - reflexivity.
  - split; reflexivity.
  - reflexivity.
  - left. reflexivity.
  - destruct (Hvideo eq_refl)
      as (d1 & d2 & Hd1 & Hd2 & _ & _ & Hsum & Hnext).
    exists store', f, g, s1, s2, d1, d2.
    do 6 (split; [assumption|]). split; [exact Es1|]. split; [|assumption].
    apply Hsum; [reflexivity|]. intros H. vm_compute in H. discriminate.
Defined.

(** The worked example of C7: source start 0, source duration 10000, on the
    timeline from 0 to 10000, cut at 4000. *)
Lemma cut_video_remap_linear_witness :
  exists store' firstClip secondClip s1 d1 s2 d2,
    cutTimelineElement Sample.store "v1" 4000 "fresh" = (CutApplied, store')
    /\ producedClips Sample.store store' "v1" = Some (firstClip, secondClip)
    /\ getSourceStartTime firstClip = Some s1
    /\ getSourceDuration firstClip = Some d1
    /\ getSourceStartTime secondClip = Some s2
    /\ getSourceDuration secondClip = Some d2
    /\ s1 == 0 /\ d1 == 4000 /\ s2 == 4000 /\ d2 == 6000.
Proof.
  destruct (cut_video_remap_linear Sample.store "v1" 4000 "fresh"
              Sample.videoElement Sample.videoProperties
              0 10000)
    as (store' & f & g & s1 & d1 & s2 & d2 & Hcut & Hclips
        & Hs1 & Hd1 & Hs2 & Hd2 & E1 & E2 & E3 & E4).
  - reflexivity.
  - split; reflexivity.
  - reflexivity.
  - reflexivity.
  - reflexivity.
  - reflexivity.
  - intros H. vm_compute in H. discriminate.
  - exists store', f, g, s1, d1, s2, d2.
    do 6 (split; [assumption|]).
    cbn [Sample.videoElement Element.timeFrame TimeFrame.start TimeFrame.end_]
      in E2, E3, E4.
    repeat split.
    + exact E1.
    + rewrite E2. vm_compute. reflexivity.
    + rewrite E3. vm_compute. reflexivity.
    + rewrite E4. vm_compute. reflexivity.
Defined.

(** C8 as stated fails on a word of zero length that sits on the cut: it
    ends at or before the cut time and starts at or after it, so cutting the
    sample subtitle at 2000 puts the word in the first clip and its shifted
    copy in the second. *)
Lemma cut_instant_word_in_both_clips :
  exists store' firstClip secondClip,
    cutTimelineElement Sample.store "t2" 2000 "fresh" = (CutApplied, store')
    /\ producedClips Sample.store store' "t2" = Some (firstClip, secondClip)
    /\ getWords Sample.instantElement = Some [Sample.instantWord]
    /\ straddles 2000 Sample.instantWord = false
    /\ getWords firstClip = Some [Sample.instantWord]
    /\ getWords secondClip
       = Some [shiftWord (2000 - 0) Sample.instantWord].
Proof.
  do 3 eexists. split; [reflexivity|]. split; [reflexivity|].
  repeat split.
Qed.

Example cut_text_at_1500 :
  let store' := snd (cutTimelineElement Sample.store "t1" 1500 "fresh") in
  option_map (fun c => (getWords (fst c), getWords (snd c)))
             (producedClips Sample.store store' "t1")
  = Some (Some [Word.mk "one" 0 1000], Some [Word.mk "three" 1000 2000]).
Proof. reflexivity. Qed.

(** C5 as stated fails when the callback throws: from the sample dragging
    state the exception leaves [finishDrag] before the reset, and the ghost
    state is still dragging with its candidate in place. *)
Lemma finishDrag_throwing_callback_stays_dragging :
  GhostState.isFileDragging (Store.ghostState Sample.draggingStore) = true
  /\ finishFileGhostDragUtil Sample.draggingStore 1500 0
                             Sample.throwingCallback
     = Throws Sample.draggingStore
  /\ GhostState.isFileDragging
       (Store.ghostState
          (storeOf (finishFileGhostDragUtil Sample.draggingStore 1500 0
                                            Sample.throwingCallback)))
     = true
  /\ Store.ghostState
       (storeOf (finishFileGhostDragUtil Sample.draggingStore 1500 0
                                         Sample.throwingCallback))
     <> idleGhostState.
Proof.
  repeat split. cbn. discriminate.
Qed.

Lemma finishDrag_resets_unless_callback_throws_witness :
  exists s',
    finishFileGhostDragUtil Sample.draggingStore 1500 0 Sample.commitCallback
    = Returns s'
    /\ Store.ghostState s' = idleGhostState
    /\ List.length (Store.editorElements s') = 5%nat.
Proof.
  destruct (finishDrag_resets_unless_callback_throws
              Sample.draggingStore 1500 0 Sample.commitCallback)
    as (Hdrag & _ & _).
  destruct (Hdrag eq_refl) as (s' & Hfin & Hidle & Hs').
  - intros f [= <-]. eexists. reflexivity.
  - exists s'. split; [assumption|]. split; [assumption|].
    rewrite Hs'. reflexivity.
Defined.

(** C6 as stated fails: from the sample dragging state (file "clip.mp4", a
    video candidate of 5000 ms placed at 1200 on row 1) a second [startDrag]
    with "song.mp3" replaces both the dragged file and the candidate. *)
Lemma startDrag_while_dragging_overwrites :
  GhostState.isFileDragging (Store.ghostState Sample.draggingStore) = true
  /\ GhostState.fileData
       (Store.ghostState
          (startFileGhostDragUtil Sample.draggingStore "song.mp3"%string
                                  "audio" 3000))
     <> GhostState.fileData (Store.ghostState Sample.draggingStore)
  /\ GhostState.fileGhostElement
       (Store.ghostState
          (startFileGhostDragUtil Sample.draggingStore "song.mp3"%string
                                  "audio" 3000))
     <> GhostState.fileGhostElement (Store.ghostState Sample.draggingStore).
Proof.
  repeat split; cbn; discriminate.
Qed.

Lemma startDrag_while_dragging_restarts_witness :
  GhostState.fileData
    (Store.ghostState
       (startFileGhostDragUtil Sample.draggingStore "song.mp3"%string
                                  "audio" 3000))
  = Some "song.mp3"%string
  /\ GhostState.ghostMarkerPosition
       (Store.ghostState
          (startFileGhostDragUtil Sample.draggingStore "song.mp3"%string
                                  "audio" 3000))
     = Some 1200.
Proof.
  destruct (startDrag_while_dragging_restarts
              Sample.draggingStore "song.mp3"%string "audio" 3000 eq_refl)
    as (_ & Hfile & _ & Hmarker & _).
  split; [exact Hfile | exact Hmarker].
Defined.

(** The committed drop: the element the callback appends is in the list the
    [finishDrag] leaves, and the second [finishDrag], outside a drag, leaves
    that list as it is. *)
Lemma ghost_ops_elements_only_from_callbacks_witness :
  Store.editorElements
    (runGhostOps
       [StartDrag "clip.mp4"%string "video" 5000;
        UpdatePosition 1200 1 false;
        FinishDrag 1500 0 Sample.commitCallback]
       Sample.store)
  = Store.editorElements Sample.store
    ++ [Element.mk "dropped" "video" (TimeFrame.mk 1500 (1500 + 5000)) 0
                   None]
  /\ Store.editorElements (runGhostOps Sample.committedDrop Sample.store)
     = Store.editorElements Sample.store
       ++ [Element.mk "dropped" "video" (TimeFrame.mk 1500 (1500 + 5000)) 0
                      None]
  /\ Store.editorElements (runGhostOps Sample.gestures Sample.store)
     = Store.editorElements Sample.store.
Proof.
  split; [|split].
  - exact (proj1 (ghost_ops_elements_only_from_callbacks
                    [StartDrag "clip.mp4"%string "video" 5000;
                     UpdatePosition 1200 1 false]
                    (FinishDrag 1500 0 Sample.commitCallback)
                    Sample.store)).
  - exact (proj1 (ghost_ops_elements_only_from_callbacks
                    [StartDrag "clip.mp4"%string "video" 5000;
                     UpdatePosition 1200 1 false;
                     FinishDrag 1500 0 Sample.commitCallback]
                    (FinishDrag 1500 0 Sample.commitCallback)
                    Sample.store)).
  - apply (proj2 (ghost_ops_elements_only_from_callbacks
                    Sample.gestures (FinishDrag 0 1 None) Sample.store)).
    intros pre pos r f post Hops Hdrag.
    unfold Sample.gestures, Sample.selectCallback, Sample.throwingCallback
      in Hops.
    repeat (destruct pre as [|o pre]; cbn [app] in Hops;
            [ try discriminate Hops;
              injection Hops as <- <- <- <-;
              first [reflexivity | discriminate Hdrag]
            | injection Hops as <- Hops ]).
    destruct pre; discriminate Hops.
Defined.

(** What a committing callback does to the list comes through untouched. *)
Example finishDrag_commit_reaches_store :
  Store.editorElements
    (storeOf (finishFileGhostDragUtil Sample.draggingStore 1500 0
                                      Sample.commitCallback))
  = Store.editorElements Sample.store
    ++ [Element.mk "dropped" "video" (TimeFrame.mk 1500 (1500 + 5000)) 0
                   None].
Proof. reflexivity. Qed.

(** * Further properties of the cut engine *)

(** The element list a successful cut leaves: the part before the original
    untouched, the two clips, and the part after it without the elements
    that share the original's id. *)
Lemma cut_elements_shape (store : Store.t) (elementId : string) (cutTime : Q)
  (uuid : string) (element : Element.t) :
  find (hasId elementId) (Store.editorElements store) = Some element ->
  strictlyInside element cutTime ->
  exists i before after,
    findIndex (hasId elementId) (Store.editorElements store) = Some i
    /\ List.length before = i
    /\ Store.editorElements store = before ++ element :: after
    /\ forallb (fun el => negb (hasId elementId el)) before = true
    /\ hasId elementId element = true
    /\ Store.editorElements
         (snd (cutTimelineElement store elementId cutTime uuid))
       = before ++ [fst (cutClips element cutTime uuid);
                    snd (cutClips element cutTime uuid)]
         ++ filter (fun el => negb (hasId elementId el)) after.
Proof.
  intros Hfind Hin.
  destruct (findIndex_of_find _ _ _ Hfind) as (i & Hi & Hn & Hp & Hl & Hf).
  exists i, (firstn i (Store.editorElements store)),
    (skipn (S i) (Store.editorElements store)).
  split; [exact Hi|]. split; [exact Hl|]. split.
  { rewrite <- (firstn_skipn i (Store.editorElements store)) at 1. f_equal.
    clear - Hn. revert Hn. generalize (Store.editorElements store) as l.
    induction i as [|i IH]; intros [|y l]; simpl; try discriminate.
    - now intros [= ->].
    - apply IH. }
  split; [exact Hf|]. split; [exact Hp|].
  unfold cutTimelineElement. rewrite Hfind.
  apply guard_false_iff in Hin. rewrite Hin.
  fold (firstClipLiteral element cutTime).
  fold (secondClipLiteral element cutTime uuid).
  fold (cutClips element cutTime uuid).
  destruct (cutClips element cutTime uuid) as [f g].
  rewrite Hi. cbn [snd fst].
  unfold Store.refreshElements, Store.setSelectedElement,
    Store.set_editorElements.
  cbn [Store.editorElements].
  apply (removal_then_splice _ _ _ _ _ Hfind Hi).
Qed.

Lemma cutClips_type_row (element : Element.t) (cutTime : Q) (uuid : string) :
  let '(firstClip, secondClip) := cutClips element cutTime uuid in
  Element.type firstClip = Element.type element
  /\ Element.type secondClip = Element.type element
  /\ Element.row firstClip = Element.row element
  /\ Element.row secondClip = Element.row element.
Proof.
  by_cases_of_adjust; cbn; auto.
Qed.

Lemma hasId_true (elementId : string) (el : Element.t) :
  hasId elementId el = true <-> Element.id el = elementId.
Proof. unfold hasId. apply String.eqb_eq. Qed.

Lemma find_skips_prefix {A : Type} (p : A -> bool) (pre suf : list A) :
  forallb (fun y => negb (p y)) pre = true ->
  find p (pre ++ suf) = find p suf.
Proof.
  induction pre as [|y pre IH]; simpl; [reflexivity|].
  destruct (p y); simpl; [discriminate | exact IH].
Qed.

Lemma findIndex_skips_prefix {A : Type} (p : A -> bool) (pre suf : list A) :
  forallb (fun y => negb (p y)) pre = true ->
  findIndex p (pre ++ suf)
  = option_map (Nat.add (List.length pre)) (findIndex p suf).
Proof.
  induction pre as [|y pre IH]; simpl.
  - intros _. now destruct (findIndex p suf).
  - destruct (p y); simpl; [discriminate|].
    intros H. rewrite (IH H). now destruct (findIndex p suf).
Qed.

(** X1.  After a successful cut the first clip carries the id the cut was
    asked for and the second the fresh id; both keep the original's type and
    row. *)
Theorem cut_clip_identities
  (store : Store.t) (elementId : string) (cutTime : Q) (uuid : string)
  (element : Element.t) :
  find (hasId elementId) (Store.editorElements store) = Some element ->
  strictlyInside element cutTime ->
  exists store' firstClip secondClip,
    cutTimelineElement store elementId cutTime uuid = (CutApplied, store')
    /\ producedClips store store' elementId = Some (firstClip, secondClip)
    /\ Element.id firstClip = elementId
    /\ Element.id secondClip = uuid
    /\ Element.type firstClip = Element.type element
    /\ Element.type secondClip = Element.type element
    /\ Element.row firstClip = Element.row element
    /\ Element.row secondClip = Element.row element.
Proof.
  intros Hfind Hin.
  destruct (cut_applied store elementId cutTime uuid element Hfind Hin)
    as (store' & Hcut & Hclips & _).
  pose proof (cutClips_frame element cutTime uuid) as Hframe.
  pose proof (cutClips_type_row element cutTime uuid) as Hrest.
  destruct (cutClips element cutTime uuid) as [f g].
  destruct Hframe as (Hidf & Hidg & _).
  destruct Hrest as (Htf & Htg & Hrf & Hrg).
  apply find_some in Hfind. destruct Hfind as [_ Hid].
  apply hasId_true in Hid.
  exists store', f, g. rewrite Hidf, Hid. auto 10.
Qed.

(** X2.  A successful cut rewrites the list in place: the elements before
    the original stay as they are, the two clips take the original's place,
    and of the elements after it exactly those with another id stay, in
    order; every later element sharing the original's id is dropped. *)
Theorem cut_rewrites_in_place
  (store : Store.t) (elementId : string) (cutTime : Q) (uuid : string)
  (element : Element.t) :
  find (hasId elementId) (Store.editorElements store) = Some element ->
  strictlyInside element cutTime ->
  exists store' firstClip secondClip before after,
    cutTimelineElement store elementId cutTime uuid = (CutApplied, store')
    /\ producedClips store store' elementId = Some (firstClip, secondClip)
    /\ Store.editorElements store = before ++ element :: after
    /\ (forall el, In el before -> Element.id el <> elementId)
    /\ Store.editorElements store'
       = before ++ [firstClip; secondClip]
         ++ filter (fun el => negb (String.eqb (Element.id el) elementId))
                   after.
Proof.
  intros Hfind Hin.
  destruct (cut_applied store elementId cutTime uuid element Hfind Hin)
    as (store' & Hcut & Hclips & _).
  destruct (cut_elements_shape store elementId cutTime uuid element Hfind Hin)
    as (i & before & after & _ & _ & Hsplit & Hbefore & _ & Hshape).
  rewrite Hcut in Hshape. cbn [snd] in Hshape.
  exists store', (fst (cutClips element cutTime uuid)),
    (snd (cutClips element cutTime uuid)), before, after.
  split; [exact Hcut|]. split; [now rewrite <- surjective_pairing|].
  split; [exact Hsplit|]. split; [|exact Hshape].
  intros el Hel Hid. rewrite forallb_forall in Hbefore.
  specialize (Hbefore el Hel). apply hasId_true in Hid.
  rewrite Hid in Hbefore. discriminate.
Qed.

(** X3.  When the ids in the store are pairwise distinct, a successful cut
    replaces the original by the two clips and leaves every other element
    where it was: the list grows by exactly one. *)
Theorem cut_unique_ids_replaces_one
  (store : Store.t) (elementId : string) (cutTime : Q) (uuid : string)
  (element : Element.t) :
  NoDup (map Element.id (Store.editorElements store)) ->
  find (hasId elementId) (Store.editorElements store) = Some element ->
  strictlyInside element cutTime ->
  exists store' firstClip secondClip before after,
    cutTimelineElement store elementId cutTime uuid = (CutApplied, store')
    /\ producedClips store store' elementId = Some (firstClip, secondClip)
    /\ Store.editorElements store = before ++ element :: after
    /\ Store.editorElements store'
       = before ++ firstClip :: secondClip :: after
    /\ List.length (Store.editorElements store')
       = S (List.length (Store.editorElements store)).
Proof.
  intros Hnodup Hfind Hin.
  destruct (cut_applied store elementId cutTime uuid element Hfind Hin)
    as (store' & Hcut & Hclips & _).
  destruct (cut_elements_shape store elementId cutTime uuid element Hfind Hin)
    as (i & before & after & _ & _ & Hsplit & _ & Hid & Hshape).
  rewrite Hcut in Hshape. cbn [snd] in Hshape.
  assert (Hafter : filter (fun el => negb (hasId elementId el)) after
                   = after).
  { apply filter_all. apply forallb_forall. intros el Hel.
    apply negb_true_iff, not_true_is_false. intros Hel_id.
    apply hasId_true in Hid, Hel_id.
    rewrite Hsplit, map_app in Hnodup. cbn [map] in Hnodup.
    apply NoDup_remove_2 in Hnodup. apply Hnodup.
    apply in_or_app. right. rewrite Hid, <- Hel_id. now apply in_map. }
  rewrite Hafter in Hshape.
  exists store', (fst (cutClips element cutTime uuid)),
    (snd (cutClips element cutTime uuid)), before, after.
  split; [exact Hcut|]. split; [now rewrite <- surjective_pairing|].
  split; [exact Hsplit|]. split; [exact Hshape|].
  rewrite Hshape, Hsplit, !length_app. cbn [List.length app]. lia.
Qed.

(** X4.  After a successful cut the id the cut was asked for finds the first
    clip, at the index the original had; and when the fresh id differs from
    that id and no element of the store carried it, the fresh id finds the
    second clip. *)
Theorem cut_then_lookup
  (store : Store.t) (elementId : string) (cutTime : Q) (uuid : string)
  (element : Element.t) :
  find (hasId elementId) (Store.editorElements store) = Some element ->
  strictlyInside element cutTime ->
  exists store' firstClip secondClip,
    cutTimelineElement store elementId cutTime uuid = (CutApplied, store')
    /\ producedClips store store' elementId = Some (firstClip, secondClip)
    /\ find (hasId elementId) (Store.editorElements store') = Some firstClip
    /\ findIndex (hasId elementId) (Store.editorElements store')
       = findIndex (hasId elementId) (Store.editorElements store)
    /\ (uuid <> elementId ->
        find (hasId uuid) (Store.editorElements store) = None ->
        find (hasId uuid) (Store.editorElements store') = Some secondClip).
Proof.
  intros Hfind Hin.
  destruct (cut_applied store elementId cutTime uuid element Hfind Hin)
    as (store' & Hcut & Hclips & _).
  destruct (cut_elements_shape store elementId cutTime uuid element Hfind Hin)
    as (i & before & after & Hi & Hlen & Hsplit & Hbefore & Hid & Hshape).
  rewrite Hcut in Hshape. cbn [snd] in Hshape.
  pose proof (cutClips_frame element cutTime uuid) as Hframe.
  destruct (cutClips element cutTime uuid) as [f g]. cbn [fst snd] in Hshape.
  destruct Hframe as (Hidf & Hidg & _).
  apply hasId_true in Hid.
  assert (Hf : hasId elementId f = true)
    by (apply hasId_true; congruence).
  exists store', f, g.
  split; [exact Hcut|]. split; [exact Hclips|]. rewrite Hshape. split; [|split].
  - rewrite (find_skips_prefix _ _ _ Hbefore). cbn. now rewrite Hf.
  - rewrite (findIndex_skips_prefix _ _ _ Hbefore), Hi. cbn.
    rewrite Hf. cbn. now rewrite Hlen, Nat.add_0_r.
  - intros Hneq Hfresh.
    assert (Hpre : forallb (fun y => negb (hasId uuid y)) before = true).
    { apply forallb_forall. intros el Hel.
      apply negb_true_iff, not_true_is_false. intros Hel_id.
      rewrite (find_none _ _ Hfresh el) in Hel_id; [discriminate|].
      rewrite Hsplit. apply in_or_app. now left. }
    rewrite (find_skips_prefix _ _ _ Hpre). cbn.
    assert (Hfu : hasId uuid f = false).
    { apply not_true_is_false. intros H. apply hasId_true in H. congruence. }
    assert (Hgu : hasId uuid g = true) by now apply hasId_true.
    now rewrite Hfu, Hgu.
Qed.

Lemma cutClips_properties_kept (element : Element.t) (cutTime : Q)
  (uuid : string) :
  (Element.type element <> "video"%string
   /\ Element.type element <> "audio"%string
   /\ Element.type element <> "text"%string)
  \/ Element.properties element = None ->
  Element.properties (fst (cutClips element cutTime uuid))
  = Element.properties element
  /\ Element.properties (snd (cutClips element cutTime uuid))
     = Element.properties element.
Proof.
  unfold cutClips, adjustElementPropertiesForCut, adjustMediaElementForCut,
    adjustAudioElementForCut, adjustTextElementForCut, isImage.
  intros [(Hv & Ha & Ht) | Hnone].
  - apply String.eqb_neq in Hv, Ha, Ht. rewrite Hv, Ha, Ht.
    destruct (String.eqb (Element.type element) "imageUrl");
      destruct (String.eqb (Element.type element) "image");
      cbn; auto.
  - rewrite Hnone.
    repeat match goal with
           | |- context [if ?b then _ else _] => destruct b
           end; cbn; auto.
Qed.

(** X5.  For an element that is neither video, audio nor text (an image, an
    imageUrl, any other type), and for any element without [properties], a
    successful cut copies [properties] to both clips unchanged. *)
Theorem cut_keeps_properties_of_other_types
  (store : Store.t) (elementId : string) (cutTime : Q) (uuid : string)
  (element : Element.t) :
  find (hasId elementId) (Store.editorElements store) = Some element ->
  strictlyInside element cutTime ->
  (Element.type element <> "video"%string
   /\ Element.type element <> "audio"%string
   /\ Element.type element <> "text"%string)
  \/ Element.properties element = None ->
  exists store' firstClip secondClip,
    cutTimelineElement store elementId cutTime uuid = (CutApplied, store')
    /\ producedClips store store' elementId = Some (firstClip, secondClip)
    /\ Element.properties firstClip = Element.properties element
    /\ Element.properties secondClip = Element.properties element.
Proof.
  intros Hfind Hin Hother.
  destruct (cut_applied store elementId cutTime uuid element Hfind Hin)
    as (store' & Hcut & Hclips & _).
  destruct (cutClips_properties_kept element cutTime uuid Hother) as [Hf Hg].
  exists store', (fst (cutClips element cutTime uuid)),
    (snd (cutClips element cutTime uuid)).
  split; [exact Hcut|]. split; [now rewrite <- surjective_pairing|]. auto.
Qed.

(** X6.  For a video whose [sourceDuration] is missing or zero the cut falls
    back on the element's duration on the timeline, so the source is split
    at the cut position itself: the first clip gets the source duration
    [cutTime - start], the second [end - cutTime], and the second clip's
    source start is the first's plus [cutTime - start]. *)
Theorem cut_video_without_sourceDuration
  (store : Store.t) (elementId : string) (cutTime : Q) (uuid : string)
  (element : Element.t) (p : Properties.t) :
  find (hasId elementId) (Store.editorElements store) = Some element ->
  strictlyInside element cutTime ->
  Element.type element = "video"%string ->
  Element.properties element = Some p ->
  Properties.sourceDuration p = None
  \/ (exists z, Properties.sourceDuration p = Some z /\ z == 0) ->
  exists store' firstClip secondClip s1 d1 s2 d2,
    cutTimelineElement store elementId cutTime uuid = (CutApplied, store')
    /\ producedClips store store' elementId = Some (firstClip, secondClip)
    /\ getSourceStartTime firstClip = Some s1
    /\ getSourceDuration firstClip = Some d1
    /\ getSourceStartTime secondClip = Some s2
    /\ getSourceDuration secondClip = Some d2
    /\ d1 == cutTime - TimeFrame.start (Element.timeFrame element)
    /\ d2 == TimeFrame.end_ (Element.timeFrame element) - cutTime
    /\ s2 == s1 + (cutTime - TimeFrame.start (Element.timeFrame element)).
Proof.
  intros Hfind Hin Hty Hp Hmissing.
  destruct (cut_applied store elementId cutTime uuid element Hfind Hin)
    as (store' & Hcut & Hclips & _).
  rewrite (cutClips_video element cutTime uuid p Hty Hp) in Hclips.
  cbv zeta in Hclips.
  assert (Hdefault : forall d, or_default (Properties.sourceDuration p) d = d).
  { intros d. destruct Hmissing as [-> | (z & -> & Hz)]; [reflexivity|].
    unfold or_default. apply Qeq_bool_iff in Hz. now rewrite Hz. }
  rewrite Hdefault in Hclips.
  do 7 eexists. split; [exact Hcut|]. split; [exact Hclips|].
  do 4 (split; [reflexivity|]).
  destruct Hin as [H1 H2].
  repeat split; field; lra.
Qed.

(** X7.  For a video with a positive [sourceDuration] every cut strictly
    inside the time frame gives both clips a positive source duration,
    shorter than the original's; the first clip's source starts where the
    original's does ([sourceStartTime], 0 when that is missing or zero), the
    second clip's source starts after it and ends where the original source
    span ends. *)
Theorem cut_video_source_durations_positive
  (store : Store.t) (elementId : string) (cutTime : Q) (uuid : string)
  (element : Element.t) (p : Properties.t) (sourceDur : Q) :
  find (hasId elementId) (Store.editorElements store) = Some element ->
  strictlyInside element cutTime ->
  Element.type element = "video"%string ->
  Element.properties element = Some p ->
  Properties.sourceDuration p = Some sourceDur ->
  0 < sourceDur ->
  exists store' firstClip secondClip s1 d1 s2 d2,
    cutTimelineElement store elementId cutTime uuid = (CutApplied, store')
    /\ producedClips store store' elementId = Some (firstClip, secondClip)
    /\ getSourceStartTime firstClip = Some s1
    /\ getSourceDuration firstClip = Some d1
    /\ getSourceStartTime secondClip = Some s2
    /\ getSourceDuration secondClip = Some d2
    /\ s1 = or_default (Properties.sourceStartTime p) 0
    /\ 0 < d1 /\ d1 < sourceDur
    /\ 0 < d2 /\ d2 < sourceDur
    /\ s1 < s2
    /\ s2 + d2 == or_default (Properties.sourceStartTime p) 0 + sourceDur.
Proof.
  intros Hfind Hin Hty Hp Hd Hpos.
  destruct (cut_applied store elementId cutTime uuid element Hfind Hin)
    as (store' & Hcut & Hclips & _).
  rewrite (cutClips_video element cutTime uuid p Hty Hp) in Hclips.
  assert (Hnz : ~ sourceDur == 0) by lra.
  rewrite Hd, (or_default_nonzero sourceDur _ Hnz) in Hclips.
  cbv zeta in Hclips.
  do 7 eexists. split; [exact Hcut|]. split; [exact Hclips|].
  do 4 (split; [reflexivity|]).
  destruct Hin as [H1 H2].
  set (ratio := (cutTime - TimeFrame.start (Element.timeFrame element))
                / (TimeFrame.end_ (Element.timeFrame element)
                   - TimeFrame.start (Element.timeFrame element))).
  assert (Hr0 : 0 < ratio) by (apply Qlt_shift_div_l; lra).
  assert (Hr1 : ratio < 1) by (apply Qlt_shift_div_r; lra).
  assert (Hm0 : 0 < ratio * sourceDur) by now apply Qmult_lt_0_compat.
  assert (Hm1 : ratio * sourceDur < sourceDur).
  { setoid_replace sourceDur with (1 * sourceDur) at 2 by ring.
    now apply Qmult_lt_compat_r. }
  split; [reflexivity|].
  repeat split; lra.
Qed.

Lemma app_same_length_inv {A : Type} (l1 l2 r1 r2 : list A) :
  List.length l1 = List.length l2 ->
  l1 ++ r1 = l2 ++ r2 -> l1 = l2 /\ r1 = r2.
Proof.
  revert l2. induction l1 as [|x l1 IH]; intros [|y l2]; simpl;
    try discriminate.
  - auto.
  - intros [= Hlen] [= -> Happ]. destruct (IH _ Hlen Happ) as [-> ->]. auto.
Qed.

Lemma filter_twice {A : Type} (q : A -> bool) (l : list A) :
  filter q (filter q l) = filter q l.
Proof.
  induction l as [|x l IH]; simpl; [reflexivity|].
  destruct (q x) eqn:E; simpl; [rewrite E|]; now rewrite IH.
Qed.

(** X8.  Cuts compose.  After a cut at [t1] with a fresh id other than the
    element's, a second cut of the same id at an earlier time [t0] again
    succeeds, and the three clips sit side by side at the original's index:
    [{start, t0}] under the original id, [{t0, t1}] under the second fresh
    id, [{t1, end}] under the first. *)
Theorem cut_twice_three_clips
  (store : Store.t) (elementId : string) (t0 t1 : Q) (uuid1 uuid2 : string)
  (element : Element.t) (i : nat) :
  find (hasId elementId) (Store.editorElements store) = Some element ->
  findIndex (hasId elementId) (Store.editorElements store) = Some i ->
  TimeFrame.start (Element.timeFrame element) < t0 ->
  t0 < t1 ->
  t1 < TimeFrame.end_ (Element.timeFrame element) ->
  uuid1 <> elementId ->
  exists store1 store2 a b c,
    cutTimelineElement store elementId t1 uuid1 = (CutApplied, store1)
    /\ cutTimelineElement store1 elementId t0 uuid2 = (CutApplied, store2)
    /\ nth_error (Store.editorElements store2) i = Some a
    /\ nth_error (Store.editorElements store2) (S i) = Some b
    /\ nth_error (Store.editorElements store2) (S (S i)) = Some c
    /\ Element.id a = elementId /\ Element.id b = uuid2
    /\ Element.id c = uuid1
    /\ Element.timeFrame a
       = TimeFrame.mk (TimeFrame.start (Element.timeFrame element)) t0
    /\ Element.timeFrame b = TimeFrame.mk t0 t1
    /\ Element.timeFrame c
       = TimeFrame.mk t1 (TimeFrame.end_ (Element.timeFrame element)).
Proof.
  intros Hfind Hidx H0 H01 H1 Hfresh.
  assert (Hin1 : strictlyInside element t1) by (split; lra).
  destruct (cut_applied store elementId t1 uuid1 element Hfind Hin1)
    as (store1 & Hcut1 & _ & _).
  destruct (cut_elements_shape store elementId t1 uuid1 element Hfind Hin1)
    as (i1 & before & after & Hi1 & Hlen & Hsplit & Hbefore & Hid & Hshape1).
  rewrite Hcut1 in Hshape1. cbn [snd] in Hshape1.
  rewrite Hidx in Hi1. injection Hi1 as <-.
  pose proof (cutClips_frame element t1 uuid1) as Hframe1.
  destruct (cutClips element t1 uuid1) as [f g]. cbn [fst snd] in Hshape1.
  destruct Hframe1 as (Hidf & Hidg & Htf & Htg).
  apply hasId_true in Hid.
  assert (Hf : hasId elementId f = true) by (apply hasId_true; congruence).
  assert (Hfind1 : find (hasId elementId) (Store.editorElements store1)
                   = Some f).
  { rewrite Hshape1, (find_skips_prefix _ _ _ Hbefore). cbn. now rewrite Hf. }
  assert (Hin0 : strictlyInside f t0).
  { unfold strictlyInside. rewrite Htf. cbn. split; lra. }
  destruct (cut_applied store1 elementId t0 uuid2 f Hfind1 Hin0)
    as (store2 & Hcut2 & _ & _).
  destruct (cut_elements_shape store1 elementId t0 uuid2 f Hfind1 Hin0)
    as (i2 & before2 & after2 & Hi2 & Hlen2 & Hsplit2 & _ & _ & Hshape2).
  rewrite Hcut2 in Hshape2. cbn [snd] in Hshape2.
  assert (Hi2' : i2 = i).
  { rewrite Hshape1, (findIndex_skips_prefix _ _ _ Hbefore) in Hi2.
    cbn in Hi2. rewrite Hf in Hi2. cbn in Hi2.
    rewrite Nat.add_0_r in Hi2. congruence. }
  rewrite Hi2' in Hlen2. clear Hi2 Hi2'.
  rewrite Hshape1 in Hsplit2.
  destruct (app_same_length_inv before before2 _ _
              (eq_trans Hlen (eq_sym Hlen2)) Hsplit2) as [<- Hrest].
  cbn in Hrest. injection Hrest as <-.
  pose proof (cutClips_frame f t0 uuid2) as Hframe2.
  destruct (cutClips f t0 uuid2) as [a b]. cbn [fst snd] in Hshape2.
  destruct Hframe2 as (Hida & Hidb & Hta & Htb).
  assert (Hg : hasId elementId g = false).
  { apply not_true_is_false. intros H. apply hasId_true in H. congruence. }
  cbn [filter] in Hshape2. rewrite Hg in Hshape2. cbn [negb] in Hshape2.
  exists store1, store2, a, b, g.
  split; [exact Hcut1|]. split; [exact Hcut2|].
  rewrite Hshape2.
  assert (Hnth : forall k x,
             nth_error [a; b; g] k = Some x ->
             nth_error
               (before ++ [a; b]
                ++ g :: filter (fun el => negb (hasId elementId el))
                          (filter (fun el => negb (hasId elementId el))
                                  after))
               (List.length before + k) = Some x).
  { intros k x Hk. rewrite nth_error_app2 by lia.
    replace (List.length before + k - List.length before)%nat with k by lia.
    destruct k as [|[|[|k]]]; cbn in *; try assumption.
    destruct k; discriminate. }
  rewrite <- Hlen.
  split; [rewrite <- (Nat.add_0_r (List.length before)); now apply Hnth|].
  split; [rewrite <- Nat.add_1_r; now apply Hnth|].
  split.
  { replace (S (S (List.length before))) with (List.length before + 2)%nat
      by lia. now apply Hnth. }
  rewrite Hta, Htb, Htf, Htg. cbn. repeat split; congruence.
Qed.

(** * Further properties of the ghost drag *)

Lemma start_consistent store file ty d :
  ghostConsistent (Store.ghostState (startFileGhostDragUtil store file ty d)).
Proof.
  right. split; [reflexivity|]. do 2 eexists.
  split; [reflexivity|]. split; [reflexivity|]. cbn. ring.
Qed.

Lemma update_consistent store pos r inc :
  ghostConsistent (Store.ghostState store) ->
  ghostConsistent (Store.ghostState (updateFileGhostUtil store pos r inc)).
Proof.
  intros H. unfold updateFileGhostUtil.
  destruct (GhostState.isFileDragging (Store.ghostState store)) eqn:Hd;
    [|exact H].
  destruct (GhostState.fileGhostElement (Store.ghostState store))
    as [ghost|] eqn:Hg; [|exact H].
  destruct H as [Hidle | (_ & file & ghost' & Hfile & _ & _)].
  - rewrite Hidle in Hd. discriminate.
  - right. cbn. split; [reflexivity|]. exists file. eexists.
    split; [exact Hfile|]. split; [reflexivity|]. cbn. ring.
Qed.

(** X9.  From a consistent ghost state, every run of gestures whose commit
    callbacks leave the ghost state alone ends in a consistent one: either
    every field is cleared, or a drag is on with its file and a candidate
    whose time frame is exactly as long as its duration. *)
Theorem ghost_ops_keep_consistency (ops : list GhostOp) (store : Store.t) :
  ghostConsistent (Store.ghostState store) ->
  Forall callbackKeepsGhost ops ->
  ghostConsistent (Store.ghostState (runGhostOps ops store)).
Proof.
  unfold runGhostOps. intros Hinv Hops. revert store Hinv.
  induction Hops as [|op ops Hop _ IH]; intros store Hinv; [exact Hinv|].
  cbn [fold_left]. apply IH.
  destruct op as [file ty d | pos r inc | pos r cb]; cbn [runGhostOp].
  - apply start_consistent.
  - now apply update_consistent.
  - unfold finishFileGhostDragUtil.
    destruct (GhostState.isFileDragging (Store.ghostState store));
      cbn [negb storeOf]; [|exact Hinv].
    destruct cb as [f|]; [|now left].
    cbn in Hop. specialize (Hop pos r store).
    destruct (f pos r store) as [s|s]; cbn [storeOf] in *.
    + now left.
    + now rewrite Hop.
Qed.

Lemma updates_keep_rest (ops : list GhostOp) (store : Store.t) :
  Forall isUpdatePosition ops ->
  GhostState.isFileDragging (Store.ghostState store) = true ->
  exists g,
    runGhostOps ops store = Store.set_ghostState g store
    /\ GhostState.isFileDragging g = true.
Proof.
  unfold runGhostOps. intros Hops. revert store.
  induction Hops as [|op ops Hop _ IH]; intros store Hd.
  - exists (Store.ghostState store). split; [now destruct store | exact Hd].
  - destruct op as [| pos r inc |]; try contradiction.
    cbn [fold_left runGhostOp].
    assert (Hstep : exists g,
               updateFileGhostUtil store pos r inc
               = Store.set_ghostState g store
               /\ GhostState.isFileDragging g = true).
    { unfold updateFileGhostUtil. rewrite Hd.
      destruct (GhostState.fileGhostElement (Store.ghostState store)).
      - eexists. split; reflexivity.
      - exists (Store.ghostState store).
        split; [now destruct store | exact Hd]. }
    destruct Hstep as (g & Hg & Hgd). rewrite Hg.
    destruct (IH (Store.set_ghostState g store) Hgd) as (g' & Hg' & Hgd').
    exists g'. split; [now rewrite Hg' | exact Hgd'].
Qed.

(** X10.  A drag that is started on a store whose ghost state is cleared,
    moved any number of times and finished without a commit callback leaves
    the store exactly as it was before the drag. *)
Theorem ghost_drag_without_commit_restores_store
  (store : Store.t) (file : File) (elementType : string)
  (defaultDuration finalPosition : Q) (rowIndex : Z) (moves : list GhostOp) :
  Store.ghostState store = idleGhostState ->
  Forall isUpdatePosition moves ->
  runGhostOps
    (StartDrag file elementType defaultDuration
     :: moves ++ [FinishDrag finalPosition rowIndex None])
    store
  = store.
Proof.
  intros Hidle Hmoves. unfold runGhostOps.
  cbn [fold_left runGhostOp]. rewrite fold_left_app. cbn [fold_left].
  destruct (updates_keep_rest moves
              (startFileGhostDragUtil store file elementType defaultDuration)
              Hmoves eq_refl) as (g & Hg & Hgd).
  unfold runGhostOps in Hg. rewrite Hg. cbn [runGhostOp].
  unfold finishFileGhostDragUtil. cbn. rewrite Hgd. cbn.
  unfold resetGhostState, Store.set_ghostState. cbn.
  destruct store as [els sel mt gs]. cbn in *. now rewrite Hidle.
Qed.

(** X11.  Of two position updates in a row only the second counts: the
    store is the one the second update alone would have left, whether a
    drag is on or not. *)
Theorem ghost_last_update_wins
  (store : Store.t) (p1 p2 : Q) (r1 r2 : Z) (i1 i2 : bool) :
  updateFileGhostUtil (updateFileGhostUtil store p1 r1 i1) p2 r2 i2
  = updateFileGhostUtil store p2 r2 i2.
Proof.
  unfold updateFileGhostUtil at 2 3.
  destruct (GhostState.isFileDragging (Store.ghostState store)) eqn:Hd.
  - destruct (GhostState.fileGhostElement (Store.ghostState store)) eqn:Hg.
    + reflexivity.
    + unfold updateFileGhostUtil. now rewrite Hd, Hg.
  - unfold updateFileGhostUtil. now rewrite Hd.
Qed.

(** * Properties of the timeline scrollbar *)

Lemma clamp_inside (lo hi v : Q) :
  lo <= v -> v <= hi -> Qmax lo (Qmin hi v) == v.
Proof.
  intros H1 H2.
  rewrite (Q.min_r hi v H2). now apply Q.max_r.
Qed.

Lemma clamp_bounds (lo hi v : Q) :
  lo <= hi -> lo <= Qmax lo (Qmin hi v) /\ Qmax lo (Qmin hi v) <= hi.
Proof.
  intros H. split.
  - apply Q.le_max_l.
  - apply Q.max_lub; [exact H | apply Q.le_min_l].
Qed.

Lemma clamp_monotone (lo hi v w : Q) :
  v <= w -> Qmax lo (Qmin hi v) <= Qmax lo (Qmin hi w).
Proof.
  intros H. apply Q.max_le_compat_l. now apply Q.min_le_compat_l.
Qed.

Lemma Qmult_le_l_weak (z x y : Q) : 0 <= z -> x <= y -> z * x <= z * y.
Proof.
  intros Hz Hxy. rewrite (Qmult_comm z x), (Qmult_comm z y).
  now apply Qmult_le_compat_r.
Qed.

(** X12.  Resizing the handle and redrawing it agree: when the width the
    resize asks for lies between 2% and 100% of the scrollbar, the handle
    width [updateHandleSize] derives from the scale the resize hands over is
    that very width. *)
Theorem scrollbar_resize_round_trip
  (initialHandleWidth delta scrollbarWidth : Q) :
  let newWidth := Qmax 20 (initialHandleWidth + delta) in
  0 < scrollbarWidth ->
  (1 # 50) * scrollbarWidth <= newWidth ->
  newWidth <= scrollbarWidth ->
  Scrollbar.handleWidth
    (resizeScale initialHandleWidth delta scrollbarWidth) scrollbarWidth
  == newWidth.
Proof.
  intros newWidth Hpos Hlo Hhi.
  unfold Scrollbar.handleWidth, resizeScale. fold newWidth.
  set (ratio := newWidth / scrollbarWidth).
  assert (Hr0 : 1 # 50 <= ratio) by (apply Qle_shift_div_l; lra).
  assert (Hr1 : ratio <= 1) by (apply Qle_shift_div_r; lra).
  rewrite (clamp_inside 1 (59 # 2) (1 + (57 # 2) * (1 - ratio)))
    by lra.
  assert (Hmin : Qmin ((1 + (57 # 2) * (1 - ratio) - 1) / (57 # 2)) (49 # 50)
                 == 1 - ratio).
  { assert (Ha : (1 + (57 # 2) * (1 - ratio) - 1) / (57 # 2) == 1 - ratio)
      by field.
    rewrite Ha. apply Q.min_l. lra. }
  rewrite Hmin. rewrite Q.max_r by lra.
  unfold ratio. field. lra.
Qed.

(** X13.  Whatever the scale, the handle [updateHandleSize] draws on a
    scrollbar of non-negative width is at most as wide as the scrollbar and
    at least 2% of it. *)
Theorem scrollbar_handle_width_bounds (scale scrollbarWidth : Q) :
  0 <= scrollbarWidth ->
  (1 # 50) * scrollbarWidth <= Scrollbar.handleWidth scale scrollbarWidth
  /\ Scrollbar.handleWidth scale scrollbarWidth <= scrollbarWidth.
Proof.
  intros Hw. unfold Scrollbar.handleWidth.
  set (ratio := Qmax 0 (Qmin ((scale - 1) / (57 # 2)) (49 # 50))).
  assert (Hr : 0 <= ratio /\ ratio <= 49 # 50).
  { unfold ratio. split; [apply Q.le_max_l|].
    apply Q.max_lub; [lra | apply Q.le_min_r]. }
  destruct Hr as [Hr0 Hr1]. split.
  - setoid_replace ((1 # 50) * scrollbarWidth)
      with (scrollbarWidth * (1 # 50)) by ring.
    apply Qmult_le_l_weak; [exact Hw | lra].
  - apply Qle_trans with (scrollbarWidth * 1).
    + apply Qmult_le_l_weak; [exact Hw | lra].
    + rewrite Qmult_1_r. apply Qle_refl.
Qed.

(** X14.  Resizing is monotone: on a scrollbar of positive width, pulling
    the edge further (a larger pointer delta, hence a wider handle) never
    yields a larger scale. *)
Theorem scrollbar_resize_scale_antitone
  (initialHandleWidth delta1 delta2 scrollbarWidth : Q) :
  0 < scrollbarWidth ->
  delta1 <= delta2 ->
  resizeScale initialHandleWidth delta2 scrollbarWidth
  <= resizeScale initialHandleWidth delta1 scrollbarWidth.
Proof.
  intros Hpos Hd. unfold resizeScale. apply clamp_monotone.
  assert (Hw : Qmax 20 (initialHandleWidth + delta1)
               <= Qmax 20 (initialHandleWidth + delta2))
    by (apply Q.max_le_compat_l; lra).
  assert (Hr : Qmax 20 (initialHandleWidth + delta1) / scrollbarWidth
               <= Qmax 20 (initialHandleWidth + delta2) / scrollbarWidth).
  { unfold Qdiv. apply Qmult_le_compat_r; [exact Hw|].
    apply Qlt_le_weak, Qinv_lt_0_compat, Hpos. }
  lra.
Qed.

(** X15.  Dragging the handle keeps it on its track and the content inside
    its scroll range: when the handle is narrower than the scrollbar and the
    content at least as wide as its viewport, the handle's new left lies in
    [[0, maxLeft]] and the scroll position written lies in [[0, maxScroll]];
    when the handle is exactly as wide as the scrollbar the division is by
    zero and no number is written. *)
Theorem scrollbar_drag_stays_in_range
  (st : Scrollbar.State) (g : Scrollbar.Geometry) (clientX : Q) :
  let maxLeft := Scrollbar.scrollbarWidth g - Scrollbar.handleOffsetWidth g in
  let maxScroll := Scrollbar.scrollWidth g - Scrollbar.clientWidth g in
  (0 < maxLeft -> 0 <= maxScroll ->
   0 <= Scrollbar.dragLeft st g clientX
   /\ Scrollbar.dragLeft st g clientX <= maxLeft
   /\ exists v, Scrollbar.dragScroll st g clientX = Some v
                /\ 0 <= v /\ v <= maxScroll)
  /\ (maxLeft == 0 -> Scrollbar.dragScroll st g clientX = None).
Proof.
  intros maxLeft maxScroll. split.
  - intros Hleft Hscroll.
    assert (Hb : 0 <= Scrollbar.dragLeft st g clientX
                 /\ Scrollbar.dragLeft st g clientX <= maxLeft).
    { unfold Scrollbar.dragLeft. fold maxLeft. split.
      - apply Q.le_max_l.
      - apply Q.max_lub; [lra | apply Q.le_min_r]. }
    destruct Hb as [Hb0 Hb1]. split; [exact Hb0|]. split; [exact Hb1|].
    unfold Scrollbar.dragScroll. fold maxLeft maxScroll.
    destruct (Qeq_bool maxLeft 0) eqn:E.
    { apply Qeq_bool_iff in E. lra. }
    eexists. split; [reflexivity|].
    set (ratio := Scrollbar.dragLeft st g clientX / maxLeft).
    assert (Hr0 : 0 <= ratio) by (apply Qle_shift_div_l; lra).
    assert (Hr1 : ratio <= 1) by (apply Qle_shift_div_r; lra).
    split.
    + now apply Qmult_le_0_compat.
    + apply Qle_trans with (maxScroll * 1).
      * apply Qmult_le_l_weak; [exact Hscroll | exact Hr1].
      * rewrite Qmult_1_r. apply Qle_refl.
  - intros Hzero. unfold Scrollbar.dragScroll. fold maxLeft.
    apply Qeq_bool_iff in Hzero. now rewrite Hzero.
Qed.

(** One frame multiplies the distance to the target by 17/20. *)
Lemma lerp_distance (current target : Q) :
  Qabs (Scrollbar.lerp current target (3 # 20) - target)
  == (17 # 20) * Qabs (current - target).
Proof.
  unfold Scrollbar.lerp.
  setoid_replace (current + (target - current) * (3 # 20) - target)
    with ((17 # 20) * (current - target)) by ring.
  rewrite Qabs_Qmult. now rewrite (Qabs_pos (17 # 20)) by lra.
Qed.

Lemma runFrames_at_rest (n : nat) (a : Scrollbar.Anim) :
  Scrollbar.animationFrame a = false -> runFrames n a = a.
Proof.
  induction n as [|n IH]; intros H; [reflexivity|].
  cbn [runFrames]. unfold Scrollbar.nextFrame. rewrite H. now apply IH.
Qed.

Lemma runFrames_settles (n : nat) (a : Scrollbar.Anim) :
  Scrollbar.animationFrame a = true ->
  Qabs (Scrollbar.currentLeft a - Scrollbar.targetLeft a)
  <= (1 # 10) * (1 + (3 # 17) * inject_Z (Z.of_nat n)) ->
  Scrollbar.animationFrame (runFrames (S n) a) = false
  /\ Qabs (Scrollbar.currentLeft (runFrames (S n) a)
           - Scrollbar.targetLeft (runFrames (S n) a)) <= 1 # 10
  /\ Scrollbar.targetLeft (runFrames (S n) a) = Scrollbar.targetLeft a.
Proof.
  revert a. induction n as [|n IH]; intros a Hflag Hdist.
  - cbn [runFrames]. unfold Scrollbar.nextFrame. rewrite Hflag.
    unfold Scrollbar.animateHandle. cbn.
    pose proof (lerp_distance (Scrollbar.currentLeft a)
                  (Scrollbar.targetLeft a)) as Hstep.
    assert (Hle : Qabs (Scrollbar.lerp (Scrollbar.currentLeft a)
                          (Scrollbar.targetLeft a) (3 # 20)
                        - Scrollbar.targetLeft a) <= 1 # 10).
    { rewrite Hstep. change (inject_Z (Z.of_nat 0)) with 0 in Hdist. lra. }
    split; [|split; [exact Hle | reflexivity]].
    apply negb_false_iff. now apply Qle_bool_iff.
  - change (runFrames (S (S n)) a)
      with (runFrames (S n) (Scrollbar.nextFrame true a)).
    unfold Scrollbar.nextFrame. rewrite Hflag.
    unfold Scrollbar.animateHandle. cbn [negb].
    set (a' := Scrollbar.mkAnim _ _ _).
    pose proof (lerp_distance (Scrollbar.currentLeft a)
                  (Scrollbar.targetLeft a)) as Hstep.
    assert (Hdist' : Qabs (Scrollbar.currentLeft a' - Scrollbar.targetLeft a')
                     <= (1 # 10) * (1 + (3 # 17) * inject_Z (Z.of_nat n))).
    { unfold a'. cbn [Scrollbar.currentLeft Scrollbar.targetLeft].
      rewrite Hstep.
      assert (Hn : inject_Z (Z.of_nat (S n)) == inject_Z (Z.of_nat n) + 1).
      { rewrite Nat2Z.inj_succ. unfold Z.succ. now rewrite inject_Z_plus. }
      rewrite Hn in Hdist.
      assert (H0 : 0 <= inject_Z (Z.of_nat n)).
      { change 0 with (inject_Z 0). rewrite <- Zle_Qle. lia. }
      lra. }
    destruct (Scrollbar.animationFrame a') eqn:Hflag'.
    + destruct (IH a' Hflag' Hdist') as (H1 & H2 & H3).
      split; [exact H1|]. split; [exact H2|]. now rewrite H3.
    + rewrite (runFrames_at_rest (S n) a' Hflag').
      split; [exact Hflag'|]. split; [|reflexivity].
      unfold a' in Hflag'. cbn [Scrollbar.animationFrame] in Hflag'.
      apply negb_false_iff in Hflag'. apply Qle_bool_iff in Hflag'.
      exact Hflag'.
Qed.

(** X16.  The smoothing animation always comes to rest: from every state
    with a frame requested and the handle mounted there is a number of
    frames after which no further frame is requested, the target is the one
    that was set, and the handle is within 0.1 px of it. *)
Theorem scrollbar_animation_settles (a : Scrollbar.Anim) :
  Scrollbar.animationFrame a = true ->
  exists n,
    Scrollbar.animationFrame (runFrames n a) = false
    /\ Qabs (Scrollbar.currentLeft (runFrames n a)
             - Scrollbar.targetLeft (runFrames n a)) <= 1 # 10
    /\ Scrollbar.targetLeft (runFrames n a) = Scrollbar.targetLeft a.
Proof.
  intros Hflag.
  set (d := Qabs (Scrollbar.currentLeft a - Scrollbar.targetLeft a)).
  set (n := Z.to_nat (Qceiling (d * (170 # 3)))).
  exists (S n). apply runFrames_settles; [exact Hflag|]. fold d.
  assert (Hn : d * (170 # 3) <= inject_Z (Z.of_nat n)).
  { apply Qle_trans with (inject_Z (Qceiling (d * (170 # 3)))).
    - apply Qle_ceiling.
    - rewrite <- Zle_Qle. unfold n. lia. }
  lra.
Qed.

(** * Properties of the canvas editor *)

Lemma find_map_same_test {A : Type} (p : A -> bool) (f : A -> A)
  (l : list A) :
  (forall a, p (f a) = p a) ->
  find p (map f l) = option_map f (find p l).
Proof.
  intros Hp. induction l as [|a l IH]; simpl; [reflexivity|].
  rewrite Hp. destruct (p a); [reflexivity | exact IH].
Qed.

(** X17.  Dropping clamps: after a mouse-up that ends a drag on a mounted
    canvas, dragging is off, every selected item at least as small as the
    canvas lies inside it in both directions, its size is what it was, and
    every item that is not selected is exactly as before. *)
Theorem canvas_drop_keeps_selected_inside
  (st : Canvas.State) (canvasWidth canvasHeight : Q) :
  Canvas.isDragging st = true ->
  let st' := Canvas.handleMouseUp (Some (canvasWidth, canvasHeight)) st in
  Canvas.isDragging st' = false
  /\ Canvas.selectedId st' = Canvas.selectedId st
  /\ Canvas.items st'
     = map (fun item => if Canvas.isSelected (Canvas.selectedId st) item
                        then Canvas.clampItem canvasWidth canvasHeight item
                        else item)
           (Canvas.items st)
  /\ (forall item,
        In item (Canvas.items st') ->
        Canvas.isSelected (Canvas.selectedId st) item = true ->
        (Canvas.width item <= canvasWidth ->
         0 <= Canvas.x item
         /\ Canvas.x item + Canvas.width item <= canvasWidth)
        /\ (Canvas.height item <= canvasHeight ->
            0 <= Canvas.y item
            /\ Canvas.y item + Canvas.height item <= canvasHeight))
  /\ (forall item,
        In item (Canvas.items st) ->
        Canvas.isSelected (Canvas.selectedId st) item = false ->
        In item (Canvas.items st')).
Proof.
  intros Hdrag st'. unfold st', Canvas.handleMouseUp. rewrite Hdrag.
  cbn [negb Canvas.isDragging Canvas.selectedId Canvas.items].
  split; [reflexivity|]. split; [reflexivity|]. split; [reflexivity|]. split.
  - intros item Hin Hsel. apply in_map_iff in Hin.
    destruct Hin as (item0 & Heq & _).
    destruct (Canvas.isSelected (Canvas.selectedId st) item0) eqn:Hsel0.
    + subst item. unfold Canvas.clampItem, Canvas.moveTo.
      cbn [Canvas.x Canvas.y Canvas.width Canvas.height]. split; intros Hfit.
      * split; [apply Q.le_max_l|].
        assert (H : Qmax 0 (Qmin (Canvas.x item0)
                                 (canvasWidth - Canvas.width item0))
                    <= canvasWidth - Canvas.width item0)
          by (apply Q.max_lub; [lra | apply Q.le_min_r]).
        lra.
      * split; [apply Q.le_max_l|].
        assert (H : Qmax 0 (Qmin (Canvas.y item0)
                                 (canvasHeight - Canvas.height item0))
                    <= canvasHeight - Canvas.height item0)
          by (apply Q.max_lub; [lra | apply Q.le_min_r]).
        lra.
    + subst item. congruence.
  - intros item Hin Hsel. apply in_map_iff. exists item.
    rewrite Hsel. auto.
Qed.

(** X18.  Grabbing an item and moving the pointer moves the item by the
    pointer's displacement: after a mouse-down at [(cx, cy)] on an existing
    item with a non-empty id and a mouse-move to [(mx, my)], that id finds
    the item at its old position plus [(mx - cx, my - cy)], with its size
    unchanged. *)
Theorem canvas_select_then_move_translates
  (st : Canvas.State) (i : string) (item : Canvas.Item) (cx cy mx my : Q) :
  find (Canvas.hasId i) (Canvas.items st) = Some item ->
  i <> ""%string ->
  exists moved,
    find (Canvas.hasId i)
         (Canvas.items
            (Canvas.handleMouseMove mx my
               (Canvas.handleItemSelect cx cy i st)))
    = Some moved
    /\ Canvas.x moved == Canvas.x item + (mx - cx)
    /\ Canvas.y moved == Canvas.y item + (my - cy)
    /\ Canvas.width moved = Canvas.width item
    /\ Canvas.height moved = Canvas.height item
    /\ Canvas.id moved = Canvas.id item.
Proof.
  intros Hfind Hne.
  unfold Canvas.handleItemSelect. rewrite Hfind.
  unfold Canvas.handleMouseMove.
  cbn [Canvas.isDragging Canvas.selectedId Canvas.dragOffset Canvas.items
       Canvas.noSelection negb fst snd orb].
  apply String.eqb_neq in Hne. rewrite Hne.
  cbn [Canvas.isSelected Canvas.items].
  rewrite find_map_same_test.
  - rewrite Hfind. cbn [option_map].
    apply find_some in Hfind. destruct Hfind as [_ Hid]. rewrite Hid.
    eexists. split; [reflexivity|]. cbn. repeat split; ring.
  - intros a. destruct (Canvas.hasId i a) eqn:E; [|exact E].
    unfold Canvas.hasId, Canvas.moveTo in *. cbn. exact E.
Qed.

(** X19.  The player's snap-back moves an object by exactly what brings its
    bounding rectangle back onto the canvas: if the rectangle is no wider
    than the canvas, the shifted rectangle starts at or after 0 and ends at
    or before the canvas edge; a rectangle already inside is not moved. *)
Theorem canvas_snap_back_inside
  (objLeft boundLeft boundWidth canvasWidth : Q) :
  let shift :=
    Canvas.snapBack objLeft boundLeft boundWidth canvasWidth - objLeft in
  (boundWidth <= canvasWidth ->
   0 <= boundLeft + shift /\ boundLeft + shift + boundWidth <= canvasWidth)
  /\ (0 <= boundLeft -> boundLeft + boundWidth <= canvasWidth ->
      Canvas.snapBack objLeft boundLeft boundWidth canvasWidth = objLeft).
Proof.
  intros shift. unfold shift, Canvas.snapBack.
  destruct (Qle_bool 0 boundLeft) eqn:E1; cbn [negb].
  - apply Qle_bool_iff in E1.
    destruct (Qle_bool (boundLeft + boundWidth) canvasWidth) eqn:E2;
      cbn [negb].
    + apply Qle_bool_iff in E2. split; [intros; split; lra | reflexivity].
    + assert (H2 : ~ boundLeft + boundWidth <= canvasWidth).
      { intros H. apply Qle_bool_iff in H. congruence. }
      split; [intros; split; lra | intros; contradiction].
  - assert (H1 : ~ 0 <= boundLeft).
    { intros H. apply Qle_bool_iff in H. congruence. }
    split; [intros; split; lra | intros; contradiction].
Qed.

(** * Properties of the video metadata detection *)

Lemma positive_iff (x : Q) : Metadata.positive x = true <-> 0 < x.
Proof.
  unfold Metadata.positive. rewrite negb_true_iff. split.
  - intros H. apply Qnot_le_lt. intros Hle. apply Qle_bool_iff in Hle.
    congruence.
  - intros H. apply not_true_is_false. intros Hle.
    apply Qle_bool_iff in Hle. lra.
Qed.

Lemma audioInfosFrom_length (v : Metadata.Video) (l : list Metadata.AudioTrack)
  (i : nat) :
  List.length (Metadata.audioInfosFrom v i l) = List.length l.
Proof.
  revert i. induction l as [|track l IH]; intros i; simpl; [reflexivity|].
  now rewrite IH.
Qed.

(** X20.  Whenever the element reports a positive duration, the detection
    answers that the video has audio, whatever the browser's audio probes
    say; the duration is the reported one in milliseconds and the track
    list holds at least one audio track. *)
Theorem metadata_positive_duration_means_audio
  (v : Metadata.Video) (seconds : Q) :
  Metadata.duration v = Some seconds ->
  0 < seconds ->
  let m := Metadata.detectAudioAndResolve v in
  Metadata.hasAudio m = true
  /\ Metadata.durationMs m = seconds * 1000
  /\ exists tr, Metadata.tracks m = Some tr /\ Metadata.audio tr <> [].
Proof.
  intros Hd Hpos m. unfold m, Metadata.detectAudioAndResolve.
  rewrite Hd. rewrite or_default_nonzero by lra.
  assert (Hp : Metadata.positive seconds = true) by now apply positive_iff.
  rewrite Hp. cbn [Metadata.hasAudio Metadata.durationMs Metadata.tracks].
  set (detected := _ || _ || _ || _).
  assert (Hdet : (if negb detected && true then true else detected) = true)
    by now destruct detected.
  rewrite Hdet. split; [reflexivity|]. split; [reflexivity|].
  eexists. split; [reflexivity|].
  unfold Metadata.extractTrackInfo. cbn [Metadata.audio].
  destruct (Metadata.audioTracks v) as [[|track rest]|]; cbn; discriminate.
Qed.

(** X21.  However the promise of [getVideoMetadataFromUrl] is resolved, the
    duration it reports is positive, and it reports "no audio" only together
    with the 10000 ms default duration. *)
Theorem metadata_duration_positive_and_silent_only_by_default
  (r : Metadata.Resolution) :
  0 < Metadata.durationMs (Metadata.resolvedValue r)
  /\ (Metadata.hasAudio (Metadata.resolvedValue r) = false ->
      Metadata.durationMs (Metadata.resolvedValue r) = 10000).
Proof.
  destruct r as [| | | |v]; cbn; try (split; [reflexivity | auto]).
  unfold Metadata.detectAudioAndResolve.
  cbn [Metadata.hasAudio Metadata.durationMs].
  destruct (Metadata.positive (or_default (Metadata.duration v) 0)) eqn:Hp.
  - split.
    + apply positive_iff in Hp. lra.
    + set (detected := _ || _ || _ || _). now destruct detected.
  - split; [reflexivity | auto].
Qed.

(** X22.  The track list the detection builds matches its answer: there is
    an audio entry exactly when it answers that the video has audio; when
    the browser lists audio tracks there is one entry per track, otherwise
    at most the single default one; and there is a video entry (never more
    than one) exactly when both [videoWidth] and [videoHeight] are
    non-zero. *)
Theorem metadata_tracks_match_answer (v : Metadata.Video) :
  exists tr,
    Metadata.tracks (Metadata.detectAudioAndResolve v) = Some tr
    /\ (Metadata.audio tr <> []
        <-> Metadata.hasAudio (Metadata.detectAudioAndResolve v) = true)
    /\ List.length (Metadata.audio tr)
       = match Metadata.audioTracks v with
         | Some (track :: rest) => S (List.length rest)
         | _ => if Metadata.hasAudio (Metadata.detectAudioAndResolve v)
                then 1%nat else 0%nat
         end
    /\ List.length (Metadata.video tr)
       = (if Qeq_bool (Metadata.videoWidth v) 0
             || Qeq_bool (Metadata.videoHeight v) 0
          then 0%nat else 1%nat).
Proof.
  unfold Metadata.detectAudioAndResolve.
  cbn [Metadata.tracks Metadata.hasAudio].
  eexists. split; [reflexivity|].
  unfold Metadata.extractTrackInfo. cbn [Metadata.audio Metadata.video].
  split; [|split].
  - destruct (Metadata.audioTracks v) as [[|track rest]|];
      cbn [orb andb negb].
    + match goal with
      | |- context [if ?b then [_] else []] => destruct b
      end; split; congruence.
    + rewrite !orb_true_r. cbn. split; [reflexivity | discriminate].
    + match goal with
      | |- context [if ?b then [_] else []] => destruct b
      end; split; congruence.
  - destruct (Metadata.audioTracks v) as [[|track rest]|].
    + match goal with
      | |- context [if ?b then [_] else []] => destruct b
      end; reflexivity.
    + cbn [Metadata.audioInfosFrom List.length].
      now rewrite audioInfosFrom_length.
    + match goal with
      | |- context [if ?b then [_] else []] => destruct b
      end; reflexivity.
  - destruct (Qeq_bool (Metadata.videoWidth v) 0),
      (Qeq_bool (Metadata.videoHeight v) 0); reflexivity.
Qed.

(** X23.  With a non-zero file size and a positive duration,
    [getVideoMetadataWithFileSize] keeps the duration and the audio answer,
    keeps the number of tracks, writes to every audio track the bitrate 128
    when the video has audio and 0 otherwise, and writes to the first video
    track a whole, non-negative bitrate, however small the file; the video
    tracks after the first are untouched. *)
Theorem metadata_file_size_bitrates
  (bytes : Q) (base : Metadata.t) (tr : Metadata.Tracks) :
  ~ bytes == 0 ->
  0 < Metadata.durationMs base ->
  Metadata.tracks base = Some tr ->
  let m := Metadata.withFileSize (Some bytes) base in
  Metadata.durationMs m = Metadata.durationMs base
  /\ Metadata.hasAudio m = Metadata.hasAudio base
  /\ exists tr',
       Metadata.tracks m = Some tr'
       /\ Metadata.audio tr'
          = map (Metadata.setAudioBitrate
                   (if Metadata.hasAudio base then 128 else 0))
                (Metadata.audio tr)
       /\ match Metadata.video tr with
          | [] => Metadata.video tr' = []
          | first :: rest =>
              exists b : Z,
                (0 <= b)%Z
                /\ Metadata.video tr'
                   = Metadata.setVideoBitrate (inject_Z b) first :: rest
          end.
Proof.
  intros Hbytes Hdur Htr m. unfold m, Metadata.withFileSize.
  assert (Hb : Qeq_bool bytes 0 = false).
  { apply not_true_is_false. intros H. apply Qeq_bool_iff in H.
    contradiction. }
  apply positive_iff in Hdur. rewrite Hb, Hdur, Htr. cbn [negb andb].
  cbn [Metadata.durationMs Metadata.hasAudio Metadata.tracks].
  split; [reflexivity|]. split; [reflexivity|].
  eexists. split; [reflexivity|]. cbn [Metadata.audio Metadata.video]. split.
  - destruct (Metadata.hasAudio base); reflexivity.
  - destruct (Metadata.video tr) as [|first rest]; [reflexivity|].
    eexists. split; [|reflexivity].
    apply (Z.le_trans _ (Qfloor 0)); [discriminate | apply Qfloor_resp_le].
    match goal with
    | |- 0 <= Qmax 0 ?y + _ => pose proof (Q.le_max_l 0 y) as Hmax
    end.
    lra.
Qed.

(** X24.  Without a file size, with a file size of zero, or on metadata
    whose duration is not positive, [getVideoMetadataWithFileSize] hands the
    metadata on untouched. *)
Theorem metadata_without_file_size_untouched
  (fileSizeBytes : option Q) (base : Metadata.t) :
  fileSizeBytes = None
  \/ (exists z, fileSizeBytes = Some z /\ z == 0)
  \/ Metadata.durationMs base <= 0 ->
  Metadata.withFileSize fileSizeBytes base = base.
Proof.
  unfold Metadata.withFileSize.
  intros [-> | [(z & -> & Hz) | Hdur]]; [reflexivity | |].
  - apply Qeq_bool_iff in Hz. now rewrite Hz.
  - destruct fileSizeBytes as [bytes|]; [|reflexivity].
    assert (Hp : Metadata.positive (Metadata.durationMs base) = false).
    { apply not_true_is_false. intros H. apply positive_iff in H. lra. }
    rewrite Hp. now rewrite andb_false_r.
Qed.

Lemma firstPlayable_none (play : string -> string)
  (codecs : list (string * string)) :
  Metadata.firstPlayable play codecs = None
  <-> forall mime codec, In (mime, codec) codecs -> play mime = ""%string.
Proof.
  induction codecs as [|[m c] rest IH]; simpl.
  - split; [intros _ ? ? [] | reflexivity].
  - destruct (String.eqb (play m) "") eqn:E; cbn [negb].
    + apply String.eqb_eq in E. rewrite IH. split.
      * intros H mime codec [[= <- <-] | Hin]; [exact E | eauto].
      * intros H mime codec Hin. eauto.
    + apply String.eqb_neq in E. split; [discriminate|].
      intros H. exfalso. apply E. eauto.
Qed.

Lemma firstPlayable_some (play : string -> string)
  (codecs : list (string * string)) (codec : string) :
  Metadata.firstPlayable play codecs = Some codec ->
  In codec (map snd codecs).
Proof.
  induction codecs as [|[m c] rest IH]; simpl; [discriminate|].
  destruct (negb (String.eqb (play m) "")).
  - intros [= ->]. now left.
  - intros H. right. now apply IH.
Qed.

(** X25.  The codec label is ["unknown"] exactly when the element cannot
    say what it plays or declines every entry of the table for the asked
    kind; otherwise it is a label of that table. *)
Theorem metadata_codec_unknown_iff_none_playable
  (v : Metadata.Video) (type : string) :
  let table :=
    if String.eqb type "video"
    then Metadata.videoCodecs else Metadata.audioCodecs in
  (Metadata.extractCodec v type = "unknown"%string
   <-> (Metadata.canPlayType v = None
        \/ exists play,
             Metadata.canPlayType v = Some play
             /\ forall mime codec,
                  In (mime, codec) table -> play mime = ""%string))
  /\ (Metadata.extractCodec v type <> "unknown"%string ->
      In (Metadata.extractCodec v type) (map snd table)).
Proof.
  intros table. unfold Metadata.extractCodec. fold table.
  assert (Hlabels : ~ In "unknown"%string (map snd table)).
  { unfold table. destruct (String.eqb type "video"); cbn;
      intros H; repeat (destruct H as [H | H]; [discriminate|]);
      exact H. }
  destruct (Metadata.canPlayType v) as [play|].
  - destruct (Metadata.firstPlayable play table) as [codec|] eqn:E.
    + apply firstPlayable_some in E as Hin. split.
      * split.
        -- intros ->. contradiction.
        -- intros [Hnone | (play' & [= <-] & Hall)]; [discriminate|].
           apply firstPlayable_none in Hall. congruence.
      * intros _. exact Hin.
    + split.
      * split; [|reflexivity]. intros _. right. exists play.
        split; [reflexivity|]. now apply firstPlayable_none.
      * intros H. now contradiction H.
  - split.
    + split; [now left | reflexivity].
    + intros H. now contradiction H.
Qed.

(** * Properties of the file drop *)

Section DropFacts.
Variable createObjectURL : Drop.DroppedFile -> string.
Variable addExistingAudio : Drop.AudioArgs -> Store.t -> Completion.
Variable addImageLocal : Drop.ImageArgs -> Store.t -> Completion.
Variable handleVideoUploadFromUrl : Drop.VideoArgs -> Store.t -> Completion.
Variable probedSeconds : option Q.
Variable stamp : string.

Let drop :=
  Drop.handleFileDropToTimeline createObjectURL addExistingAudio
    addImageLocal handleVideoUploadFromUrl probedSeconds stamp.

(** X26.  Every drop shows exactly one toast, whatever the store's loaders
    do: the success toast naming the file (followed by one sync line in the
    log) when the drop is accepted, one error toast when it is not.  A file
    whose type starts with none of [audio/], [image/], [video/] is refused
    with the store untouched and nothing logged. *)
Theorem drop_shows_exactly_one_toast
  (s : Store.t) (file : Drop.DroppedFile) (row : Z) (startTime : Q) :
  let o := drop s file row startTime in
  let supported :=
    String.prefix "audio/" (Drop.type file)
    || String.prefix "image/" (Drop.type file)
    || String.prefix "video/" (Drop.type file) in
  (Drop.accepted o = true ->
   supported = true
   /\ Drop.toasts o
      = [Drop.ToastSuccess
           ("Added " ++ Drop.name file ++ " to timeline")%string]
   /\ exists line, Drop.logged o = [line])
  /\ (Drop.accepted o = false -> exists msg, Drop.toasts o = [Drop.ToastError msg])
  /\ (supported = false ->
      Drop.accepted o = false
      /\ Drop.store o = s
      /\ Drop.toasts o
         = [Drop.ToastError
              ("Unsupported file type: "
               ++ Metadata.orString (Drop.type file) (Drop.name file))%string]
      /\ Drop.logged o = []).
Proof.
  intros o supported. unfold o, supported, drop, Drop.handleFileDropToTimeline.
  destruct (String.prefix "audio/" (Drop.type file)) eqn:Ea;
    [|destruct (String.prefix "image/" (Drop.type file)) eqn:Ei;
      [|destruct (String.prefix "video/" (Drop.type file)) eqn:Ev]];
    cbn [orb].
  - unfold Drop.addAudioToTimeline.
    destruct (addExistingAudio _ s); cbn;
      repeat split; try discriminate; eauto.
  - unfold Drop.addImageToTimeline.
    destruct (addImageLocal _ s); cbn;
      repeat split; try discriminate; eauto.
  - unfold Drop.addVideoToTimeline.
    destruct (handleVideoUploadFromUrl _ s); cbn;
      repeat split; try discriminate; eauto.
  - cbn. repeat split; try discriminate; eauto.
Qed.

(** X27.  The drop zone's label and the drop handler agree on what a media
    file is: the overlay falls back on the label ["Media"] exactly for the
    files the handler refuses as unsupported. *)
Theorem drop_label_media_iff_unsupported
  (s : Store.t) (file : Drop.DroppedFile) (row : Z) (startTime : Q) :
  Drop.getFileTypeLabel (Some (Drop.type file)) = "Media"%string
  <-> Drop.toasts (drop s file row startTime)
      = [Drop.ToastError
           ("Unsupported file type: "
            ++ Metadata.orString (Drop.type file) (Drop.name file))%string].
Proof.
  unfold drop, Drop.handleFileDropToTimeline, Drop.getFileTypeLabel.
  destruct (String.prefix "audio/" (Drop.type file)) eqn:Ea;
    destruct (String.prefix "image/" (Drop.type file)) eqn:Ei;
    destruct (String.prefix "video/" (Drop.type file)) eqn:Ev;
    try (split; [discriminate|]);
    try (split; reflexivity).
  all: try (unfold Drop.addAudioToTimeline;
            destruct (addExistingAudio _ s); cbn; discriminate).
  all: try (unfold Drop.addImageToTimeline;
            destruct (addImageLocal _ s); cbn; discriminate).
  all: try (unfold Drop.addVideoToTimeline;
            destruct (handleVideoUploadFromUrl _ s); cbn; discriminate).
Qed.

End DropFacts.

(** * Properties of the ghost element's placement *)

(** X28.  The ghost is never thinner than one unit (pixel or percent), and
    before any row has been measured the fallback rows tile the full height:
    with a non-zero number of rows, a row's top plus its height is the next
    row's top, and all the rows together are 100% high. *)
Theorem ghost_placement_width_and_rows
  (left width row totalRows : Q)
  (rowPosition : option GhostPlacement.RowPosition)
  (overlayMetrics : option GhostPlacement.OverlayMetrics) :
  1 <= GhostPlacement.widthOf
         (GhostPlacement.style left width row totalRows rowPosition
                               overlayMetrics)
  /\ (rowPosition = None -> ~ totalRows == 0 ->
      exists l w t h t',
        GhostPlacement.style left width row totalRows rowPosition
                             overlayMetrics
        = GhostPlacement.PercentFallback l w t h
        /\ GhostPlacement.style left width (row + 1) totalRows rowPosition
                                overlayMetrics
           = GhostPlacement.PercentFallback l w t' h
        /\ t + h == t'
        /\ h * totalRows == 100).
Proof.
  split.
  - unfold GhostPlacement.style.
    destruct rowPosition as [rp|]; [destruct overlayMetrics as [om|]|]; cbn.
    + apply Q.le_max_l.
    + apply Q.le_max_r.
    + apply Q.le_max_r.
  - intros -> Hrows. unfold GhostPlacement.style.
    do 5 eexists. split; [reflexivity|]. split; [reflexivity|].
    split; field; exact Hrows.
Qed.

(** * The further properties at the sample inputs *)

Lemma cut_clip_identities_witness :
  exists store' firstClip secondClip,
    cutTimelineElement Sample.store "v1" 4000 "fresh" = (CutApplied, store')
    /\ producedClips Sample.store store' "v1" = Some (firstClip, secondClip)
    /\ Element.id firstClip = "v1"%string
    /\ Element.id secondClip = "fresh"%string.
Proof.
  destruct (cut_clip_identities Sample.store "v1" 4000 "fresh"
              Sample.videoElement)
    as (store' & f & g & Hcut & Hclips & Hf & Hg & _).
  - reflexivity.
  - split; reflexivity.
  - exists store', f, g. auto.
Defined.

Lemma cut_rewrites_in_place_witness :
  exists store' firstClip secondClip before after,
    cutTimelineElement Sample.store "a1" 4000 "fresh" = (CutApplied, store')
    /\ Store.editorElements Sample.store
       = before ++ Sample.audioElement :: after
    /\ Store.editorElements store'
       = before ++ [firstClip; secondClip]
         ++ filter (fun el => negb (String.eqb (Element.id el) "a1")) after.
Proof.
  destruct (cut_rewrites_in_place Sample.store "a1" 4000 "fresh"
              Sample.audioElement)
    as (store' & f & g & before & after & Hcut & _ & Hsplit & _ & Hnew).
  - reflexivity.
  - split; reflexivity.
  - exists store', f, g, before, after. auto.
Defined.

Lemma cut_unique_ids_replaces_one_witness :
  exists store' firstClip secondClip,
    cutTimelineElement Sample.store "t1" 2200 "fresh" = (CutApplied, store')
    /\ producedClips Sample.store store' "t1" = Some (firstClip, secondClip)
    /\ List.length (Store.editorElements store') = 5%nat.
Proof.
  destruct (cut_unique_ids_replaces_one Sample.store "t1" 2200 "fresh"
              Sample.textElement)
    as (store' & f & g & before & after & Hcut & Hclips & _ & _ & Hlen).
  - repeat constructor; cbn; intuition discriminate.
  - reflexivity.
  - split; reflexivity.
  - exists store', f, g. auto.
Defined.

Lemma cut_then_lookup_witness :
  exists store' firstClip secondClip,
    cutTimelineElement Sample.store "a1" 4000 "fresh" = (CutApplied, store')
    /\ find (hasId "a1") (Store.editorElements store') = Some firstClip
    /\ find (hasId "fresh") (Store.editorElements store') = Some secondClip.
Proof.
  destruct (cut_then_lookup Sample.store "a1" 4000 "fresh"
              Sample.audioElement)
    as (store' & f & g & Hcut & _ & Hfirst & _ & Hsecond).
  - reflexivity.
  - split; reflexivity.
  - exists store', f, g. split; [exact Hcut|]. split; [exact Hfirst|].
    apply Hsecond; [discriminate | reflexivity].
Defined.

Lemma cut_keeps_properties_of_other_types_witness :
  exists store' firstClip secondClip,
    cutTimelineElement SampleMore.store "i1" 3000 "fresh"
    = (CutApplied, store')
    /\ producedClips SampleMore.store store' "i1"
       = Some (firstClip, secondClip)
    /\ Element.properties firstClip
       = Element.properties SampleMore.imageElement
    /\ Element.properties secondClip
       = Element.properties SampleMore.imageElement.
Proof.
  apply (cut_keeps_properties_of_other_types SampleMore.store "i1" 3000
           "fresh" SampleMore.imageElement).
  - reflexivity.
  - split; reflexivity.
  - left. repeat split; discriminate.
Defined.

Lemma cut_video_without_sourceDuration_witness :
  exists store' firstClip secondClip s1 d1 s2 d2,
    cutTimelineElement SampleMore.store "v2" 3000 "fresh"
    = (CutApplied, store')
    /\ producedClips SampleMore.store store' "v2"
       = Some (firstClip, secondClip)
    /\ getSourceStartTime firstClip = Some s1
    /\ getSourceDuration firstClip = Some d1
    /\ getSourceStartTime secondClip = Some s2
    /\ getSourceDuration secondClip = Some d2
    /\ d1 == 3000 /\ d2 == 5000 /\ s2 == s1 + 3000.
Proof.
  destruct (cut_video_without_sourceDuration SampleMore.store "v2" 3000
              "fresh" SampleMore.bareVideo SampleMore.bareVideoProperties)
    as (store' & f & g & s1 & d1 & s2 & d2 & Hcut & Hclips
        & Hs1 & Hd1 & Hs2 & Hd2 & E1 & E2 & E3).
  - reflexivity.
  - split; reflexivity.
  - reflexivity.
  - reflexivity.
  - left. reflexivity.
  - exists store', f, g, s1, d1, s2, d2.
    do 6 (split; [assumption|]).
    cbn [SampleMore.bareVideo Element.timeFrame TimeFrame.start
         TimeFrame.end_] in E1, E2, E3.
    split; [rewrite E1; vm_compute; reflexivity|].
    split; [rewrite E2; vm_compute; reflexivity|].
    rewrite E3. ring.
Defined.

Lemma cut_video_source_durations_positive_witness :
  exists store' firstClip secondClip s1 d1 d2,
    cutTimelineElement Sample.store "v1" 4000 "fresh" = (CutApplied, store')
    /\ producedClips Sample.store store' "v1" = Some (firstClip, secondClip)
    /\ getSourceStartTime firstClip = Some s1
    /\ getSourceDuration firstClip = Some d1
    /\ getSourceDuration secondClip = Some d2
    /\ s1 = 0 /\ 0 < d1 /\ 0 < d2.
Proof.
  destruct (cut_video_source_durations_positive Sample.store "v1" 4000
              "fresh" Sample.videoElement Sample.videoProperties 10000)
    as (store' & f & g & s1 & d1 & s2 & d2 & Hcut & Hclips
        & Hs1 & Hd1 & _ & Hd2 & Es1 & P1 & _ & P2 & _).
  - reflexivity.
  - split; reflexivity.
  - reflexivity.
  - reflexivity.
  - reflexivity.
  - reflexivity.
  - exists store', f, g, s1, d1, d2. auto 10.
Defined.

Lemma cut_twice_three_clips_witness :
  exists store1 store2 a b c,
    cutTimelineElement Sample.store "v1" 4000 "second" = (CutApplied, store1)
    /\ cutTimelineElement store1 "v1" 2000 "third" = (CutApplied, store2)
    /\ nth_error (Store.editorElements store2) 0 = Some a
    /\ nth_error (Store.editorElements store2) 1 = Some b
    /\ nth_error (Store.editorElements store2) 2 = Some c
    /\ Element.timeFrame a = TimeFrame.mk 0 2000
    /\ Element.timeFrame b = TimeFrame.mk 2000 4000
    /\ Element.timeFrame c = TimeFrame.mk 4000 10000.
Proof.
  destruct (cut_twice_three_clips Sample.store "v1" 2000 4000 "second"
              "third" Sample.videoElement 0)
    as (store1 & store2 & a & b & c & H1 & H2 & Ha & Hb & Hc & _ & _ & _
        & Ta & Tb & Tc).
  - reflexivity.
  - reflexivity.
  - reflexivity.
  - reflexivity.
  - reflexivity.
  - discriminate.
  - exists store1, store2, a, b, c. auto 10.
Defined.

Lemma ghost_ops_keep_consistency_witness :
  ghostConsistent
    (Store.ghostState (runGhostOps Sample.gestures Sample.store)).
Proof.
  apply (ghost_ops_keep_consistency Sample.gestures Sample.store).
  - left. reflexivity.
  - repeat constructor.
Defined.

Lemma ghost_drag_without_commit_restores_store_witness :
  runGhostOps
    (StartDrag "clip.mp4"%string "video" 5000
     :: SampleMore.moves ++ [FinishDrag 1500 0 None])
    Sample.store
  = Sample.store.
Proof.
  apply (ghost_drag_without_commit_restores_store Sample.store
           "clip.mp4"%string "video" 5000 1500 0 SampleMore.moves).
  - reflexivity.
  - repeat constructor.
Defined.

Lemma scrollbar_resize_round_trip_witness :
  Scrollbar.handleWidth (resizeScale 100 50 600) 600 == 150.
Proof.
  assert (H : Qmax 20 (100 + 50) == 150) by (vm_compute; reflexivity).
  rewrite <- H.
  apply (scrollbar_resize_round_trip 100 50 600).
  - reflexivity.
  - apply Qle_bool_iff. reflexivity.
  - apply Qle_bool_iff. reflexivity.
Defined.

Lemma scrollbar_handle_width_bounds_witness :
  (1 # 50) * 600 <= Scrollbar.handleWidth 5 600
  /\ Scrollbar.handleWidth 5 600 <= 600.
Proof.
  apply (scrollbar_handle_width_bounds 5 600).
  apply Qle_bool_iff. reflexivity.
Defined.

Lemma scrollbar_resize_scale_antitone_witness :
  resizeScale 100 50 600 <= resizeScale 100 10 600.
Proof.
  apply (scrollbar_resize_scale_antitone 100 10 50 600).
  - reflexivity.
  - apply Qle_bool_iff. reflexivity.
Defined.

Lemma scrollbar_drag_stays_in_range_witness :
  0 <= Scrollbar.dragLeft SampleMore.scrollbarState
         SampleMore.scrollbarGeometry 900
  /\ Scrollbar.dragLeft SampleMore.scrollbarState
       SampleMore.scrollbarGeometry 900 <= 600 - 150
  /\ exists v,
       Scrollbar.dragScroll SampleMore.scrollbarState
         SampleMore.scrollbarGeometry 900 = Some v
       /\ 0 <= v /\ v <= 2400 - 600.
Proof.
  destruct (scrollbar_drag_stays_in_range SampleMore.scrollbarState
              SampleMore.scrollbarGeometry 900) as [Hin _].
  apply Hin.
  - reflexivity.
  - apply Qle_bool_iff. reflexivity.
Defined.

Lemma scrollbar_animation_settles_witness :
  exists n,
    Scrollbar.animationFrame (runFrames n SampleMore.animation) = false
    /\ Qabs (Scrollbar.currentLeft (runFrames n SampleMore.animation)
             - Scrollbar.targetLeft (runFrames n SampleMore.animation))
       <= 1 # 10
    /\ Scrollbar.targetLeft (runFrames n SampleMore.animation) = 100.
Proof.
  apply (scrollbar_animation_settles SampleMore.animation). reflexivity.
Defined.

Lemma canvas_drop_keeps_selected_inside_witness :
  let st' := Canvas.handleMouseUp (Some (800, 500)) SampleMore.draggedOutState
  in
  Canvas.isDragging st' = false
  /\ forall item,
       In item (Canvas.items st') ->
       0 <= Canvas.x item /\ Canvas.x item + Canvas.width item <= 800.
Proof.
  destruct (canvas_drop_keeps_selected_inside SampleMore.draggedOutState
              800 500 eq_refl) as (Hdrag & _ & Hitems & Hinside & _).
  split; [exact Hdrag|].
  intros item Hin.
  destruct (Hinside item Hin) as [Hx _].
  - rewrite Hitems in Hin. cbn in Hin.
    destruct Hin as [<- | []]. reflexivity.
  - apply Hx. rewrite Hitems in Hin. cbn in Hin.
    destruct Hin as [<- | []]. apply Qle_bool_iff. reflexivity.
Defined.

Lemma canvas_select_then_move_translates_witness :
  exists moved,
    find (Canvas.hasId "media-1") (Canvas.items SampleMore.draggedOutState)
    = Some moved
    /\ Canvas.x moved == 100 + (900 - 150)
    /\ Canvas.y moved == 100 + (-50 - 150).
Proof.
  destruct (canvas_select_then_move_translates SampleMore.canvasState
              "media-1" SampleMore.mediaItem 150 150 900 (-50))
    as (moved & Hfind & Hx & Hy & _).
  - reflexivity.
  - discriminate.
  - exists moved. auto.
Defined.

Lemma canvas_snap_back_inside_witness :
  0 <= -30 + (Canvas.snapBack 70 (-30) 200 800 - 70)
  /\ Canvas.snapBack 70 10 200 800 = 70.
Proof.
  destruct (canvas_snap_back_inside 70 (-30) 200 800) as [Hin _].
  destruct (canvas_snap_back_inside 70 10 200 800) as [_ Hstay].
  split.
  - apply Hin. apply Qle_bool_iff. reflexivity.
  - apply Hstay; apply Qle_bool_iff; reflexivity.
Defined.

Lemma metadata_positive_duration_means_audio_witness :
  Metadata.hasAudio (Metadata.detectAudioAndResolve SampleMore.silentProbe)
  = true
  /\ Metadata.durationMs
       (Metadata.detectAudioAndResolve SampleMore.silentProbe)
     = 12 * 1000.
Proof.
  destruct (metadata_positive_duration_means_audio SampleMore.silentProbe 12)
    as (Haudio & Hms & _).
  - reflexivity.
  - reflexivity.
  - split; [exact Haudio | exact Hms].
Defined.

Lemma metadata_duration_positive_and_silent_only_by_default_witness :
  Metadata.hasAudio
    (Metadata.resolvedValue (Metadata.Detected SampleMore.unknownDuration))
  = false
  /\ Metadata.durationMs
       (Metadata.resolvedValue (Metadata.Detected SampleMore.unknownDuration))
     = 10000.
Proof.
  destruct (metadata_duration_positive_and_silent_only_by_default
              (Metadata.Detected SampleMore.unknownDuration)) as [_ Hsilent].
  split; [reflexivity | apply Hsilent; reflexivity].
Defined.

Lemma metadata_file_size_bitrates_witness :
  exists tr' first,
    Metadata.tracks
      (Metadata.withFileSize (Some 3000000)
         (Metadata.detectAudioAndResolve SampleMore.silentProbe))
    = Some tr'
    /\ Metadata.video tr' = [first]
    /\ Metadata.vBitrate first = Some 1872
    /\ map Metadata.aBitrate (Metadata.audio tr') = [Some 128].
Proof.
  destruct (metadata_file_size_bitrates 3000000
              (Metadata.detectAudioAndResolve SampleMore.silentProbe)
              (Metadata.extractTrackInfo SampleMore.silentProbe true))
    as (_ & _ & tr' & Htr & Haudio & Hvideo).
  - intros H. vm_compute in H. discriminate.
  - reflexivity.
  - reflexivity.
  - pose proof Htr as Hcomputed. vm_compute in Hcomputed.
    injection Hcomputed as <-.
    eexists. eexists. split; [exact Htr|]. repeat split.
Defined.

Lemma metadata_without_file_size_untouched_witness :
  Metadata.withFileSize None
    (Metadata.detectAudioAndResolve SampleMore.silentProbe)
  = Metadata.detectAudioAndResolve SampleMore.silentProbe
  /\ Metadata.withFileSize (Some 3000000)
       (Metadata.resolvedValue Metadata.TimedOut)
     <> Metadata.mk 10000 false (Some (Metadata.mkTracks [] [])).
Proof.
  split.
  - apply (metadata_without_file_size_untouched None). now left.
  - discriminate.
Defined.

Lemma metadata_codec_unknown_iff_none_playable_witness :
  Metadata.extractCodec SampleMore.silentProbe "video" = "VP8"%string
  /\ Metadata.extractCodec SampleMore.silentProbe "audio" = "unknown"%string.
Proof.
  split; [reflexivity|].
  apply (metadata_codec_unknown_iff_none_playable SampleMore.silentProbe
           "audio").
  right. eexists. split; [reflexivity|].
  intros mime codec Hin. cbn in Hin.
  repeat (destruct Hin as [[= <- <-] | Hin]; [reflexivity|]).
  destruct Hin.
Defined.

Lemma drop_shows_exactly_one_toast_witness :
  Drop.accepted (SampleMore.drop Sample.store SampleMore.song 1 0) = true
  /\ Drop.toasts (SampleMore.drop Sample.store SampleMore.song 1 0)
     = [Drop.ToastSuccess "Added song.mp3 to timeline"]
  /\ Drop.accepted (SampleMore.drop Sample.store SampleMore.notes 1 0)
     = false
  /\ Drop.store (SampleMore.drop Sample.store SampleMore.notes 1 0)
     = Sample.store.
Proof.
  destruct (drop_shows_exactly_one_toast SampleMore.objectUrl
              SampleMore.audioLoader SampleMore.imageLoader
              SampleMore.videoLoader (Some 3) "1700000000000-abc123xyz"
              Sample.store SampleMore.song 1 0) as (Hyes & _ & _).
  destruct (drop_shows_exactly_one_toast SampleMore.objectUrl
              SampleMore.audioLoader SampleMore.imageLoader
              SampleMore.videoLoader (Some 3) "1700000000000-abc123xyz"
              Sample.store SampleMore.notes 1 0) as (_ & _ & Hno).
  destruct (Hyes eq_refl) as (_ & Htoast & _).
  destruct (Hno eq_refl) as (Hrefused & Hstore & _).
  split; [reflexivity|]. split; [exact Htoast|].
  split; [exact Hrefused | exact Hstore].
Defined.

Lemma ghost_placement_width_and_rows_witness :
  exists l w t h t',
    GhostPlacement.style 10 (1 # 4) 3 10 None None
    = GhostPlacement.PercentFallback l w t h
    /\ GhostPlacement.style 10 (1 # 4) (3 + 1) 10 None None
       = GhostPlacement.PercentFallback l w t' h
    /\ 1 <= w /\ t + h == t' /\ h * 10 == 100.
Proof.
  destruct (ghost_placement_width_and_rows 10 (1 # 4) 3 10 None None)
    as [Hw Hrows].
  destruct (Hrows eq_refl) as (l & w & t & h & t' & H1 & H2 & H3 & H4).
  - intros H. vm_compute in H. discriminate.
  - exists l, w, t, h, t'. split; [exact H1|]. split; [exact H2|].
    split; [|split; [exact H3 | exact H4]].
    rewrite H1 in Hw. exact Hw.
Defined.

(** * One mouse move on the scrollbar *)

(** X29.  A mouse move outside a drag and a resize writes nothing.  During
    a resize the handle's style width is at least 20, the scale handed to
    [setCurrentScale] lies in [[1, 29.5]], and it makes no difference
    whether the left or the right edge was grabbed; a resize alone never
    moves the handle or scrolls the content. *)
Theorem scrollbar_mouse_move_effects
  (st : Scrollbar.State) (g : Scrollbar.Geometry) (clientX : Q) :
  let withEdge e :=
    Scrollbar.mkState (Scrollbar.isDragging st) (Some e)
                      (Scrollbar.dragStartX st) (Scrollbar.dragStartLeft st)
                      (Scrollbar.initialHandleLeft st)
                      (Scrollbar.initialHandleWidth st) in
  (Scrollbar.isDragging st = false -> Scrollbar.isResizing st = None ->
   Scrollbar.handleMouseMove st g clientX = Scrollbar.noEffects)
  /\ (forall e, Scrollbar.isResizing st = Some e ->
      exists w scale,
        Scrollbar.newStyleWidth (Scrollbar.handleMouseMove st g clientX)
        = Some w
        /\ Scrollbar.newScale (Scrollbar.handleMouseMove st g clientX)
           = Some scale
        /\ 20 <= w /\ zoomInRange scale)
  /\ Scrollbar.handleMouseMove (withEdge Scrollbar.left) g clientX
     = Scrollbar.handleMouseMove (withEdge Scrollbar.right) g clientX
  /\ (Scrollbar.isDragging st = false ->
      Scrollbar.newTargetLeft (Scrollbar.handleMouseMove st g clientX) = None
      /\ Scrollbar.newScrollLeft (Scrollbar.handleMouseMove st g clientX)
         = None).
Proof.
  intros withEdge. unfold Scrollbar.handleMouseMove. split; [|split; [|split]].
  - intros -> ->. reflexivity.
  - intros e ->. do 2 eexists.
    destruct (Scrollbar.isDragging st); cbn;
      (split; [reflexivity|]); (split; [reflexivity|]);
      (split; [apply Q.le_max_l | apply resizeScale_in_range]).
  - unfold withEdge. cbn. destruct (Scrollbar.isDragging st); reflexivity.
  - intros ->. destruct (Scrollbar.isResizing st); split; reflexivity.
Qed.

Lemma scrollbar_mouse_move_effects_witness :
  Scrollbar.handleMouseMove (Scrollbar.mkState false None 200 40 40 150)
                            SampleMore.scrollbarGeometry 260
  = Scrollbar.noEffects
  /\ exists w scale,
       Scrollbar.newStyleWidth
         (Scrollbar.handleMouseMove
            (Scrollbar.mkState false (Some Scrollbar.left) 200 40 40 150)
            SampleMore.scrollbarGeometry 260)
       = Some w
       /\ Scrollbar.newScale
            (Scrollbar.handleMouseMove
               (Scrollbar.mkState false (Some Scrollbar.left) 200 40 40 150)
               SampleMore.scrollbarGeometry 260)
          = Some scale
       /\ 20 <= w /\ zoomInRange scale.
Proof.
  destruct (scrollbar_mouse_move_effects
              (Scrollbar.mkState false None 200 40 40 150)
              SampleMore.scrollbarGeometry 260) as (Hnone & _).
  destruct (scrollbar_mouse_move_effects
              (Scrollbar.mkState false (Some Scrollbar.left) 200 40 40 150)
              SampleMore.scrollbarGeometry 260) as (_ & Hresize & _).
  split.
  - apply Hnone; reflexivity.
  - apply (Hresize Scrollbar.left). reflexivity.
Defined.

(** * The cut engine on doubles *)

Module DoubleFacts.
Import Floats.
Local Open Scope float_scope.

Lemma SFcompare_Lt_swap (a b : SpecFloat.spec_float) :
  SpecFloat.SFcompare a b = Some Lt -> SpecFloat.SFcompare b a = Some Gt.
Proof.
  destruct a as [sa|sa| |sa ma ea], b as [sb|sb| |sb mb eb]; cbn;
    try destruct sa; try destruct sb; try discriminate; try reflexivity.
  - rewrite (Z.compare_antisym ea eb).
    destruct (ea ?= eb)%Z eqn:E; cbn; try discriminate; try reflexivity.
    pose proof (Pos.compare_cont_antisym ma mb Eq) as Hanti.
    cbn [CompOpp] in Hanti. rewrite <- Hanti.
    destruct (Pos.compare_cont Eq ma mb); cbn; try discriminate; reflexivity.
  - rewrite (Z.compare_antisym ea eb).
    destruct (ea ?= eb)%Z eqn:E; cbn; try discriminate; try reflexivity.
    pose proof (Pos.compare_cont_antisym ma mb Eq) as Hanti.
    cbn [CompOpp] in Hanti. rewrite <- Hanti.
    destruct (Pos.compare_cont Eq ma mb); cbn; try discriminate; reflexivity.
Qed.

Lemma SFcompare_swap (a b : SpecFloat.spec_float) :
  SpecFloat.SFcompare b a = option_map CompOpp (SpecFloat.SFcompare a b).
Proof.
  destruct a as [sa|sa| |sa ma ea], b as [sb|sb| |sb mb eb]; cbn;
    try destruct sa; try destruct sb; try reflexivity.
  - rewrite (Z.compare_antisym ea eb).
    destruct (ea ?= eb)%Z eqn:E; cbn; try reflexivity.
    pose proof (Pos.compare_cont_antisym ma mb Eq) as Hanti.
    cbn [CompOpp] in Hanti.
    destruct (Pos.compare_cont Eq ma mb), (Pos.compare_cont Eq mb ma);
      cbn in *; try reflexivity; discriminate.
  - rewrite (Z.compare_antisym ea eb).
    destruct (ea ?= eb)%Z eqn:E; cbn; try reflexivity.
    pose proof (Pos.compare_cont_antisym ma mb Eq) as Hanti.
    cbn [CompOpp] in Hanti.
    destruct (Pos.compare_cont Eq ma mb), (Pos.compare_cont Eq mb ma);
      cbn in *; try reflexivity; discriminate.
Qed.

Lemma is_nan_false (x : float) :
  is_nan x = false -> Prim2SF x <> SpecFloat.S754_nan.
Proof.
  unfold is_nan. rewrite eqb_spec. intros H E. rewrite E in H.
  discriminate H.
Qed.

(** Doubles other than [NaN] are totally ordered: when [x < y] fails,
    [y <= x] holds. *)
Lemma not_ltb_leb (x y : float) :
  is_nan x = false -> is_nan y = false ->
  (x <? y) = false -> (y <=? x) = true.
Proof.
  intros Hx Hy. apply is_nan_false in Hx, Hy.
  rewrite ltb_spec, leb_spec. unfold SpecFloat.SFltb, SpecFloat.SFleb.
  rewrite (SFcompare_swap (Prim2SF x) (Prim2SF y)).
  destruct (Prim2SF x) as [sa|sa| |sa ma ea], (Prim2SF y) as [sb|sb| |sb mb eb];
    try contradiction;
    destruct (SpecFloat.SFcompare _ _) as [[| |]|] eqn:E; cbn;
    try reflexivity; try discriminate;
    exfalso; revert E; cbn;
    try destruct sa; try destruct sb; try discriminate;
    destruct (ea ?= eb)%Z; try discriminate;
    destruct (Pos.compare_cont Eq ma mb); discriminate.
Qed.

Lemma SFcompare_refl (a : SpecFloat.spec_float) :
  a <> SpecFloat.S754_nan -> SpecFloat.SFcompare a a = Some Eq.
Proof.
  destruct a as [sa|sa| |sa ma ea]; cbn; try destruct sa; try reflexivity;
    try contradiction; intros _;
    rewrite Z.compare_refl, Pos.compare_cont_refl; reflexivity.
Qed.

(** Only numbers other than [NaN] compare as smaller or larger. *)
Lemma ltb_not_nan (x y : float) :
  (x <? y) = true -> is_nan x = false /\ is_nan y = false.
Proof.
  rewrite ltb_spec. unfold is_nan. rewrite !eqb_spec.
  unfold SpecFloat.SFltb, SpecFloat.SFeqb. intros H.
  assert (Hx : Prim2SF x <> SpecFloat.S754_nan).
  { intros E. rewrite E in H. discriminate H. }
  assert (Hy : Prim2SF y <> SpecFloat.S754_nan).
  { intros E. rewrite E in H.
    destruct (Prim2SF x) as [[|]|[|]| |[|] m e]; discriminate H. }
  now rewrite (SFcompare_refl _ Hx), (SFcompare_refl _ Hy).
Qed.

(** On doubles [x < y] excludes [y <= x]. *)
Lemma ltb_excludes_leb (x y : float) : (x <? y) = true -> (y <=? x) = false.
Proof.
  rewrite ltb_spec, leb_spec. unfold SpecFloat.SFltb, SpecFloat.SFleb.
  destruct (SpecFloat.SFcompare (Prim2SF x) (Prim2SF y)) as [[| |]|] eqn:E;
    try discriminate.
  intros _. now rewrite (SFcompare_Lt_swap _ _ E).
Qed.

Lemma strictlyInside_passes_guard (element : Double.Element.t)
  (cutTime : Double.JsNum) :
  Double.strictlyInside element cutTime = true ->
  Double.outsideTimeFrame (Double.Element.timeFrame element) cutTime = false.
Proof.
  unfold Double.strictlyInside, Double.outsideTimeFrame.
  intros H. apply andb_true_iff in H. destruct H as [H1 H2].
  now rewrite (ltb_excludes_leb _ _ H1), (ltb_excludes_leb _ _ H2).
Qed.

(** A cut that passes the guard is applied and leaves its two clips at the
    original's index and the next. *)
Lemma cut_applied_when_guard_passes (store : Double.Store.t)
  (elementId : string) (cutTime : Double.JsNum) (uuid : string)
  (element : Double.Element.t) :
  find (Double.hasId elementId) (Double.Store.editorElements store)
  = Some element ->
  Double.outsideTimeFrame (Double.Element.timeFrame element) cutTime = false ->
  exists store',
    Double.cutTimelineElement store elementId cutTime uuid
    = (CutApplied, store')
    /\ Double.producedClips store store' elementId
       = Some (Double.cutClips element cutTime uuid).
Proof.
  intros Hfind Hguard.
  destruct (findIndex_of_find _ _ _ Hfind) as (i & Hi & Hn & Hp & Hl & Hf).
  unfold Double.cutTimelineElement. rewrite Hfind, Hguard.
  fold (Double.cutClips element cutTime uuid).
  destruct (Double.cutClips element cutTime uuid) as [f g].
  rewrite Hi. eexists. split; [reflexivity|].
  unfold Double.producedClips. rewrite Hi.
  unfold Double.Store.refreshElements, Double.Store.setSelectedElement.
  cbn [Double.Store.editorElements].
  rewrite (removal_then_splice _ _ _ _ _ Hfind Hi).
  pose proof (nth_error_after_prefix
                (firstn i (Double.Store.editorElements store))
                (filter (fun y => negb (Double.hasId elementId y))
                        (skipn (S i) (Double.Store.editorElements store)))
                f g) as [Ha Hb].
  rewrite Hl in Ha, Hb. now rewrite Ha, Hb.
Qed.

Lemma cutClips_text_words (element : Double.Element.t)
  (cutTime : Double.JsNum) (uuid : string) (p : Double.Properties.t)
  (ws : list Double.Word.t) :
  Double.Element.type element = "text"%string ->
  Double.Element.properties element = Some p ->
  Double.Properties.words p = Some ws ->
  Double.getWords (fst (Double.cutClips element cutTime uuid))
  = Some (filter (Double.endsBy (Double.recomputedCutTime element cutTime))
                 ws)
  /\ Double.getWords (snd (Double.cutClips element cutTime uuid))
     = Some (map (Double.shiftWord (Double.cutPositionOf element cutTime))
                 (filter (Double.startsFrom
                            (Double.recomputedCutTime element cutTime))
                         ws)).
Proof.
  intros Hty Hp Hws. unfold Double.cutClips, Double.adjustElementPropertiesForCut.
  rewrite Hty. cbn [String.eqb Ascii.eqb Bool.eqb orb].
  unfold Double.adjustTextElementForCut. rewrite Hp, Hws.
  unfold Double.getWords, Double.with_properties.
  cbn [fst snd Double.Element.properties Double.Properties.words].
  rewrite !nonempty_or_nil. split; reflexivity.
Qed.

(** A list and its members passing both tests, against the members passing
    the first, those passing the second and those passing neither. *)
Lemma two_filters_account {A : Type} (p1 p2 : A -> bool) (l : list A) :
  Permutation
    (l ++ filter (fun x => p1 x && p2 x) l)
    (filter p1 l ++ filter p2 l
     ++ filter (fun x => negb (p1 x) && negb (p2 x)) l).
Proof.
  induction l as [|x l IH]; simpl; [constructor|].
  destruct (p1 x), (p2 x); simpl.
  - constructor. now apply Permutation_elt.
  - now constructor.
  - now apply Permutation_cons_app.
  - rewrite app_assoc. apply Permutation_cons_app.
    now rewrite <- app_assoc.
Qed.

(** C2.  The guard of line 21 lets a cut time through that is not a number:
    on the sample store the video "v1" runs from 0 to 10000; with [NaN] for
    [cutTime], and likewise with the argument omitted, the cut time is not
    strictly between start and end, yet the cut is applied and the list
    rewritten, with [NaN] written into both clips' time frames; the
    number 10000, which is not strictly inside either, is refused with the
    store unchanged. *)
Theorem cut_with_nan_cutTime_is_applied :
  Double.strictlyInside Double.videoElement (Double.Num nan) = false
  /\ fst (Double.cutTimelineElement Double.sampleStore "v1" (Double.Num nan)
                                    "fresh")
     = CutApplied
  /\ List.length
       (Double.Store.editorElements
          (snd (Double.cutTimelineElement Double.sampleStore "v1"
                                          (Double.Num nan) "fresh")))
     = S (List.length (Double.Store.editorElements Double.sampleStore))
  /\ option_map
       (fun clips => (Double.Element.timeFrame (fst clips),
                      Double.Element.timeFrame (snd clips)))
       (Double.producedClips Double.sampleStore
          (snd (Double.cutTimelineElement Double.sampleStore "v1"
                                          (Double.Num nan) "fresh"))
          "v1")
     = Some (Double.TimeFrame.mk (Double.Num 0) (Double.Num nan),
             Double.TimeFrame.mk (Double.Num nan) (Double.Num 10000))
  /\ Double.strictlyInside Double.videoElement Double.Undefined = false
  /\ fst (Double.cutTimelineElement Double.sampleStore "v1" Double.Undefined
                                    "fresh")
     = CutApplied
  /\ Double.cutTimelineElement Double.sampleStore "v1" (Double.Num 10000)
                               "fresh"
     = (CutTimeOutOfRange, Double.sampleStore).
Proof.
  repeat split; vm_compute; reflexivity.
Qed.

(** X30.  On doubles the refusals of C2 hold for numbers: a cut on an id no
    element carries returns at the first warning with the store as it was;
    and when the cut time and the start and end of the element found are
    numbers other than [NaN], a cut time that is not strictly between start
    and end returns at the second warning with the store as it was, while
    one that is strictly between is applied. *)
Theorem cut_refuses_numbers_outside
  (store : Double.Store.t) (elementId : string) (cutTime : Double.JsNum)
  (uuid : string) :
  (find (Double.hasId elementId) (Double.Store.editorElements store) = None ->
   Double.cutTimelineElement store elementId cutTime uuid
   = (ElementNotFound, store))
  /\ (forall element,
        find (Double.hasId elementId) (Double.Store.editorElements store)
        = Some element ->
        is_nan (Double.toNumber cutTime) = false ->
        is_nan (Double.toNumber
                  (Double.TimeFrame.start (Double.Element.timeFrame element)))
        = false ->
        is_nan (Double.toNumber
                  (Double.TimeFrame.end_ (Double.Element.timeFrame element)))
        = false ->
        if Double.strictlyInside element cutTime
        then fst (Double.cutTimelineElement store elementId cutTime uuid)
             = CutApplied
        else Double.cutTimelineElement store elementId cutTime uuid
             = (CutTimeOutOfRange, store)).
Proof.
  split.
  - intros Hnone. unfold Double.cutTimelineElement. now rewrite Hnone.
  - intros element Hfind Hc Hs He.
    destruct (Double.strictlyInside element cutTime) eqn:Hin.
    + destruct (cut_applied_when_guard_passes store elementId cutTime uuid
                  element Hfind (strictlyInside_passes_guard _ _ Hin))
        as (store' & Hcut & _).
      now rewrite Hcut.
    + unfold Double.cutTimelineElement. rewrite Hfind. cbv zeta.
      assert (Hguard : Double.outsideTimeFrame
                         (Double.Element.timeFrame element) cutTime = true).
      { unfold Double.strictlyInside in Hin.
        unfold Double.outsideTimeFrame.
        apply andb_false_iff in Hin. apply orb_true_iff.
        destruct Hin as [Hin | Hin]; [left | right];
          now apply not_ltb_leb. }
      now rewrite Hguard.
Qed.

Set Warnings "-inexact-float".

(** C4.  The text strategy compares the words against the cut time it
    recomputes as [start + (cutTime - start)], and that sum is rounded: for
    the sample subtitle that starts at 1000.3, a cut at 3345.9 (strictly
    inside) is recomputed as 3345.9000000000005, so the word that starts
    exactly at the cut time, which the filter [word.start >= cut time] is
    written to send to the second clip, is in neither clip.  At the whole
    numbers of the spec's example the same code gives what the claim
    says. *)
Theorem cut_text_word_at_cut_time_is_dropped :
  Double.strictlyInside Double.fractionalElement (Double.Num 3345.9) = true
  /\ Double.startsFrom 3345.9 Double.lateWord = true
  /\ Double.recomputedCutTime Double.fractionalElement (Double.Num 3345.9)
     = 3345.9000000000005
  /\ Double.startsFrom 3345.9000000000005 Double.lateWord = false
  /\ fst (Double.cutTimelineElement Double.sampleStore "t3"
                                    (Double.Num 3345.9) "fresh")
     = CutApplied
  /\ option_map
       (fun clips => (Double.getWords (fst clips),
                      Double.getWords (snd clips)))
       (Double.producedClips Double.sampleStore
          (snd (Double.cutTimelineElement Double.sampleStore "t3"
                                          (Double.Num 3345.9) "fresh"))
          "t3")
     = Some (Some [], Some [])
  /\ option_map
       (fun clips => (Double.getWords (fst clips),
                      Double.getWords (snd clips)))
       (Double.producedClips Double.sampleStore
          (snd (Double.cutTimelineElement Double.sampleStore "t1"
                                          (Double.Num 2200) "fresh"))
          "t1")
     = Some (Some [Double.Word.mk "one" (Double.Num 0) (Double.Num 1000);
                   Double.Word.mk "two" (Double.Num 1000) (Double.Num 2000)],
             Some [Double.Word.mk "three" (Double.Num 300)
                                  (Double.Num 1300)]).
Proof.
  repeat split; vm_compute; reflexivity.
Qed.

(** C8, amended.  For every text element with a [words] array and every cut
    time strictly inside its time frame that the text strategy recomputes
    exactly ([start + (cutTime - start)] is [cutTime] again): the first
    clip's words are, untouched and in order, the words with
    [end <= cutTime]; the second clip's words are, in order, the words with
    [start >= cutTime], each with [start] and [end] lowered by the cut
    position and not cut short.  The original words, together with a second
    copy of those passing both tests, are, up to order, the first clip's
    words, the moved words and the words passing neither test.  So a word
    is in exactly one clip, except that a word straddling the cut time
    ([start < cutTime < end]) is in neither and a word with
    [end <= cutTime <= start] is in both, and only such a word is; among the
    words whose [start] and [end] are numbers other than [NaN], the
    straddling ones are the only ones in neither clip. *)
Theorem text_cut_words_split_by_comparisons
  (store : Double.Store.t) (elementId : string) (cutTime : Double.JsNum)
  (uuid : string) (element : Double.Element.t) (p : Double.Properties.t)
  (ws : list Double.Word.t) :
  find (Double.hasId elementId) (Double.Store.editorElements store)
  = Some element ->
  Double.strictlyInside element cutTime = true ->
  Double.Element.type element = "text"%string ->
  Double.Element.properties element = Some p ->
  Double.Properties.words p = Some ws ->
  Double.recomputedCutTime element cutTime = Double.toNumber cutTime ->
  let c := Double.toNumber cutTime in
  let cutPosition :=
    c - Double.toNumber
          (Double.TimeFrame.start (Double.Element.timeFrame element)) in
  exists store' firstClip secondClip firstWords moved,
    Double.cutTimelineElement store elementId cutTime uuid
    = (CutApplied, store')
    /\ Double.producedClips store store' elementId
       = Some (firstClip, secondClip)
    /\ Double.getWords firstClip = Some firstWords
    /\ Double.getWords secondClip
       = Some (map (fun w =>
                      Double.Word.mk
                        (Double.Word.text w)
                        (Double.Num (Double.toNumber (Double.Word.start w)
                                     - cutPosition))
                        (Double.Num (Double.toNumber (Double.Word.end_ w)
                                     - cutPosition)))
                   moved)
    /\ firstWords
       = filter (fun w => Double.toNumber (Double.Word.end_ w) <=? c) ws
    /\ moved
       = filter (fun w => c <=? Double.toNumber (Double.Word.start w)) ws
    /\ Permutation
         (ws ++ filter (fun w => Double.endsBy c w && Double.startsFrom c w)
                       ws)
         (firstWords ++ moved
          ++ filter (fun w => negb (Double.endsBy c w)
                              && negb (Double.startsFrom c w)) ws)
    /\ (forall w, In w ws ->
                  (Double.toNumber (Double.Word.start w) <? c) = true ->
                  (c <? Double.toNumber (Double.Word.end_ w)) = true ->
                  ~ In w firstWords /\ ~ In w moved)
    /\ (forall w, In w ws ->
                  (Double.toNumber (Double.Word.end_ w) <=? c) = true ->
                  (c <=? Double.toNumber (Double.Word.start w)) = true ->
                  In w firstWords /\ In w moved)
    /\ (forall w, In w firstWords -> In w moved ->
                  (Double.toNumber (Double.Word.end_ w) <=? c) = true
                  /\ (c <=? Double.toNumber (Double.Word.start w)) = true)
    /\ (forall w, In w ws ->
                  is_nan (Double.toNumber (Double.Word.start w)) = false ->
                  is_nan (Double.toNumber (Double.Word.end_ w)) = false ->
                  ~ In w firstWords -> ~ In w moved ->
                  (Double.toNumber (Double.Word.start w) <? c) = true
                  /\ (c <? Double.toNumber (Double.Word.end_ w)) = true).
Proof.
  intros Hfind Hin Hty Hp Hws Hexact c cutPosition.
  destruct (cut_applied_when_guard_passes store elementId cutTime uuid
              element Hfind (strictlyInside_passes_guard _ _ Hin))
    as (store' & Hcut & Hclips).
  destruct (cutClips_text_words element cutTime uuid p ws Hty Hp Hws)
    as [Hf Hg].
  rewrite Hexact in Hf, Hg. fold c in Hf, Hg.
  exists store', (fst (Double.cutClips element cutTime uuid)),
    (snd (Double.cutClips element cutTime uuid)),
    (filter (Double.endsBy c) ws), (filter (Double.startsFrom c) ws).
  split; [exact Hcut|]. split; [now rewrite <- surjective_pairing|].
  split; [exact Hf|]. split; [exact Hg|].
  split; [reflexivity|]. split; [reflexivity|].
  split; [apply two_filters_account|]. split; [|split; [|split]].
  - intros w _ Hs He. split; intros H; apply filter_In in H;
      destruct H as [_ H]; unfold Double.endsBy, Double.startsFrom in H.
    + rewrite (ltb_excludes_leb _ _ He) in H. discriminate.
    + rewrite (ltb_excludes_leb _ _ Hs) in H. discriminate.
  - intros w Hw He Hs. split; apply filter_In; split; assumption.
  - intros w H1 H2. apply filter_In in H1, H2.
    destruct H1 as [_ H1], H2 as [_ H2]. split; assumption.
  - intros w Hw Hs He Hnf Hnm.
    assert (Hc : is_nan c = false).
    { unfold Double.strictlyInside in Hin. apply andb_true_iff in Hin.
      destruct Hin as [Hin _]. now apply ltb_not_nan in Hin. }
    split.
    + destruct (Double.toNumber (Double.Word.start w) <? c) eqn:E;
        [reflexivity|].
      exfalso. apply Hnm. apply filter_In. split; [exact Hw|].
      now apply not_ltb_leb.
    + destruct (c <? Double.toNumber (Double.Word.end_ w)) eqn:E;
        [reflexivity|].
      exfalso. apply Hnf. apply filter_In. split; [exact Hw|].
      now apply not_ltb_leb.
Qed.

(** The sample subtitle that starts at 0.5, cut at 2000: the zero-length
    word at 2000 is in both clips, the word from 1500 to 2500 in neither,
    the early word in the first clip only. *)
Lemma text_cut_words_split_by_comparisons_witness :
  exists store' firstClip secondClip,
    Double.cutTimelineElement Double.sampleStore "t2" (Double.Num 2000)
                              "fresh"
    = (CutApplied, store')
    /\ Double.producedClips Double.sampleStore store' "t2"
       = Some (firstClip, secondClip)
    /\ Double.getWords firstClip
       = Some [Double.Word.mk "beat" (Double.Num 2000) (Double.Num 2000);
               Double.Word.mk "early" (Double.Num 0.5) (Double.Num 1200.25)]
    /\ Double.getWords secondClip
       = Some [Double.Word.mk "beat" (Double.Num 0.5) (Double.Num 0.5)].
Proof.
  destruct (text_cut_words_split_by_comparisons Double.sampleStore "t2"
              (Double.Num 2000) "fresh" Double.mixedElement
              (Double.Properties.mk Double.Undefined Double.Undefined
                                    (Some Double.mixedWords) [])
              Double.mixedWords)
    as (store' & f & g & fw & moved & Hcut & Hclips & Hf & Hg & Efw & Emoved
        & _).
  - reflexivity.
  - reflexivity.
  - reflexivity.
  - reflexivity.
  - reflexivity.
  - reflexivity.
  - exists store', f, g. split; [exact Hcut|]. split; [exact Hclips|].
    rewrite Hf, Hg, Efw, Emoved. split; reflexivity.
Defined.

(** The sample video, from 0 to 10000: the id "nobody" is not found, a cut
    at 10000 is refused. *)
Lemma cut_refuses_numbers_outside_witness :
  Double.cutTimelineElement Double.sampleStore "nobody" (Double.Num 4000)
                            "fresh"
  = (ElementNotFound, Double.sampleStore)
  /\ Double.cutTimelineElement Double.sampleStore "v1" (Double.Num 10000)
                               "fresh"
     = (CutTimeOutOfRange, Double.sampleStore).
Proof.
  split.
  - apply (proj1 (cut_refuses_numbers_outside Double.sampleStore "nobody"
                    (Double.Num 4000) "fresh")).
    reflexivity.
  - apply (proj2 (cut_refuses_numbers_outside Double.sampleStore "v1"
                    (Double.Num 10000) "fresh")
             Double.videoElement); reflexivity.
Defined.

End DoubleFacts.
